(** * DOM distillation and identifier addressing

    A shallow embedding of [src/domOptimizer.ts] (the multi-frame
    [captureOptimizedSnapshot], the legacy
    [captureOptimizedSnapshotSingleFrame] with its [collectAllElements]),
    of the variant without frames, and of the action tools [click],
    [drag], [hover] and [selectOption] together with [getElementByMcpId].

    Conventions of the embedding:
    - JS numbers that carry pixels or counters are integers ([Z]); on
      integers of magnitude below 2^53 JS arithmetic and comparison agree
      with [Z], and [String(n)] is the decimal numeral.  The computed
      opacity and a numeric [value] property are rationals ([Q]).
    - A JS string is the sequence of its UTF-16 code units ([JsString]);
      the string literals of this file denote such sequences.  Tag names
      are taken to consist of ASCII code units, on which [toLowerCase] is
      the ASCII lowering.
    - A JS string used only through its truthiness ([a || b], [if (a)])
      is a [JsString] whose empty value stands for [null], [undefined]
      and ['']; [innerText] is read as a string.  The [value] property is
      a string for form controls and a number for [li], [meter] and
      [progress].
    - The DOM of a frame is the list of its elements in document order;
      [setAttribute] is a map update on the attributes of the element.
    - What the automation host decides (whether a frame is detached,
      whether [evaluate] rejects before the script runs, what a boundary
      element's box is, what an action on a locator settles with) is data
      of the page or a parameter of the handlers.  The in-page script
      itself throws when it calls [replace] on a number; [evaluate] then
      rejects after the script has changed the document up to that
      point, with the error text the host gives the exception.
    - [console.warn] appends to a log that is returned next to the result.
    - An [async] function yields a [Settled] value: fulfilled or rejected. *)

From Stdlib Require Import ZArith NArith List Lia Bool QArith Sorted.
From Stdlib Require Import String Ascii DecimalString DecimalZ DecimalPos.
From Stdlib.Strings Require Byte.
From stdpp Require Import gmap.
Import ListNotations.
Open Scope Z_scope.

(** ** Strings *)

(** A UTF-16 code unit, below 2^16. *)
Definition CodeUnit : Type := N.

Definition JsString : Type := list CodeUnit.

(** String literals: each byte of an ASCII literal is one code unit. *)
Inductive Literal :=
| LitNil
| LitCons (c : N) (rest : Literal).

Fixpoint literal_of_bytes (l : list Byte.byte) : Literal :=
  match l with
  | [] => LitNil
  | b :: rest => LitCons (Byte.to_N b) (literal_of_bytes rest)
  end.

Fixpoint bytes_of_literal (s : Literal) : option (list Byte.byte) :=
  match s with
  | LitNil => Some []
  | LitCons c rest =>
      match Byte.of_N c, bytes_of_literal rest with
      | Some b, Some l => Some (b :: l)
      | _, _ => None
      end
  end.

Declare Scope js_scope.
Delimit Scope js_scope with js.
#[warnings="-via-type-mismatch,-via-type-remapping"]
String Notation JsString literal_of_bytes bytes_of_literal
  (via Literal mapping [[nil] => LitNil, [cons] => LitCons]) : js_scope.
Open Scope js_scope.

Definition dquote : JsString := [34%N].
Definition newline : JsString := [10%N].

(** The code units of an ASCII string of the standard library. *)
Definition codeUnits (s : string) : JsString :=
  map N_of_ascii (list_ascii_of_string s).

(** [String(n)] for an integer [n]. *)
Definition String_of_number (n : Z) : JsString :=
  codeUnits (NilZero.string_of_int (Z.to_int n)).

(** [a === b] on strings. *)
Fixpoint sameString (a b : JsString) : bool :=
  match a, b with
  | [], [] => true
  | x :: a', y :: b' => N.eqb x y && sameString a' b'
  | _, _ => false
  end.

(** Truthiness of a JS string, and [a || b] on strings. *)
Definition truthy (s : JsString) : bool :=
  match s with [] => false | _ => true end.

Definition orElse (a b : JsString) : JsString := if truthy a then a else b.

Definition space : CodeUnit := 32%N.

(** [\s] of a JS regular expression, which is also what [trim] strips:
    the white space and line terminator code points of ECMAScript (tab,
    line feed, vertical tab, form feed, carriage return, space,
    no-break space, U+1680, U+2000 to U+200A, U+2028, U+2029, U+202F,
    U+205F, U+3000 and U+FEFF). *)
Definition isWhitespace (c : CodeUnit) : bool :=
  ((9 <=? c) && (c <=? 13)
   || (c =? 32) || (c =? 160) || (c =? 5760)
   || (8192 <=? c) && (c <=? 8202)
   || (c =? 8232) || (c =? 8233) || (c =? 8239) || (c =? 8287)
   || (c =? 12288) || (c =? 65279))%N.

(** [s.replace(/\s+/g, ' ')]: every maximal run of whitespace becomes one
    space.  [inRun] tells that the previous code unit was whitespace. *)
Fixpoint collapseFrom (inRun : bool) (s : JsString) : JsString :=
  match s with
  | [] => []
  | c :: rest =>
      if isWhitespace c
      then if inRun then collapseFrom true rest
           else space :: collapseFrom true rest
      else c :: collapseFrom false rest
  end.

Definition collapseWhitespace (s : JsString) : JsString := collapseFrom false s.

Fixpoint trimStart (s : JsString) : JsString :=
  match s with
  | [] => []
  | c :: rest => if isWhitespace c then trimStart rest else s
  end.

Definition trimEnd (s : JsString) : JsString := rev (trimStart (rev s)).

Definition trim (s : JsString) : JsString := trimEnd (trimStart s).

(** [s.slice(0, n)], counted in code units: a negative [n] counts from
    the end. *)
Definition slice0 (n : Z) (s : JsString) : JsString :=
  let len := Z.of_nat (length s) in
  let stop := if n <? 0 then Z.max (len + n) 0 else Z.min n len in
  firstn (Z.to_nat stop) s.

Definition lowerChar (c : CodeUnit) : CodeUnit :=
  if ((65 <=? c) && (c <=? 90))%N then (c + 32)%N else c.

Definition toLowerCase (s : JsString) : JsString := map lowerChar s.

(** [parts.join(sep)]. *)
Fixpoint join (sep : JsString) (parts : list JsString) : JsString :=
  match parts with
  | [] => []
  | [p] => p
  | p :: rest => p ++ sep ++ join sep rest
  end.

(** ** Data model *)

Module DOMRect.
Record t := mk { x : Z; y : Z; width : Z; height : Z }.
Definition top (r : t) : Z := Z.min (y r) (y r + height r).
Definition bottom (r : t) : Z := Z.max (y r) (y r + height r).
End DOMRect.

Record ComputedStyle := {
  display : JsString;
  visibility : JsString;
  opacity : Q   (* parseFloat(computed.opacity) *)
}.

(** What the [value] property of an element holds: a string (form
    controls; the empty string also stands for an element without the
    property) or a number ([li], [meter], [progress]). *)
Inductive PropertyValue :=
| StringValue (s : JsString)
| NumberValue (n : Q).

(** A live element: what the in-page script reads from it, and its
    attributes, which the script updates. *)
Record Element := {
  tagName : JsString;
  innerText : JsString;
  value : PropertyValue;
  attributes : gmap JsString JsString;
  getBoundingClientRect : DOMRect.t;
  getComputedStyle : ComputedStyle
}.

Definition markerAttribute : JsString := "data-mcp-id".

(** [el.getAttribute(name)]; an absent attribute reads as the falsy string. *)
Definition getAttribute (el : Element) (name : JsString) : JsString :=
  match attributes el !! name with Some v => v | None => [] end.

Definition hasAttribute (el : Element) (name : JsString) : bool :=
  match attributes el !! name with Some _ => true | None => false end.

Definition setAttribute (el : Element) (name v : JsString) : Element :=
  {| tagName := tagName el;
     innerText := innerText el;
     value := value el;
     attributes := <[name := v]> (attributes el);
     getBoundingClientRect := getBoundingClientRect el;
     getComputedStyle := getComputedStyle el |}.

(** SnapshotOptions, every field optional. *)
Record SnapshotOptions := {
  viewportBuffer : option Z;
  maxTextLength : option Z;
  includeHidden : option bool;
  minElementSize : option (Z * Z)   (* width, height *)
}.

Definition noOptions : SnapshotOptions :=
  {| viewportBuffer := None; maxTextLength := None;
     includeHidden := None; minElementSize := None |}.

Module Bounds.
Record t := mk { x : Z; y : Z; width : Z; height : Z }.
End Bounds.

Record ElementMetadata := {
  mcpId : Z;
  md_tagName : JsString;
  text : JsString;
  role : option JsString;
  bounds : Bounds.t
}.

Record OptimizedDOMResult := {
  distilledHTML : JsString;
  elementMap : list ElementMetadata;
  totalElements : nat;
  visibleElements : nat
}.

(** The options after [?? default], plus what the caller passes to the
    in-page script of one frame. *)
Record EvalOpts := {
  o_viewportBuffer : Z;
  o_maxTextLength : Z;
  o_includeHidden : bool;
  o_minWidth : Z;
  o_minHeight : Z;
  startId : Z;
  frameOffsetX : Z;
  frameOffsetY : Z
}.

Definition nullish {A} (o : option A) (d : A) : A :=
  match o with Some v => v | None => d end.

Definition evalOpts (options : SnapshotOptions) (start offX offY : Z) : EvalOpts :=
  {| o_viewportBuffer := nullish (viewportBuffer options) 1000;
     o_maxTextLength := nullish (maxTextLength options) 100;
     o_includeHidden := nullish (includeHidden options) false;
     o_minWidth := nullish (fst <$> minElementSize options) 1;
     o_minHeight := nullish (snd <$> minElementSize options) 1;
     startId := start;
     frameOffsetX := offX;
     frameOffsetY := offY |}.

(** ** The interactive selectors *)

Definition tagSelectors : list JsString :=
  ["button"; "input"; "textarea"; "select";
   "h1"; "h2"; "h3"; "h4"; "h5"; "h6"; "label"].

Definition roleSelectors : list JsString :=
  ["button"; "link"; "tab"; "menuitem"; "option"].

Definition presenceSelectors : list JsString :=
  ["onclick"; "aria-label"; "title"].

Definition inList (s : JsString) (l : list JsString) : bool :=
  existsb (sameString s) l.

(** [el.matches(interactiveSelectors.join(','))]. *)
Definition matchesInteractive (el : Element) : bool :=
  let tag := toLowerCase (tagName el) in
  (sameString tag "a" && hasAttribute el "href")
  || inList tag tagSelectors
  || match attributes el !! "role" with
     | Some r => inList r roleSelectors
     | None => false
     end
  || existsb (hasAttribute el) presenceSelectors.

(** [document.querySelectorAll(selectors)]. *)
Definition querySelectorAll (document : list Element) : list Element :=
  List.filter matchesInteractive document.

(** ** The in-page script of one frame *)

(** How a piece of the in-page script ends: normally, or with the
    [TypeError] of calling [replace] on a value that has no such method,
    the one exception the script raises. *)
Inductive Completion (A : Type) :=
| Normal (v : A)
| TypeError.
Arguments Normal {A} v.
Arguments TypeError {A}.

(** What the script accumulates while it walks the candidates. *)
Record EvalState := {
  idCounter : Z;
  st_distilledHTML : list JsString;
  st_elementMap : list ElementMetadata
}.

(** Truthiness of a string or a number, and [a || b] on such values. *)
Definition truthyValue (v : PropertyValue) : bool :=
  match v with
  | StringValue s => truthy s
  | NumberValue n => negb (Qeq_bool n 0)
  end.

Definition orValue (a b : PropertyValue) : PropertyValue :=
  if truthyValue a then a else b.

(** [innerText || getAttribute('aria-label') || ... || value || '']. *)
Definition labelSource (el : Element) : PropertyValue :=
  orValue (StringValue (innerText el))
    (orValue (StringValue (getAttribute el "aria-label"))
       (orValue (StringValue (getAttribute el "placeholder"))
          (orValue (StringValue (getAttribute el "title"))
             (orValue (StringValue (getAttribute el "alt"))
                (orValue (value el) (StringValue [])))))).

Section InPage.
Variable o : EvalOpts.
(** [window.innerHeight] and [window.scrollY] of the frame's window. *)
Variables viewportHeight scrollY : Z.

Definition sizeTooSmall (el : Element) : bool :=
  let rect := getBoundingClientRect el in
  (DOMRect.width rect <? o_minWidth o) || (DOMRect.height rect <? o_minHeight o).

Definition cssHidden (el : Element) : bool :=
  let computed := getComputedStyle el in
  sameString (display computed) "none"
  || sameString (visibility computed) "hidden"
  || Qeq_bool (opacity computed) 0.

Definition absoluteTop (el : Element) : Z :=
  DOMRect.top (getBoundingClientRect el) + scrollY + frameOffsetY o.
Definition absoluteBottom (el : Element) : Z :=
  DOMRect.bottom (getBoundingClientRect el) + scrollY + frameOffsetY o.
Definition viewportTop : Z := scrollY - o_viewportBuffer o.
Definition viewportBottom : Z := scrollY + viewportHeight + o_viewportBuffer o.

Definition outsideViewport (el : Element) : bool :=
  (absoluteBottom el <? viewportTop) || (absoluteTop el >? viewportBottom).

(** The three early [return]s of the callback, in the order of the code. *)
Definition rejected (el : Element) : bool :=
  if sizeTooSmall el then true
  else if negb (o_includeHidden o)
       then if cssHidden el then true else outsideViewport el
       else false.

(** [text = text.replace(/\s+/g, ' ').trim().slice(0, maxTextLength)] on
    the label source: a number has no [replace]. *)
Definition extractText (el : Element) : Completion JsString :=
  match labelSource el with
  | StringValue raw =>
      Normal (slice0 (o_maxTextLength o) (trim (collapseWhitespace raw)))
  | NumberValue _ => TypeError
  end.

Definition attrFragment (name v : JsString) : JsString :=
  if truthy v then " " ++ name ++ "=" ++ dquote ++ v ++ dquote
  else [].

Definition buildHtml (el : Element) (id : Z) (txt : JsString) : JsString :=
  let tag := toLowerCase (tagName el) in
  "<" ++ tag
  ++ (" id=" ++ dquote ++ String_of_number id ++ dquote)
  ++ attrFragment "role" (getAttribute el "role")
  ++ attrFragment "type" (getAttribute el "type")
  ++ attrFragment "name" (getAttribute el "name")
  ++ (if truthy txt then ">" ++ txt ++ "</" ++ tag ++ ">" else " />").

Definition buildMetadata (el : Element) (id : Z) (txt : JsString) : ElementMetadata :=
  let rect := getBoundingClientRect el in
  let r := getAttribute el "role" in
  {| mcpId := id;
     md_tagName := toLowerCase (tagName el);
     text := txt;
     role := if truthy r then Some r else None;
     bounds := Bounds.mk (DOMRect.x rect + frameOffsetX o)
                         (DOMRect.y rect + frameOffsetY o)
                         (DOMRect.width rect) (DOMRect.height rect) |}.

(** The body of [elements.forEach((el) => ...)]: the element after the
    call, and the state after the call unless the call throws.  The
    marker is written before the text is extracted, so it stays on the
    element when the extraction throws. *)
Definition forEachBody (st : EvalState) (el : Element)
  : Element * Completion EvalState :=
  if rejected el then (el, Normal st)
  else
    let id := idCounter st in
    let el' := setAttribute el markerAttribute (String_of_number id) in
    match extractText el' with
    | TypeError => (el', TypeError)
    | Normal txt =>
        (el',
         Normal
           {| idCounter := id + 1;
              st_distilledHTML := st_distilledHTML st ++ [buildHtml el' id txt];
              st_elementMap := st_elementMap st ++ [buildMetadata el' id txt] |})
    end.

(** The walk over the document: the elements that
    [querySelectorAll] selects go through [forEachBody] in document
    order, the others are left alone; an exception ends the walk, the
    elements behind it being left as they are. *)
Fixpoint forEach (document : list Element) (st : EvalState)
  : list Element * Completion EvalState :=
  match document with
  | [] => ([], Normal st)
  | el :: rest =>
      if matchesInteractive el then
        match forEachBody st el with
        | (el', Normal st1) =>
            let '(rest', end_) := forEach rest st1 in
            (el' :: rest', end_)
        | (el', TypeError) => (el' :: rest, TypeError)
        end
      else
        let '(rest', end_) := forEach rest st in
        (el :: rest', end_)
  end.

(** What the script returns. *)
Record FrameResult := {
  fr_distilledHTML : list JsString;
  fr_elementMap : list ElementMetadata;
  fr_totalElements : nat;
  nextId : Z
}.

(** The script: the document it leaves, and its result unless it throws. *)
Definition script (document : list Element)
  : list Element * Completion FrameResult :=
  let st0 := {| idCounter := startId o; st_distilledHTML := []; st_elementMap := [] |} in
  match forEach document st0 with
  | (document', Normal st) =>
      (document',
       Normal
         {| fr_distilledHTML := st_distilledHTML st;
            fr_elementMap := st_elementMap st;
            fr_totalElements := length (querySelectorAll document);
            nextId := idCounter st |})
  | (document', TypeError) => (document', TypeError)
  end.
End InPage.

(** ** Frames, as the automation host presents them *)

(** [frameElement.boundingBox()]: it may throw, give [null], or a box of
    which the caller reads [x] and [y].  The host reports a box relative
    to the viewport of the main frame. *)
Inductive BoxProbe :=
| BoxThrows
| BoxNull
| Box (box_x box_y : Z).

(** [currentFrame.frameElement()]: it may throw, give a falsy handle, or
    a handle whose bounding box can be asked for. *)
Inductive FrameElementProbe :=
| FrameElementThrows
| FrameElementNull
| FrameElementHandle (boundingBox : BoxProbe).

(** The identity of a frame and its way up: [parentFrame()] is [null]
    for the main frame.  Frames form a tree, so the way up is finite. *)
#[warnings="-register-all"]
Inductive FrameNode :=
  mkFrameNode {
    frameId : nat;
    frameElement : FrameElementProbe;
    parentFrame : option FrameNode
  }.

(** A frame of [page.frames()].  [evaluateError] is the error with which
    [frame.evaluate] rejects without running the script, when it does
    (frame navigated or detached meanwhile); [scriptError] is the error
    with which it rejects when the script throws, the engine's
    [TypeError] as the host words it. *)
Record Frame := {
  node : FrameNode;
  isDetached : bool;
  evaluateError : option JsString;
  scriptError : JsString;
  innerHeight : Z;
  win_scrollY : Z;
  document : list Element
}.

Record Page := {
  mainFrame : nat;      (* identity of [page.mainFrame()] *)
  frames : list Frame   (* [page.frames()] *)
}.

(** One turn of the inner [try]: add the box of the boundary element, or
    nothing when it cannot be had. *)
Definition addBoundary (probe : FrameElementProbe) (acc : Z * Z) : Z * Z :=
  match probe with
  | FrameElementHandle (Box bx by_) => (fst acc + bx, snd acc + by_)
  | _ => acc
  end.

(** The [while (currentFrame !== page.mainFrame())] loop; [acc] is
    [(frameOffsetX, frameOffsetY)]. *)
Fixpoint offsetLoop (main : nat) (currentFrame : FrameNode) (acc : Z * Z) : Z * Z :=
  match currentFrame with
  | mkFrameNode id probe parent =>
      if (id =? main)%nat then acc
      else match parent with
           | None => acc
           | Some up => offsetLoop main up (addBoundary probe acc)
           end
  end.

(** ** captureOptimizedSnapshot *)

Record PassState := {
  globalIdCounter : Z;
  allResults : list FrameResult;
  warnings : list JsString
}.

Definition withDocument (frame : Frame) (doc : list Element) : Frame :=
  {| node := node frame; isDetached := isDetached frame;
     evaluateError := evaluateError frame; scriptError := scriptError frame;
     innerHeight := innerHeight frame;
     win_scrollY := win_scrollY frame; document := doc |}.

(** The [catch] of the frame loop: one warning, counter and results as
    they were. *)
Definition warn (ps : PassState) (error : JsString) : PassState :=
  {| globalIdCounter := globalIdCounter ps;
     allResults := allResults ps;
     warnings := warnings ps ++ ["Error processing frame: " ++ error] |}.

(** The body of [for (const frame of allFrames)], with its [try]. *)
Definition frameBody (options : SnapshotOptions) (main : nat)
    (ps : PassState) (frame : Frame) : Frame * PassState :=
  if isDetached frame then (frame, ps)
  else
    let '(offX, offY) := offsetLoop main (node frame) (0, 0) in
    match evaluateError frame with
    | Some error => (frame, warn ps error)
    | None =>
        match script (evalOpts options (globalIdCounter ps) offX offY)
                (innerHeight frame) (win_scrollY frame) (document frame) with
        | (doc', Normal frameResult) =>
            (withDocument frame doc',
             {| globalIdCounter := nextId frameResult;
                allResults := allResults ps ++ [frameResult];
                warnings := warnings ps |})
        | (doc', TypeError) =>
            (withDocument frame doc', warn ps (scriptError frame))
        end
    end.

Fixpoint frameLoop (options : SnapshotOptions) (main : nat)
    (allFrames : list Frame) (ps : PassState) : list Frame * PassState :=
  match allFrames with
  | [] => ([], ps)
  | frame :: rest =>
      let '(frame', ps1) := frameBody options main ps frame in
      let '(rest', ps2) := frameLoop options main rest ps1 in
      (frame' :: rest', ps2)
  end.

(** The merge loop over [allResults]. *)
Record Merged := {
  mergedDistilledHTML : list JsString;
  mergedElementMap : list ElementMetadata;
  m_totalElements : nat
}.

Definition mergeStep (m : Merged) (result : FrameResult) : Merged :=
  {| mergedDistilledHTML := mergedDistilledHTML m ++ fr_distilledHTML result;
     mergedElementMap := mergedElementMap m ++ fr_elementMap result;
     m_totalElements := (m_totalElements m + fr_totalElements result)%nat |}.

Definition mergeResults (results : list FrameResult) : Merged :=
  fold_left mergeStep results
    {| mergedDistilledHTML := []; mergedElementMap := []; m_totalElements := 0%nat |}.

(** How an [async] function settles. *)
Inductive Settled (A : Type) :=
| Fulfilled (v : A)
| Rejected (reason : JsString).
Arguments Fulfilled {A} v.
Arguments Rejected {A} reason.

(** What a pass leaves behind: the page with its markers, the console
    log, and the settled promise. *)
Record PassOutcome := {
  pageAfter : Page;
  consoleLog : list JsString;
  settled : Settled OptimizedDOMResult
}.

Definition captureOptimizedSnapshot (page : Page) (options : SnapshotOptions)
  : PassOutcome :=
  let '(frames', ps) :=
    frameLoop options (mainFrame page) (frames page)
      {| globalIdCounter := 1; allResults := []; warnings := [] |} in
  let m := mergeResults (allResults ps) in
  {| pageAfter := {| mainFrame := mainFrame page; frames := frames' |};
     consoleLog := warnings ps;
     settled :=
       Fulfilled
         {| distilledHTML := join newline (mergedDistilledHTML m);
            elementMap := mergedElementMap m;
            totalElements := m_totalElements m;
            visibleElements := length (mergedElementMap m) |} |}.


(** The variant without frames: one [page.evaluate] over the document of
    the page, nothing catching what it rejects with.  Its callback is the
    one above with no frame offset (the offset 0 added there changes
    nothing) and its counter starts at 1.  [scriptError] is what the host
    rejects with when the script throws. *)
Definition captureOptimizedSnapshotOfDocument (options : SnapshotOptions)
    (scriptError : JsString) (viewportHeight scrollY : Z)
    (document : list Element)
  : list Element * Settled OptimizedDOMResult :=
  match script (evalOpts options 1 0 0) viewportHeight scrollY document with
  | (document', Normal r) =>
      (document',
       Fulfilled
         {| distilledHTML := join newline (fr_distilledHTML r);
            elementMap := fr_elementMap r;
            totalElements := fr_totalElements r;
            visibleElements := length (fr_elementMap r) |})
  | (document', TypeError) => (document', Rejected scriptError)
  end.

(** ** Addressing an element: locators *)

(** The only selector the tools build: [[name="value"]]. *)
Inductive Selector :=
| AttrEquals (name v : JsString).

Definition selectorText (sel : Selector) : JsString :=
  match sel with
  | AttrEquals name v => "[" ++ name ++ "=" ++ dquote ++ v ++ dquote ++ "]"
  end.

Definition matchesSelector (sel : Selector) (el : Element) : bool :=
  match sel with
  | AttrEquals name v =>
      match attributes el !! name with
      | Some v' => sameString v' v
      | None => false
      end
  end.

(** [[data-mcp-id="${mcpId}"]]. *)
Definition mcpSelector (id : Z) : Selector :=
  AttrEquals markerAttribute (String_of_number id).

(** A locator is a description of how to find the element, resolved only
    when an action runs on it. *)
Inductive Locator :=
| PageLocator (sel : Selector)          (* [page.locator(selector)] *)
| RefLocator (element ref : JsString).    (* what [tab.refLocator] hands back *)

(** [getElementByMcpId]: it returns the page-level locator of the marker
    selector and nothing else; it takes the identifier alone. *)
Definition getElementByMcpId (id : Z) : Locator :=
  PageLocator (mcpSelector id).

(** ** The action tools *)

Inductive MouseButton := ButtonLeft | ButtonRight | ButtonMiddle.

Definition buttonName (b : MouseButton) : JsString :=
  match b with
  | ButtonLeft => "left"
  | ButtonRight => "right"
  | ButtonMiddle => "middle"
  end.

(** [elementSchema]. *)
Record ElementParams := {
  element : JsString;
  ref : option JsString;
  p_mcpId : option Z
}.

Record ClickParams := {
  c_target : ElementParams;
  doubleClick : option bool;
  button : option MouseButton
}.

Record DragParams := {
  startElement : JsString;
  startRef : option JsString;
  startMcpId : option Z;
  endElement : JsString;
  endRef : option JsString;
  endMcpId : option Z
}.

Record SelectParams := {
  s_target : ElementParams;
  values : list JsString
}.

(** What a handler asks of the page through a locator. *)
Inductive Action :=
| Click (l : Locator) (b : option MouseButton)
| DblClick (l : Locator) (b : option MouseButton)
| Hover (l : Locator)
| SelectOption (l : Locator) (vs : list JsString)
| DragTo (source target : Locator).

(** The calls a handler makes, in order. *)
Inductive Event :=
| SetIncludeSnapshot
| GetElementByMcpId (id : Z)
| CallRefLocator (element ref : JsString)
| CallRefLocators (startElement startRef endElement endRef : JsString)
| GenerateLocator (l : Locator)
| AddCode (code : JsString)
| WaitForCompletion (a : Action).

(** The calls that reach the page; the others touch the response object
    or build a locator. *)
Definition touchesPage (e : Event) : bool :=
  match e with
  | CallRefLocator _ _ | CallRefLocators _ _ _ _
  | GenerateLocator _ | WaitForCompletion _ => true
  | SetIncludeSnapshot | GetElementByMcpId _ | AddCode _ => false
  end.

(** A handler run: the calls made, and how the run settled. *)
Definition Tool (A : Type) : Type := list Event * Settled A.

Definition ret {A} (a : A) : Tool A := ([], Fulfilled a).

Definition throw {A} (message : JsString) : Tool A := ([], Rejected message).

Definition bind {A B} (m : Tool A) (k : A -> Tool B) : Tool B :=
  match m with
  | (calls, Fulfilled a) => let '(calls', r) := k a in (calls ++ calls', r)
  | (calls, Rejected reason) => (calls, Rejected reason)
  end.

Notation "'run' x <- m ; k" := (bind m (fun x => k))
  (at level 10, x name, m at level 100, k at level 200).
Notation "'exec' m ; k" := (bind m (fun _ => k))
  (at level 10, m at level 100, k at level 200).

Definition call {A} (e : Event) (outcome : Settled A) : Tool A := ([e], outcome).

Definition isTrue (o : option bool) : bool :=
  match o with Some true => true | _ => false end.

(** Truthiness of an optional JsString parameter. *)
Definition given (o : option JsString) : option JsString :=
  match o with
  | Some s => if truthy s then Some s else None
  | None => None
  end.

Section Tools.
(** The collaborators of the handlers, each free to reject. *)
Variable refLocator : JsString -> JsString -> Settled Locator.
Variable refLocators : JsString -> JsString -> JsString -> JsString -> Settled (Locator * Locator).
Variable generateLocator : Locator -> Settled JsString.
Variable formatObject : list JsString -> JsString.
Variable perform : Action -> Settled unit.

Definition setIncludeSnapshot : Tool unit := call SetIncludeSnapshot (Fulfilled tt).
Definition addCode (code : JsString) : Tool unit := call (AddCode code) (Fulfilled tt).
Definition tab_getElementByMcpId (id : Z) : Tool Locator :=
  call (GetElementByMcpId id) (Fulfilled (getElementByMcpId id)).
Definition tab_refLocator (el r : JsString) : Tool Locator :=
  call (CallRefLocator el r) (refLocator el r).
Definition tab_refLocators (se sr ee er : JsString) : Tool (Locator * Locator) :=
  call (CallRefLocators se sr ee er) (refLocators se sr ee er).
Definition tab_generateLocator (l : Locator) : Tool JsString :=
  call (GenerateLocator l) (generateLocator l).
Definition waitForCompletion (a : Action) : Tool unit :=
  call (WaitForCompletion a) (perform a).

Definition buttonAttr (b : option MouseButton) : JsString :=
  match b with
  | Some b => "{ button: '" ++ buttonName b ++ "' }"
  | None => []
  end.

Definition mcpCode (id : Z) : JsString :=
  "await page.locator('" ++ selectorText (mcpSelector id) ++ "')".

Definition click_handle (params : ClickParams) : Tool unit :=
  exec setIncludeSnapshot ;
  run locator <-
    match p_mcpId (c_target params) with
    | Some id =>
        run locator <- tab_getElementByMcpId id ;
        exec addCode (if isTrue (doubleClick params)
                 then mcpCode id ++ ".dblclick(" ++ buttonAttr (button params) ++ ");"
                 else mcpCode id ++ ".click(" ++ buttonAttr (button params) ++ ");") ;
        ret locator
    | None =>
        match given (ref (c_target params)) with
        | Some r =>
            run locator <- tab_refLocator (element (c_target params)) r ;
            run generated <- tab_generateLocator locator ;
            exec addCode (if isTrue (doubleClick params)
                     then "await page." ++ generated ++ ".dblclick("
                          ++ buttonAttr (button params) ++ ");"
                     else "await page." ++ generated ++ ".click("
                          ++ buttonAttr (button params) ++ ");") ;
            ret locator
        | None => throw "Either ref or mcpId must be provided"
        end
    end ;
  waitForCompletion (if isTrue (doubleClick params)
                     then DblClick locator (button params)
                     else Click locator (button params)).

Definition drag_handle (params : DragParams) : Tool unit :=
  exec setIncludeSnapshot ;
  run locators <-
    match startMcpId params, endMcpId params with
    | Some s, Some e =>
        run startLocator <- tab_getElementByMcpId s ;
        run endLocator <- tab_getElementByMcpId e ;
        exec addCode (mcpCode s ++ ".dragTo(page.locator('"
                 ++ selectorText (mcpSelector e) ++ "'));") ;
        ret (startLocator, endLocator)
    | _, _ =>
        match given (startRef params), given (endRef params) with
        | Some sr, Some er =>
            run both <- tab_refLocators (startElement params) sr (endElement params) er ;
            run gs <- tab_generateLocator (fst both) ;
            run ge <- tab_generateLocator (snd both) ;
            exec addCode ("await page." ++ gs ++ ".dragTo(page." ++ ge ++ ");") ;
            ret both
        | _, _ => throw "Either both refs or both mcpIds must be provided"
        end
    end ;
  waitForCompletion (DragTo (fst locators) (snd locators)).

Definition hover_handle (params : ElementParams) : Tool unit :=
  exec setIncludeSnapshot ;
  run locator <-
    match p_mcpId params with
    | Some id =>
        run locator <- tab_getElementByMcpId id ;
        exec addCode (mcpCode id ++ ".hover();") ;
        ret locator
    | None =>
        match given (ref params) with
        | Some r =>
            run locator <- tab_refLocator (element params) r ;
            run generated <- tab_generateLocator locator ;
            exec addCode ("await page." ++ generated ++ ".hover();") ;
            ret locator
        | None => throw "Either ref or mcpId must be provided"
        end
    end ;
  waitForCompletion (Hover locator).

Definition selectOption_handle (params : SelectParams) : Tool unit :=
  exec setIncludeSnapshot ;
  run locator <-
    match p_mcpId (s_target params) with
    | Some id =>
        run locator <- tab_getElementByMcpId id ;
        exec addCode (mcpCode id ++ ".selectOption(" ++ formatObject (values params) ++ ");") ;
        ret locator
    | None =>
        match given (ref (s_target params)) with
        | Some r =>
            run locator <- tab_refLocator (element (s_target params)) r ;
            run generated <- tab_generateLocator locator ;
            exec addCode ("await page." ++ generated ++ ".selectOption("
                     ++ formatObject (values params) ++ ");") ;
            ret locator
        | None => throw "Either ref or mcpId must be provided"
        end
    end ;
  waitForCompletion (SelectOption locator (values params)).
End Tools.

(** ** The legacy same-origin walk: collectAllElements *)

Definition MAX_DEPTH : nat := 10.

(** What [iframe.contentDocument || iframe.contentWindow?.document]
    yields: an exception for a cross-origin frame, nothing, or the
    document, named by its index in the graph. *)
Inductive ContentDocument :=
| CrossOrigin
| NoDocument
| SameOrigin (doc : nat).

Record IFrame := {
  src : JsString;
  contentDocument : ContentDocument
}.

Record DocumentNode := {
  doc_elements : list Element;
  doc_iframes : list IFrame     (* [doc.querySelectorAll('iframe')] *)
}.

(** The documents reachable from a page, as a graph that may have
    cycles: a document is looked up by its index. *)
Definition DocumentGraph : Type := nat -> DocumentNode.

(** A collected element with the [__iframeChain] of the visit that
    collected it. *)
Definition ElementWithIframeInfo : Type := Element * list IFrame.

Definition tooDeepWarning : JsString :=
  "iframe nesting too deep (>" ++ String_of_number (Z.of_nat MAX_DEPTH)
  ++ "), stopping recursion".

(** [collectAllElements(doc, selectors, iframeChain, depth)]: the console
    warnings and the elements.  [fuel] bounds the unfolding of the
    recursion; [collectAllElements] below starts with enough of it. *)
Fixpoint collect (fuel : nat) (graph : DocumentGraph) (doc : nat)
    (iframeChain : list IFrame) (depth : nat)
  : list JsString * list ElementWithIframeInfo :=
  if (MAX_DEPTH <? depth)%nat then ([tooDeepWarning], [])
  else
    match fuel with
    | O => ([], [])
    | S fuel' =>
        let own :=
          map (fun el => (el, iframeChain))
              (querySelectorAll (doc_elements (graph doc))) in
        fold_left
          (fun acc iframe =>
             match contentDocument iframe with
             | CrossOrigin =>
                 (fst acc ++
                    ["Cannot access iframe (cross-origin): "
                     ++ orElse (src iframe) "(no src)"],
                  snd acc)
             | NoDocument => acc
             | SameOrigin iframeDoc =>
                 let inner :=
                   collect fuel' graph iframeDoc (iframeChain ++ [iframe]) (depth + 1) in
                 (fst acc ++ fst inner, snd acc ++ snd inner)
             end)
          (doc_iframes (graph doc)) ([], own)
    end.

Definition collectAllElements (graph : DocumentGraph) (doc : nat)
  : list JsString * list ElementWithIframeInfo :=
  collect (S MAX_DEPTH) graph doc [] 0.
(** ** The walk of one frame, read as filter and numbering *)

(** What a completion carries, seen through [f]. *)
Definition mapCompletion {A B} (f : A -> B) (c : Completion A) : Completion B :=
  match c with
  | Normal v => Normal (f v)
  | TypeError => TypeError
  end.

Section WalkReading.
Variable o : EvalOpts.
Variables viewportHeight scrollY : Z.


(** A candidate that passes every filter step. *)
Definition retains (el : Element) : bool :=
  matchesInteractive el && negb (rejected o viewportHeight scrollY el).

Definition retainedOf (document : list Element) : list Element :=
  List.filter retains document.

Definition mark (id : Z) (el : Element) : Element :=
  setAttribute el markerAttribute (String_of_number id).

(** The label of an element whose label source is a JsString. *)
Definition labelOf (el : Element) : JsString :=
  match extractText o el with
  | Normal txt => txt
  | TypeError => []
  end.

Definition fragmentOf (id : Z) (el : Element) : JsString :=
  buildHtml (mark id el) id (labelOf (mark id el)).

Definition descriptorOf (id : Z) (el : Element) : ElementMetadata :=
  buildMetadata o (mark id el) id (labelOf (mark id el)).

(** The elements on which the callback throws: those it retains whose
    label source is a number. *)
Definition numericLabel (el : Element) : bool :=
  match labelSource el with
  | NumberValue _ => true
  | StringValue _ => false
  end.

Definition throwsOn (el : Element) : bool := retains el && numericLabel el.

(** The script runs to its end: the callback throws on no element. *)
Definition completes (document : list Element) : bool :=
  forallb (fun el => negb (throwsOn el)) document.

(** Consecutive identifiers handed to a list of elements. *)
Fixpoint number (start : Z) (els : list Element) : list (Z * Element) :=
  match els with
  | [] => []
  | el :: rest => (start, el) :: number (start + 1) rest
  end.

(** The result of a script that runs to its end: one fragment and one
    descriptor per retained element, numbered from [startId]. *)
Definition resultOf (document : list Element) : FrameResult :=
  {| fr_distilledHTML :=
       map (fun p => fragmentOf (fst p) (snd p))
           (number (startId o) (retainedOf document));
     fr_elementMap :=
       map (fun p => descriptorOf (fst p) (snd p))
           (number (startId o) (retainedOf document));
     fr_totalElements := length (querySelectorAll document);
     nextId := startId o + Z.of_nat (length (retainedOf document)) |}.

(** The document after the walk: the retained elements carry their
    marker, up to and including the first one on which the callback
    throws; what lies behind that one is as it was. *)
Fixpoint markFrom (start : Z) (document : list Element) : list Element :=
  match document with
  | [] => []
  | el :: rest =>
      if retains el
      then mark start el
           :: (if numericLabel el then rest else markFrom (start + 1) rest)
      else el :: markFrom start rest
  end.

(** Position by position, after a walk that ran to its end: an element
    that is not retained is the same after the walk; a retained one
    differs by its marker only, and the marker is the identifier it was
    numbered with. *)
Definition walked (start : Z) (document : list Element) (el el' : Element) : Prop :=
  if retains el
  then exists id,
         In (id, el) (number start (retainedOf document))
         /\ el' = mark id el
  else el' = el.

End WalkReading.

(** ** The frame loop, read frame by frame *)

Section PassReading.
Variable options : SnapshotOptions.
Variable main : nat.


(** A frame whose script is started: not detached, and [evaluate] does
    not reject beforehand. *)
Definition scriptRuns (frame : Frame) : bool :=
  negb (isDetached frame)
  && match evaluateError frame with None => true | Some _ => false end.

Definition frameOpts (frame : Frame) (start : Z) : EvalOpts :=
  let off := offsetLoop main (node frame) (0, 0) in
  evalOpts options start (fst off) (snd off).

(** The script of the frame does not throw (the start identifier has no
    part in that). *)
Definition frameCompletes (frame : Frame) : bool :=
  completes (frameOpts frame 1) (innerHeight frame) (win_scrollY frame)
    (document frame).

(** A frame that yields a result: its script is started and runs to its
    end. *)
Definition processed (frame : Frame) : bool :=
  scriptRuns frame && frameCompletes frame.

(** The retained elements of a frame, each with the descriptor it gets
    when the frame starts numbering at [start]. *)
Definition frameIssued (frame : Frame) (start : Z)
  : list (Element * ElementMetadata) :=
  if processed frame then
    let o := frameOpts frame start in
    map (fun p => (snd p, descriptorOf o (fst p) (snd p)))
        (number start
           (retainedOf o (innerHeight frame) (win_scrollY frame) (document frame)))
  else [].

(** The same over the frames in order, the counter handed on. *)
Fixpoint passIssued (allFrames : list Frame) (start : Z)
  : list (Element * ElementMetadata) :=
  match allFrames with
  | [] => []
  | frame :: rest =>
      let here := frameIssued frame start in
      here ++ passIssued rest (start + Z.of_nat (length here))
  end.

(** What the [catch] of the frame loop logs for a frame. *)
Definition frameWarning (frame : Frame) : list JsString :=
  if isDetached frame then []
  else match evaluateError frame with
       | Some error => ["Error processing frame: " ++ error]
       | None =>
           if frameCompletes frame then []
           else ["Error processing frame: " ++ scriptError frame]
       end.

(** The descriptors gathered so far, over all frame results. *)
Definition gathered (rs : list FrameResult) : list ElementMetadata :=
  flat_map fr_elementMap rs.

Definition discovered (rs : list FrameResult) : nat :=
  list_sum (map fr_totalElements rs).

(** The candidates found by the frames that are processed. *)
Definition frameDiscovered (frame : Frame) : nat :=
  if processed frame then length (querySelectorAll (document frame)) else 0%nat.

Definition passDiscovered (allFrames : list Frame) : nat :=
  list_sum (map frameDiscovered allFrames).
End PassReading.

(** The identifiers [start], [start + 1], ... handed out [n] times. *)
Definition consecutive (start : Z) (n : nat) : list Z :=
  map (fun k => start + Z.of_nat k) (seq 0 n).

(** ** The cumulative offset, read as a sum over the way up *)

(** The position of a boundary element within its parent; zero when it
    cannot be inspected. *)
Definition boundaryOffset (probe : FrameElementProbe) : Z * Z :=
  match probe with
  | FrameElementHandle (Box bx by_) => (bx, by_)
  | _ => (0, 0)
  end.

(** The boundary elements crossed on the way from a frame up to the main
    frame, innermost first. *)
Fixpoint ancestorLinks (main : nat) (frame : FrameNode) : list FrameElementProbe :=
  match frame with
  | mkFrameNode id probe parent =>
      if (id =? main)%nat then []
      else match parent with
           | None => []
           | Some up => probe :: ancestorLinks main up
           end
  end.

Definition sumZ (l : list Z) : Z := fold_right Z.add 0 l.

Definition inaccessible (probe : FrameElementProbe) : Prop :=
  forall bx by_, probe <> FrameElementHandle (Box bx by_).

(** ** What the host reports for a boundary element *)

(** The origin of a frame's viewport within the viewport of the main
    frame, as the host's boxes give it: the position reported for the
    frame's boundary element (borders left aside); it reads (0, 0) for
    the main frame, which has no boundary element, and for a frame whose
    boundary element the host does not report. *)
Definition frameOrigin (frame : FrameNode) : Z * Z :=
  boundaryOffset (frameElement frame).

(** A frame whose boundary element lies at [pos] within its parent
    frame, the parent being the main frame or a frame whose own boundary
    element is reported.  [boundingBox()] is relative to the viewport of
    the main frame, so the host reports the boundary element at the
    origin of the parent frame moved by [pos]. *)
Definition embedAt (id : nat) (pos : Z * Z) (parent : FrameNode) : FrameNode :=
  mkFrameNode id
    (FrameElementHandle
       (Box (fst (frameOrigin parent) + fst pos)
            (snd (frameOrigin parent) + snd pos)))
    (Some parent).

(** ** Resolving a locator against the page *)

Definition isMainFrame (page : Page) (frame : Frame) : bool :=
  (frameId (node frame) =? mainFrame page)%nat.


(** The elements of the main frame's document. *)
Definition mainDocument (page : Page) : list Element :=
  flat_map (fun frame => if isMainFrame page frame then document frame else [])
           (frames page).



(** ** Markers that compete with an identifier *)

Section Staleness.
Variable o : EvalOpts.
Variables viewportHeight scrollY : Z.


End Staleness.

Section PassStaleness.
Variable options : SnapshotOptions.
Variable main : nat.





End PassStaleness.

(** The descriptors a pass fulfilled with. *)
Definition descriptorsOf (out : PassOutcome) : list ElementMetadata :=
  match settled out with
  | Fulfilled r => elementMap r
  | Rejected _ => []
  end.

(** ** Concrete pages used below *)

Module Examples.

Definition visibleStyle : ComputedStyle :=
  {| display := "block"; visibility := "visible"; opacity := 1%Q |}.

Definition displayNone : ComputedStyle :=
  {| display := "none"; visibility := "visible"; opacity := 1%Q |}.

Definition aButton (label : JsString) (rect : DOMRect.t) (style : ComputedStyle)
  : Element :=
  {| tagName := "BUTTON"; innerText := label; value := StringValue [];
     attributes := ∅; getBoundingClientRect := rect; getComputedStyle := style |}.

Definition mainNode : FrameNode := mkFrameNode 0 FrameElementNull None.

(** How a host may word the exception of the in-page script. *)
Definition replaceError : JsString :=
  "Error: frame.evaluate: TypeError: text.replace is not a function".

(** A live frame with an 800 pixel high window that is not scrolled. *)
Definition frameOf (n : FrameNode) (doc : list Element) : Frame :=
  {| node := n; isDetached := false; evaluateError := None;
     scriptError := replaceError;
     innerHeight := 800; win_scrollY := 0; document := doc |}.

Definition pageOf (fs : list Frame) : Page :=
  {| mainFrame := 0%nat; frames := fs |}.

(** One [display: none] button of any geometry and one visible button. *)
Definition hiddenAndVisible (hiddenRect : DOMRect.t) : Page :=
  pageOf [frameOf mainNode
            [aButton "Hidden" hiddenRect displayNone;
             aButton "Visible" (DOMRect.mk 10 10 80 20) visibleStyle]].

(** Frame A at (10, 20) in the main frame, frame B at (50, 100) in A, and
    in B one element at (5, 5): the host reports the boundary element of
    A at (10, 20) and that of B at (60, 120). *)
Definition nodeA : FrameNode := embedAt 1 (10, 20) mainNode.
Definition nodeB : FrameNode := embedAt 2 (50, 100) nodeA.

Definition nestedPage : Page :=
  pageOf [frameOf mainNode []; frameOf nodeA [];
          frameOf nodeB [aButton "Deep" (DOMRect.mk 5 5 10 10) visibleStyle]].

(** The same page with the boundary element of A out of the caller's
    reach: [frameElement()] throws for A, the boundary element of B is
    reported at (60, 120) as before. *)
Definition nodeA_opaque : FrameNode :=
  mkFrameNode 1 FrameElementThrows (Some mainNode).
Definition nodeB_in_opaque : FrameNode :=
  mkFrameNode 2 (FrameElementHandle (Box 60 120)) (Some nodeA_opaque).

(** A page whose only frame rejects [evaluate]. *)
Definition failingFrame : Frame :=
  {| node := mainNode; isDetached := false;
     evaluateError := Some "Error: Execution context was destroyed";
     scriptError := replaceError;
     innerHeight := 800; win_scrollY := 0;
     document := [aButton "Gone" (DOMRect.mk 0 0 10 10) visibleStyle] |}.

Definition allFailPage : Page := pageOf [failingFrame].

Definition emptyResult : OptimizedDOMResult :=
  {| distilledHTML := []; elementMap := [];
     totalElements := 0; visibleElements := 0 |}.

(** A page state with a marker left over from an earlier pass: two
    visible buttons are distilled, then the first one is hidden. *)
Definition twoButtons : Page :=
  pageOf [frameOf mainNode
            [aButton "First" (DOMRect.mk 10 10 80 20) visibleStyle;
             aButton "Second" (DOMRect.mk 10 40 80 20) visibleStyle]].





(** A list item with the role of an option, the value 5 and no text of
    its own: its [value] property is the number 5. *)
Definition anOption (rect : DOMRect.t) : Element :=
  {| tagName := "LI"; innerText := []; value := NumberValue 5;
     attributes := <["role" := "option"]> (<["value" := "5"]> ∅);
     getBoundingClientRect := rect; getComputedStyle := visibleStyle |}.



(** A button near the top of the page and such an option 3000 pixels
    down, outside the default buffer. *)
Definition farOption : Page :=
  pageOf [frameOf mainNode
            [aButton "Near" (DOMRect.mk 10 10 80 20) visibleStyle;
             anOption (DOMRect.mk 10 3000 80 20)]].

Definition wideBuffer : SnapshotOptions :=
  {| viewportBuffer := Some 5000; maxTextLength := None;
     includeHidden := None; minElementSize := None |}.

(** A host on which every call of a handler succeeds. *)
Definition obligingRefLocator (el r : JsString) : Settled Locator :=
  Fulfilled (RefLocator el r).
Definition obligingRefLocators (se sr ee er : JsString) : Settled (Locator * Locator) :=
  Fulfilled (RefLocator se sr, RefLocator ee er).
Definition obligingGenerate (l : Locator) : Settled JsString :=
  Fulfilled "getByRole('button')".
Definition obligingFormat (vs : list JsString) : JsString := "[]".
Definition obligingPerform (a : Action) : Settled unit := Fulfilled tt.




End Examples.

(** ** getSnapshotOptionsFromConfig *)

(** Of the server configuration, the one field the function reads. *)
Record Config := {
  snapshotOptions : option SnapshotOptions
}.

(** [config.snapshotOptions || {}]. *)
Definition getSnapshotOptionsFromConfig (config : Config) : SnapshotOptions :=
  match snapshotOptions config with
  | Some options => options
  | None => noOptions
  end.

(** The options with every absent field written out as its default. *)
Definition fillDefaults (options : SnapshotOptions) : SnapshotOptions :=
  {| viewportBuffer := Some (nullish (viewportBuffer options) 1000);
     maxTextLength := Some (nullish (maxTextLength options) 100);
     includeHidden := Some (nullish (includeHidden options) false);
     minElementSize :=
       Some (nullish (fst <$> minElementSize options) 1,
             nullish (snd <$> minElementSize options) 1) |}.

(** [options'] filters no more than [options]: a buffer at least as
    large, minimum sizes at most as large, hidden elements included if
    they were. *)
Definition loosens (options options' : SnapshotOptions) : Prop :=
  nullish (viewportBuffer options) 1000 <= nullish (viewportBuffer options') 1000
  /\ nullish (fst <$> minElementSize options') 1
     <= nullish (fst <$> minElementSize options) 1
  /\ nullish (snd <$> minElementSize options') 1
     <= nullish (snd <$> minElementSize options) 1
  /\ (nullish (includeHidden options) false = true ->
      nullish (includeHidden options') false = true).

(** ** The whole pass, read frame by frame *)

Section PassNumbering.
Variable options : SnapshotOptions.
Variable main : nat.

(** The retained elements of a frame with the identifier each gets and
    the options the script of the frame runs with. *)
Definition frameNumbered (frame : Frame) (start : Z)
  : list (EvalOpts * Z * Element) :=
  if processed options main frame then
    let o := frameOpts options main frame start in
    map (fun p => (o, fst p, snd p))
        (number start
           (retainedOf o (innerHeight frame) (win_scrollY frame) (document frame)))
  else [].

Fixpoint passNumbered (allFrames : list Frame) (start : Z)
  : list (EvalOpts * Z * Element) :=
  match allFrames with
  | [] => []
  | frame :: rest =>
      let here := frameNumbered frame start in
      here ++ passNumbered rest (start + Z.of_nat (length here))
  end.

(** The results a frame adds to [allResults]: one when it is processed,
    none otherwise. *)
Definition frameResults (frame : Frame) (start : Z) : list FrameResult :=
  if processed options main frame
  then [resultOf (frameOpts options main frame start)
          (innerHeight frame) (win_scrollY frame) (document frame)]
  else [].

(** A frame after the pass: marked as far as its script got, when the
    script was started. *)
Definition frameMarked (frame : Frame) (start : Z) : Frame :=
  if scriptRuns frame then
    withDocument frame
      (markFrom (frameOpts options main frame start)
         (innerHeight frame) (win_scrollY frame) start (document frame))
  else frame.

Fixpoint passMarked (allFrames : list Frame) (start : Z) : list Frame :=
  match allFrames with
  | [] => []
  | frame :: rest =>
      frameMarked frame start
      :: passMarked rest (start + Z.of_nat (length (frameNumbered frame start)))
  end.
End PassNumbering.

Definition numberedDescriptor (t : EvalOpts * Z * Element) : ElementMetadata :=
  descriptorOf (fst (fst t)) (snd (fst t)) (snd t).

Definition numberedFragment (t : EvalOpts * Z * Element) : JsString :=
  fragmentOf (fst (fst t)) (snd (fst t)) (snd t).

(** The result a pass fulfils with, from the numbered elements. *)
Definition resultOfNumbered (numbered : list (EvalOpts * Z * Element))
    (total : nat) : OptimizedDOMResult :=
  {| distilledHTML := join newline (map numberedFragment numbered);
     elementMap := map numberedDescriptor numbered;
     totalElements := total;
     visibleElements := length numbered |}.

(** ** A fragment, read off its descriptor *)

(** The fragment of a descriptor, given the [type] and [name] attributes
    of its element. *)
Definition renderDescriptor (d : ElementMetadata) (typeHint nameHint : JsString)
  : JsString :=
  "<" ++ md_tagName d
  ++ (" id=" ++ dquote ++ String_of_number (mcpId d) ++ dquote)
  ++ attrFragment "role" (match role d with Some r => r | None => [] end)
  ++ attrFragment "type" typeHint
  ++ attrFragment "name" nameHint
  ++ (if truthy (text d)
       then ">" ++ text d ++ "</" ++ md_tagName d ++ ">"
       else " />").

(** ** Normalised text *)

(** A text without whitespace other than single spaces between other
    code units or at its end. *)
Fixpoint singleSpaced (afterSpace : bool) (s : JsString) : bool :=
  match s with
  | [] => true
  | c :: rest =>
      if N.eqb c space then negb afterSpace && singleSpaced true rest
      else negb (isWhitespace c) && singleSpaced false rest
  end.

(** ** The shape of a handler run *)

Definition isAction (e : Event) : bool :=
  match e with WaitForCompletion _ => true | _ => false end.

(** A run opens with [setIncludeSnapshot]; it acts on the page at most
    once, as its last call, right after recording the code line of that
    action, and settles as the action does; a run that does not end in an
    action is rejected. *)
Definition orderly (perform : Action -> Settled unit) (t : Tool unit) : Prop :=
  hd_error (fst t) = Some SetIncludeSnapshot
  /\ List.filter isAction (removelast (fst t)) = []
  /\ match List.last (fst t) SetIncludeSnapshot with
     | WaitForCompletion a =>
         snd t = perform a
         /\ exists code, List.last (removelast (fst t)) SetIncludeSnapshot = AddCode code
     | _ => exists reason, snd t = Rejected reason
     end.

(** ** The legacy walk, one iframe at a time *)

Definition crossOriginWarning (iframe : IFrame) : JsString :=
  "Cannot access iframe (cross-origin): " ++ orElse (src iframe) "(no src)".

(** What one iframe of a document adds to the walk. *)
Definition visitIframe (fuel : nat) (graph : DocumentGraph)
    (iframeChain : list IFrame) (depth : nat) (iframe : IFrame)
  : list JsString * list ElementWithIframeInfo :=
  match contentDocument iframe with
  | CrossOrigin => ([crossOriginWarning iframe], [])
  | NoDocument => ([], [])
  | SameOrigin iframeDoc =>
      collect fuel graph iframeDoc (iframeChain ++ [iframe]) (depth + 1)
  end.

Definition ownElements (graph : DocumentGraph) (doc : nat)
    (iframeChain : list IFrame) : list ElementWithIframeInfo :=
  map (fun el => (el, iframeChain)) (querySelectorAll (doc_elements (graph doc))).

(** ** captureOptimizedSnapshotSingleFrame *)

(** The legacy pass: one script in the top window walks the documents
    through [collectAllElements] and filters what it collected.  The walk
    sets the expando [__iframeChain] on every element it collects; the
    callback deletes it from the elements it retains.  In a DOM a
    document belongs to one iframe, so an element is collected once. *)

(** A collected element with its [__iframeChain] expando: [Some] chain
    while the expando is set, [None] once it is deleted. *)
Definition Collected : Type := Element * option (list IFrame).

(** A collected element as the walk hands it to the callback. *)
Definition tagged (entry : ElementWithIframeInfo) : Collected :=
  (fst entry, Some (snd entry)).

Section LegacyPass.
Variable options : SnapshotOptions.
(** [window.innerHeight] and [window.scrollY] of the top window. *)
Variables viewportHeight scrollY : Z.
(** [iframe.getBoundingClientRect()]. *)
Variable iframeRect : IFrame -> DOMRect.t.
(** What [page.evaluate] rejects with when the script throws. *)
Variable scriptError : JsString.

(** [iframeChain.forEach((iframe) => { iframeOffsetY += iframeRect.top })]. *)
Definition iframeOffsetY (iframeChain : list IFrame) : Z :=
  fold_left (fun acc iframe => acc + DOMRect.top (iframeRect iframe)) iframeChain 0.

(** The options as the callback reads them for an element: the viewport
    step adds the offset of the chain, the recorded bounds add nothing. *)
Definition legacyFilterOpts (iframeChain : list IFrame) : EvalOpts :=
  evalOpts options 1 0 (iframeOffsetY iframeChain).

Definition legacyOpts : EvalOpts := evalOpts options 1 0 0.

Definition legacyRejected (entry : ElementWithIframeInfo) : bool :=
  rejected (legacyFilterOpts (snd entry)) viewportHeight scrollY (fst entry).

(** The body of [elements.forEach((el) => ...)]: an element that is
    rejected returns early and keeps its expando; for a retained one the
    expando is deleted and the marker written before the text is
    extracted. *)
Definition legacyBody (st : EvalState) (entry : ElementWithIframeInfo)
  : Collected * Completion EvalState :=
  let el := fst entry in
  if legacyRejected entry then (tagged entry, Normal st)
  else
    let id := idCounter st in
    let el' := setAttribute el markerAttribute (String_of_number id) in
    match extractText legacyOpts el' with
    | TypeError => ((el', None), TypeError)
    | Normal txt =>
        ((el', None),
         Normal
           {| idCounter := id + 1;
              st_distilledHTML := st_distilledHTML st ++ [buildHtml el' id txt];
              st_elementMap :=
                st_elementMap st ++ [buildMetadata legacyOpts el' id txt] |})
    end.

Fixpoint legacyForEach (entries : list ElementWithIframeInfo) (st : EvalState)
  : list Collected * Completion EvalState :=
  match entries with
  | [] => ([], Normal st)
  | entry :: rest =>
      match legacyBody st entry with
      | (after, Normal st1) =>
          let '(rest', end_) := legacyForEach rest st1 in
          (after :: rest', end_)
      | (after, TypeError) => (after :: map tagged rest, TypeError)
      end
  end.

(** The console warnings of the walk, the collected elements as the pass
    leaves them, and how the pass settles. *)
Definition captureOptimizedSnapshotSingleFrame (graph : DocumentGraph) (root : nat)
  : list JsString * list Collected * Settled OptimizedDOMResult :=
  let '(warned, elements) := collectAllElements graph root in
  let st0 := {| idCounter := 1; st_distilledHTML := []; st_elementMap := [] |} in
  match legacyForEach elements st0 with
  | (elements', Normal st) =>
      (warned, elements',
       Fulfilled
         {| distilledHTML := join newline (st_distilledHTML st);
            elementMap := st_elementMap st;
            totalElements := length elements;
            visibleElements := length (st_elementMap st) |})
  | (elements', TypeError) => (warned, elements', Rejected scriptError)
  end.

(** The collected elements that pass the filter. *)
Definition legacyRetained (entries : list ElementWithIframeInfo) : list Element :=
  map fst (List.filter (fun entry => negb (legacyRejected entry)) entries).

(** The callback throws on a collected element: it passes the filter and
    its label source is a number. *)
Definition legacyThrowsOn (entry : ElementWithIframeInfo) : bool :=
  negb (legacyRejected entry) && numericLabel (fst entry).

Definition legacyCompletes (entries : list ElementWithIframeInfo) : bool :=
  forallb (fun entry => negb (legacyThrowsOn entry)) entries.

(** The collected elements after the pass: a retained one carries its
    marker and has lost the expando, up to and including the first one
    on which the callback throws; every other one is as the walk left
    it, expando included. *)
Fixpoint legacyMarked (start : Z) (entries : list ElementWithIframeInfo)
  : list Collected :=
  match entries with
  | [] => []
  | entry :: rest =>
      if legacyRejected entry then tagged entry :: legacyMarked start rest
      else (mark start (fst entry), None)
           :: (if numericLabel (fst entry) then map tagged rest
               else legacyMarked (start + 1) rest)
  end.
End LegacyPass.

(** A page that is one document without iframes. *)
Definition plainDocument (elements : list Element) : DocumentGraph :=
  fun _ => {| doc_elements := elements; doc_iframes := [] |}.
(** * Strings and attributes *)

Lemma sameString_eq (a b : JsString) : sameString a b = true <-> a = b.
Proof.
  revert b. induction a as [|x a IH]; intros [|y b]; cbn [sameString];
    try (split; [discriminate | discriminate]); [tauto|].
  rewrite andb_true_iff, N.eqb_eq, IH. split.
  - now intros [-> ->].
  - intros H. injection H as -> ->. now split.
Qed.

Lemma sameString_refl (a : JsString) : sameString a a = true.
Proof. now apply sameString_eq. Qed.

Lemma sameString_neq (a b : JsString) : a <> b -> sameString a b = false.
Proof.
  intros H. destruct (sameString a b) eqn:E; [|reflexivity].
  now apply sameString_eq in E.
Qed.

Lemma setAttribute_other el name v other :
  other <> name ->
  attributes (setAttribute el name v) !! other = attributes el !! other.
Proof. intros H. unfold setAttribute. cbn [attributes]. now apply lookup_insert_ne. Qed.

Lemma setAttribute_same el name v :
  attributes (setAttribute el name v) !! name = Some v.
Proof. unfold setAttribute. cbn [attributes]. apply lookup_insert_eq. Qed.

Lemma mark_mark id id' el : mark id (mark id' el) = mark id el.
Proof.
  unfold mark, setAttribute. cbn [tagName innerText value attributes
    getBoundingClientRect getComputedStyle].
  f_equal. apply insert_insert_eq.
Qed.

Lemma attributes_mark id el name :
  name <> markerAttribute ->
  attributes (mark id el) !! name = attributes el !! name.
Proof. intros H. unfold mark. now rewrite setAttribute_other. Qed.

Lemma getAttribute_mark id el name :
  name <> markerAttribute ->
  getAttribute (mark id el) name = getAttribute el name.
Proof. intros H. unfold getAttribute. now rewrite attributes_mark. Qed.

Lemma hasAttribute_mark id el name :
  name <> markerAttribute ->
  hasAttribute (mark id el) name = hasAttribute el name.
Proof. intros H. unfold hasAttribute. now rewrite attributes_mark. Qed.

Lemma matchesInteractive_mark id el :
  matchesInteractive (mark id el) = matchesInteractive el.
Proof.
  unfold matchesInteractive. cbn [existsb presenceSelectors].
  rewrite !hasAttribute_mark by discriminate.
  rewrite attributes_mark by discriminate.
  reflexivity.
Qed.

(** The marker is none of the attributes a label is read from. *)
Lemma labelSource_mark id el : labelSource (mark id el) = labelSource el.
Proof.
  unfold labelSource. now rewrite !getAttribute_mark by discriminate.
Qed.

Lemma numericLabel_mark id el : numericLabel (mark id el) = numericLabel el.
Proof. unfold numericLabel. now rewrite labelSource_mark. Qed.

Lemma extractText_mark o id el : extractText o (mark id el) = extractText o el.
Proof. unfold extractText. now rewrite labelSource_mark. Qed.

Lemma labelOf_mark o id el : labelOf o (mark id el) = labelOf o el.
Proof. unfold labelOf. now rewrite extractText_mark. Qed.

Lemma extractText_numeric o el :
  numericLabel el = true -> extractText o el = TypeError.
Proof.
  unfold numericLabel, extractText. now destruct (labelSource el).
Qed.

Lemma extractText_label o el :
  numericLabel el = false -> extractText o el = Normal (labelOf o el).
Proof.
  unfold numericLabel, labelOf, extractText.
  destruct (labelSource el); [reflexivity | discriminate].
Qed.

(** * Properties of the walk of one frame *)

Section Walk.
Variable o : EvalOpts.
Variables viewportHeight scrollY : Z.


Lemma forEachBody_rejected st el :
  rejected o viewportHeight scrollY el = true ->
  forEachBody o viewportHeight scrollY st el = (el, Normal st).
Proof. intros H. unfold forEachBody. now rewrite H. Qed.

Lemma forEachBody_retained st el :
  rejected o viewportHeight scrollY el = false ->
  numericLabel el = false ->
  forEachBody o viewportHeight scrollY st el =
    (mark (idCounter st) el,
     Normal
       {| idCounter := idCounter st + 1;
          st_distilledHTML := st_distilledHTML st ++ [fragmentOf o (idCounter st) el];
          st_elementMap := st_elementMap st ++ [descriptorOf o (idCounter st) el] |}).
Proof.
  intros H Hn. unfold forEachBody. rewrite H.
  fold (mark (idCounter st) el).
  rewrite <- (numericLabel_mark (idCounter st)) in Hn.
  now rewrite (extractText_label _ _ Hn).
Qed.

Lemma forEachBody_throws st el :
  rejected o viewportHeight scrollY el = false ->
  numericLabel el = true ->
  forEachBody o viewportHeight scrollY st el = (mark (idCounter st) el, TypeError).
Proof.
  intros H Hn. unfold forEachBody. rewrite H.
  fold (mark (idCounter st) el).
  rewrite <- (numericLabel_mark (idCounter st)) in Hn.
  now rewrite (extractText_numeric _ _ Hn).
Qed.

Lemma number_length start els : length (number start els) = length els.
Proof. revert start. induction els as [|el rest IH]; intros; simpl; [|rewrite IH]; reflexivity. Qed.

Lemma number_app start l1 l2 :
  number start (l1 ++ l2) =
  number start l1 ++ number (start + Z.of_nat (length l1)) l2.
Proof.
  revert start. induction l1 as [|el rest IH]; intros start; simpl.
  - now rewrite Z.add_0_r.
  - rewrite IH. do 3 f_equal. lia.
Qed.

Lemma throwsOn_retains el :
  throwsOn o viewportHeight scrollY el = true ->
  retains o viewportHeight scrollY el = true /\ numericLabel el = true.
Proof. unfold throwsOn. intros H. now apply andb_true_iff in H. Qed.

Lemma completes_cons el rest :
  completes o viewportHeight scrollY (el :: rest)
  = negb (throwsOn o viewportHeight scrollY el)
    && completes o viewportHeight scrollY rest.
Proof. reflexivity. Qed.

(** The stateful walk computes exactly the filter-and-number reading:
    it leaves the document marked as far as it got, and when the
    callback throws nowhere it ends in the state of that reading. *)
Lemma forEach_spec document st :
  forEach o viewportHeight scrollY document st =
    (markFrom o viewportHeight scrollY (idCounter st) document,
     if completes o viewportHeight scrollY document
     then Normal
       {| idCounter := idCounter st + Z.of_nat (length (retainedOf o viewportHeight scrollY document));
          st_distilledHTML :=
            st_distilledHTML st ++
            map (fun p => fragmentOf o (fst p) (snd p))
                (number (idCounter st) (retainedOf o viewportHeight scrollY document));
          st_elementMap :=
            st_elementMap st ++
            map (fun p => descriptorOf o (fst p) (snd p))
                (number (idCounter st) (retainedOf o viewportHeight scrollY document)) |}
     else TypeError).
Proof.
  revert st. induction document as [|el rest IH]; intros st.
  - simpl. rewrite Z.add_0_r, !app_nil_r. now destruct st.
  - cbn [forEach markFrom]. rewrite completes_cons.
    unfold retainedOf, throwsOn. cbn [List.filter].
    destruct (matchesInteractive el) eqn:Hm.
    + destruct (rejected o viewportHeight scrollY el) eqn:Hr.
      * assert (Hret : retains o viewportHeight scrollY el = false)
          by (unfold retains; rewrite Hm, Hr; reflexivity).
        rewrite (forEachBody_rejected _ _ Hr), IH, Hret. reflexivity.
      * assert (Hret : retains o viewportHeight scrollY el = true)
          by (unfold retains; rewrite Hm, Hr; reflexivity).
        rewrite Hret. destruct (numericLabel el) eqn:Hn.
        -- rewrite (forEachBody_throws _ _ Hr Hn). reflexivity.
        -- rewrite (forEachBody_retained _ _ Hr Hn), IH.
           cbn [idCounter st_distilledHTML st_elementMap length number map fst snd
                negb andb].
           destruct (completes o viewportHeight scrollY rest); [|reflexivity].
           rewrite <- !app_assoc. cbn [app].
           unfold retainedOf. do 3 f_equal. lia.
    + assert (Hret : retains o viewportHeight scrollY el = false)
        by (unfold retains; rewrite Hm; reflexivity).
      rewrite IH, Hret. reflexivity.
Qed.

Lemma script_spec document :
  script o viewportHeight scrollY document =
    (markFrom o viewportHeight scrollY (startId o) document,
     if completes o viewportHeight scrollY document
     then Normal (resultOf o viewportHeight scrollY document)
     else TypeError).
Proof.
  unfold script. rewrite forEach_spec. unfold resultOf.
  now destruct (completes o viewportHeight scrollY document).
Qed.

Lemma retainedOf_le_candidates document :
  (length (retainedOf o viewportHeight scrollY document) <= length (querySelectorAll document))%nat.
Proof.
  unfold retainedOf, querySelectorAll.
  induction document as [|el rest IH]; simpl; [lia|].
  unfold retains at 1. destruct (matchesInteractive el); simpl.
  - destruct (negb _); simpl; lia.
  - exact IH.
Qed.

Lemma descriptorOf_mcpId id el : mcpId (descriptorOf o id el) = id.
Proof. reflexivity. Qed.

Lemma number_ids start els :
  map (fun p => mcpId (descriptorOf o (fst p) (snd p))) (number start els) =
  map (fun k => start + Z.of_nat k) (seq 0 (length els)).
Proof.
  revert start. induction els as [|el rest IH]; intros start; simpl; [reflexivity|].
  rewrite Z.add_0_r. f_equal. rewrite IH, <- seq_shift, map_map.
  apply map_ext. intros k. lia.
Qed.
End Walk.

(** The start identifier has no part in what is retained or thrown on. *)
Lemma retains_start options s s' x y viewportHeight scrollY el :
  retains (evalOpts options s x y) viewportHeight scrollY el
  = retains (evalOpts options s' x y) viewportHeight scrollY el.
Proof. reflexivity. Qed.

Lemma completes_start options s s' x y viewportHeight scrollY document :
  completes (evalOpts options s x y) viewportHeight scrollY document
  = completes (evalOpts options s' x y) viewportHeight scrollY document.
Proof. reflexivity. Qed.

(** * Properties of the frame loop *)

Lemma list_sum_cons (a : nat) (l : list nat) :
  list_sum (a :: l) = (a + list_sum l)%nat.
Proof. reflexivity. Qed.

Section Pass.
Variable options : SnapshotOptions.
Variable main : nat.

Lemma frameCompletes_start frame start :
  completes (frameOpts options main frame start)
    (innerHeight frame) (win_scrollY frame) (document frame)
  = frameCompletes options main frame.
Proof. reflexivity. Qed.

(** A frame whose script is not started is left as it is. *)
Lemma frameBody_not_run ps frame :
  scriptRuns frame = false ->
  frameBody options main ps frame =
    (frame,
     {| globalIdCounter := globalIdCounter ps;
        allResults := allResults ps;
        warnings := warnings ps ++ frameWarning options main frame |}).
Proof.
  unfold scriptRuns, frameBody, frameWarning. intros H.
  destruct (isDetached frame); simpl in *.
  - rewrite app_nil_r. now destruct ps.
  - destruct (offsetLoop main (node frame) (0, 0)) as [offX offY].
    destruct (evaluateError frame); [reflexivity | discriminate].
Qed.

(** A frame whose script throws is marked as far as the script got;
    counter and results stay, and one warning is logged. *)
Lemma frameBody_thrown ps frame :
  scriptRuns frame = true ->
  frameCompletes options main frame = false ->
  frameBody options main ps frame =
    (withDocument frame
       (markFrom (frameOpts options main frame (globalIdCounter ps))
          (innerHeight frame) (win_scrollY frame)
          (globalIdCounter ps) (document frame)),
     {| globalIdCounter := globalIdCounter ps;
        allResults := allResults ps;
        warnings := warnings ps ++ frameWarning options main frame |}).
Proof.
  intros Hrun Hc. unfold frameBody, frameWarning, frameOpts.
  unfold scriptRuns in Hrun.
  destruct (isDetached frame); [discriminate|].
  destruct (evaluateError frame); [discriminate|].
  rewrite Hc.
  pose proof (frameCompletes_start frame (globalIdCounter ps)) as Hs.
  unfold frameOpts in Hs.
  destruct (offsetLoop main (node frame) (0, 0)) as [offX offY].
  cbn [fst snd] in *. rewrite script_spec, Hs, Hc. reflexivity.
Qed.

Lemma frameBody_processed ps frame :
  processed options main frame = true ->
  frameBody options main ps frame =
    (withDocument frame
       (markFrom (frameOpts options main frame (globalIdCounter ps))
          (innerHeight frame) (win_scrollY frame)
          (globalIdCounter ps) (document frame)),
     {| globalIdCounter :=
          globalIdCounter ps + Z.of_nat (length (frameIssued options main frame (globalIdCounter ps)));
        allResults :=
          allResults ps ++
          [resultOf (frameOpts options main frame (globalIdCounter ps))
             (innerHeight frame) (win_scrollY frame) (document frame)];
        warnings := warnings ps |}).
Proof.
  intros H. unfold frameBody, frameIssued, frameOpts. rewrite H.
  unfold processed, scriptRuns in H. apply andb_true_iff in H as [Hrun Hc].
  destruct (isDetached frame); [discriminate|].
  destruct (evaluateError frame); [discriminate|].
  pose proof (frameCompletes_start frame (globalIdCounter ps)) as Hs.
  unfold frameOpts in Hs.
  destruct (offsetLoop main (node frame) (0, 0)) as [offX offY].
  cbn [fst snd] in *. rewrite script_spec, Hs, Hc.
  unfold resultOf at 1. cbn [nextId startId evalOpts].
  now rewrite length_map, number_length.
Qed.

(** A frame that yields no result leaves counter and results as they
    are, whatever the reason. *)
Lemma frameBody_skipped ps frame :
  processed options main frame = false ->
  snd (frameBody options main ps frame) =
    {| globalIdCounter := globalIdCounter ps;
       allResults := allResults ps;
       warnings := warnings ps ++ frameWarning options main frame |}.
Proof.
  intros H. destruct (scriptRuns frame) eqn:Hrun.
  - unfold processed in H. rewrite Hrun in H. cbn [andb] in H.
    now rewrite (frameBody_thrown _ _ Hrun H).
  - now rewrite (frameBody_not_run _ _ Hrun).
Qed.

Lemma frameWarning_processed frame :
  processed options main frame = true -> frameWarning options main frame = [].
Proof.
  unfold processed, scriptRuns, frameWarning. intros H.
  apply andb_true_iff in H as [Hrun Hc].
  destruct (isDetached frame); [reflexivity|].
  destruct (evaluateError frame); [discriminate|]. now rewrite Hc.
Qed.

Lemma frameIssued_descriptors frame start :
  processed options main frame = true ->
  fr_elementMap
    (resultOf (frameOpts options main frame start)
       (innerHeight frame) (win_scrollY frame) (document frame)) =
  map snd (frameIssued options main frame start).
Proof.
  intros H. unfold frameIssued. rewrite H. unfold resultOf. simpl.
  now rewrite map_map.
Qed.

Lemma frameIssued_total frame start :
  (length (frameIssued options main frame start)
   <= if processed options main frame
      then length (querySelectorAll (document frame)) else 0)%nat.
Proof.
  unfold frameIssued. destruct (processed options main frame); simpl; [|lia].
  rewrite length_map, number_length. apply retainedOf_le_candidates.
Qed.

Lemma frameLoop_gathered allFrames ps :
  let ps' := snd (frameLoop options main allFrames ps) in
  globalIdCounter ps' =
    globalIdCounter ps + Z.of_nat (length (passIssued options main allFrames (globalIdCounter ps)))
  /\ gathered (allResults ps') =
     gathered (allResults ps) ++ map snd (passIssued options main allFrames (globalIdCounter ps))
  /\ discovered (allResults ps') =
     (discovered (allResults ps) + passDiscovered options main allFrames)%nat.
Proof.
  revert ps. induction allFrames as [|frame rest IH]; intros ps; cbn zeta.
  - simpl. rewrite Z.add_0_r, app_nil_r. unfold passDiscovered. simpl.
    repeat split; lia.
  - cbn [frameLoop passIssued]. unfold passDiscovered in *.
    cbn [map]. rewrite list_sum_cons. unfold frameDiscovered at 1.
    destruct (frameBody options main ps frame) as [frame' ps1] eqn:Hb.
    specialize (IH ps1). cbn zeta in IH.
    destruct (frameLoop options main rest ps1) as [rest' ps2]. simpl in IH |- *.
    destruct IH as (Hc & Hg & Hd).
    destruct (processed options main frame) eqn:Hp.
    + rewrite (frameBody_processed _ _ Hp) in Hb. injection Hb as <- <-.
      cbn [globalIdCounter allResults] in Hc, Hg, Hd.
      unfold gathered, discovered in *.
      rewrite flat_map_app in Hg. rewrite map_app, list_sum_app in Hd.
      cbn [flat_map map list_sum] in Hg, Hd.
      rewrite app_nil_r, (frameIssued_descriptors _ _ Hp) in Hg.
      unfold resultOf in Hd. cbn [fr_totalElements] in Hd.
      replace (list_sum [length (querySelectorAll (document frame))])
        with (length (querySelectorAll (document frame))) in Hd
        by (simpl; lia).
      rewrite Hc, Hg, map_app, length_app, <- app_assoc.
      repeat split; lia.
    + pose proof (frameBody_skipped ps frame Hp) as Hs. rewrite Hb in Hs.
      cbn [snd] in Hs. subst ps1.
      cbn [globalIdCounter allResults] in Hc, Hg, Hd.
      assert (Hnil : frameIssued options main frame (globalIdCounter ps) = [])
        by (unfold frameIssued; now rewrite Hp).
      rewrite Hnil. cbn [length app]. rewrite Z.add_0_r.
      rewrite Hc, Hg. repeat split; lia.
Qed.

Lemma mergeResults_spec rs :
  mergedElementMap (mergeResults rs) = gathered rs
  /\ mergedDistilledHTML (mergeResults rs) = flat_map fr_distilledHTML rs
  /\ m_totalElements (mergeResults rs) = discovered rs.
Proof.
  unfold mergeResults, gathered, discovered.
  set (m0 := {| mergedDistilledHTML := []; mergedElementMap := [];
                m_totalElements := 0%nat |}).
  assert (G : forall m,
    mergedElementMap (fold_left mergeStep rs m) =
      mergedElementMap m ++ flat_map fr_elementMap rs
    /\ mergedDistilledHTML (fold_left mergeStep rs m) =
      mergedDistilledHTML m ++ flat_map fr_distilledHTML rs
    /\ m_totalElements (fold_left mergeStep rs m) =
      (m_totalElements m + list_sum (map fr_totalElements rs))%nat).
  { induction rs as [|r rest IH]; intros m; simpl.
    - rewrite !app_nil_r. repeat split; lia.
    - destruct (IH (mergeStep m r)) as (A & B & C).
      rewrite A, B, C. simpl. rewrite <- !app_assoc. repeat split; lia. }
  destruct (G m0) as (A & B & C). rewrite A, B, C. now subst m0.
Qed.
End Pass.

(** * Consecutive identifiers *)

Lemma consecutive_S start n :
  consecutive start (S n) = start :: consecutive (start + 1) n.
Proof.
  unfold consecutive. cbn [seq map]. rewrite Z.add_0_r. f_equal.
  rewrite <- seq_shift, map_map. apply map_ext. intros k. lia.
Qed.

Lemma consecutive_app start n m :
  consecutive start (n + m) =
  consecutive start n ++ consecutive (start + Z.of_nat n) m.
Proof.
  revert start. induction n as [|n IH]; intros start.
  - simpl. now rewrite Z.add_0_r.
  - cbn [Nat.add]. rewrite !consecutive_S, IH. cbn [app]. do 3 f_equal. lia.
Qed.

Lemma consecutive_from_one n :
  consecutive 1 n = map Z.of_nat (seq 1 n).
Proof.
  unfold consecutive. rewrite <- seq_shift, map_map.
  apply map_ext. intros k. lia.
Qed.

Lemma consecutive_lower start n id : In id (consecutive start n) -> start <= id.
Proof.
  unfold consecutive. rewrite in_map_iff. intros (k & <- & _). lia.
Qed.

Lemma consecutive_sorted start n :
  Sorted.StronglySorted Z.lt (consecutive start n).
Proof.
  revert start. induction n as [|n IH]; intros start.
  - constructor.
  - rewrite consecutive_S. constructor; [apply IH|].
    apply List.Forall_forall. intros id Hin.
    apply consecutive_lower in Hin. lia.
Qed.

Lemma sorted_lt_NoDup (l : list Z) :
  Sorted.StronglySorted Z.lt l -> List.NoDup l.
Proof.
  induction 1 as [|a l Hs IH Hall]; constructor; [|exact IH].
  intros Hin. rewrite List.Forall_forall in Hall.
  specialize (Hall a Hin). lia.
Qed.

Section PassIds.
Variable options : SnapshotOptions.
Variable main : nat.

Lemma frameIssued_ids frame start :
  map (fun p => mcpId (snd p)) (frameIssued options main frame start) =
  consecutive start (length (frameIssued options main frame start)).
Proof.
  unfold frameIssued. destruct (processed options main frame); [|reflexivity].
  rewrite map_map, length_map, number_length. cbn [snd].
  apply number_ids.
Qed.

Lemma passIssued_ids allFrames start :
  map (fun p => mcpId (snd p)) (passIssued options main allFrames start) =
  consecutive start (length (passIssued options main allFrames start)).
Proof.
  revert start. induction allFrames as [|frame rest IH]; intros start.
  - reflexivity.
  - cbn [passIssued]. rewrite map_app, length_app, consecutive_app.
    now rewrite frameIssued_ids, IH.
Qed.

Lemma passIssued_le_discovered allFrames start :
  (length (passIssued options main allFrames start) <= passDiscovered options main allFrames)%nat.
Proof.
  revert start. unfold passDiscovered.
  induction allFrames as [|frame rest IH]; intros start; [simpl; lia|].
  cbn [passIssued map]. rewrite list_sum_cons, length_app.
  pose proof (frameIssued_total options main frame start) as Ht.
  specialize (IH (start + Z.of_nat (length (frameIssued options main frame start)))).
  unfold frameDiscovered at 1. lia.
Qed.

(** What a pass fulfils with, in terms of the frame-by-frame reading. *)
Lemma capture_fulfils page :
  exists r,
    settled (captureOptimizedSnapshot page options) = Fulfilled r
    /\ elementMap r = map snd (passIssued options (mainFrame page) (frames page) 1)
    /\ visibleElements r = length (elementMap r)
    /\ totalElements r = passDiscovered options (mainFrame page) (frames page).
Proof.
  unfold captureOptimizedSnapshot.
  set (ps0 := {| globalIdCounter := 1; allResults := []; warnings := [] |}).
  pose proof (frameLoop_gathered options (mainFrame page) (frames page) ps0) as H.
  destruct (frameLoop options (mainFrame page) (frames page) ps0) as [frames' ps].
  cbn zeta in H. cbn [snd] in H. destruct H as (_ & Hg & Hd).
  destruct (mergeResults_spec (allResults ps)) as (Hm & _ & Ht).
  eexists. split; [reflexivity|]. cbn [elementMap visibleElements totalElements].
  rewrite Hm, Ht, Hg. subst ps0. cbn [allResults globalIdCounter gathered flat_map app] in *.
  unfold discovered in Hd at 2. cbn [allResults map list_sum fold_right] in Hd.
  repeat split. exact Hd.
Qed.
End PassIds.

(** * Where a descriptor comes from *)

Section Origin.
Variable options : SnapshotOptions.
Variable main : nat.

Lemma number_In start els id el :
  In (id, el) (number start els) -> In el els.
Proof.
  revert start. induction els as [|e rest IH]; intros start; simpl; [tauto|].
  intros [H | H]; [injection H as _ <-; now left | right; eauto].
Qed.

Lemma frameIssued_origin frame start el d :
  In (el, d) (frameIssued options main frame start) ->
  processed options main frame = true
  /\ In el (document frame)
  /\ retains (frameOpts options main frame start)
       (innerHeight frame) (win_scrollY frame) el = true
  /\ d = descriptorOf (frameOpts options main frame start) (mcpId d) el.
Proof.
  unfold frameIssued. destruct (processed options main frame); [|intros []].
  rewrite in_map_iff. intros ([id e] & Heq & Hin). cbn [fst snd] in Heq.
  injection Heq as -> <-. apply number_In in Hin.
  unfold retainedOf in Hin. apply filter_In in Hin as [Hdoc Hret].
  repeat split; assumption.
Qed.

Lemma passIssued_origin allFrames start p :
  In p (passIssued options main allFrames start) ->
  exists frame s, In frame allFrames /\ In p (frameIssued options main frame s).
Proof.
  revert start. induction allFrames as [|frame rest IH]; intros start; [intros []|].
  cbn [passIssued]. rewrite in_app_iff. intros [H | H].
  - exists frame, start. split; [now left | exact H].
  - destruct (IH _ H) as (f & s & Hf & Hp). exists f, s. split; [now right | exact Hp].
Qed.
End Origin.
(** * The document after the walk *)

Section Marking.
Variable o : EvalOpts.
Variables viewportHeight scrollY : Z.

Lemma retainedOf_app l1 l2 :
  retainedOf o viewportHeight scrollY (l1 ++ l2) =
  retainedOf o viewportHeight scrollY l1 ++ retainedOf o viewportHeight scrollY l2.
Proof. apply List.filter_app. Qed.

Lemma completes_app l1 l2 :
  completes o viewportHeight scrollY (l1 ++ l2)
  = completes o viewportHeight scrollY l1 && completes o viewportHeight scrollY l2.
Proof. apply forallb_app. Qed.

Lemma retains_not_thrown el :
  retains o viewportHeight scrollY el = false ->
  throwsOn o viewportHeight scrollY el = false.
Proof. intros H. unfold throwsOn. now rewrite H. Qed.

(** A walk that gets through the first part of a document goes on in
    the second with the counter moved by what it retained. *)
Lemma markFrom_app start l1 l2 :
  completes o viewportHeight scrollY l1 = true ->
  markFrom o viewportHeight scrollY start (l1 ++ l2) =
  markFrom o viewportHeight scrollY start l1 ++
  markFrom o viewportHeight scrollY
    (start + Z.of_nat (length (retainedOf o viewportHeight scrollY l1))) l2.
Proof.
  revert start. induction l1 as [|el rest IH]; intros start Hc.
  - simpl. now rewrite Z.add_0_r.
  - rewrite completes_cons in Hc. apply andb_true_iff in Hc as [Hel Hc].
    cbn [app markFrom]. unfold retainedOf. cbn [List.filter].
    unfold throwsOn in Hel.
    destruct (retains o viewportHeight scrollY el); cbn [andb negb] in Hel.
    + apply negb_true_iff in Hel. rewrite Hel, (IH _ Hc). cbn [app length].
      unfold retainedOf. do 3 f_equal. lia.
    + now rewrite (IH _ Hc).
Qed.

(** A walk that throws in the first part of a document never reaches
    the second. *)
Lemma markFrom_app_thrown start l1 l2 :
  completes o viewportHeight scrollY l1 = false ->
  markFrom o viewportHeight scrollY start (l1 ++ l2) =
  markFrom o viewportHeight scrollY start l1 ++ l2.
Proof.
  revert start. induction l1 as [|el rest IH]; intros start Hc; [discriminate|].
  rewrite completes_cons in Hc. cbn [app markFrom]. unfold throwsOn in Hc.
  destruct (retains o viewportHeight scrollY el); cbn [andb negb] in Hc.
  - destruct (numericLabel el); cbn [negb andb] in Hc; [reflexivity|].
    now rewrite (IH _ Hc).
  - now rewrite (IH _ Hc).
Qed.

Lemma markFrom_length start document :
  length (markFrom o viewportHeight scrollY start document) = length document.
Proof.
  revert start. induction document as [|el rest IH]; intros start; [reflexivity|].
  cbn [markFrom]. destruct (retains o viewportHeight scrollY el);
    [destruct (numericLabel el)|]; cbn [length]; now rewrite ?IH.
Qed.

Lemma markFrom_walked start document :
  completes o viewportHeight scrollY document = true ->
  Forall2 (walked o viewportHeight scrollY start document) document
    (markFrom o viewportHeight scrollY start document).
Proof.
  revert start. induction document as [|el rest IH]; intros start Hc; [constructor|].
  rewrite completes_cons in Hc. apply andb_true_iff in Hc as [Hel Hc].
  cbn [markFrom]. unfold throwsOn in Hel.
  destruct (retains o viewportHeight scrollY el) eqn:Hret; cbn [andb negb] in Hel.
  - apply negb_true_iff in Hel. rewrite Hel. constructor.
    + unfold walked. rewrite Hret. exists start. split; [|reflexivity].
      unfold retainedOf. cbn [List.filter]. rewrite Hret. now left.
    + eapply Forall2_impl; [apply (IH _ Hc)|].
      intros a b. unfold walked.
      destruct (retains o viewportHeight scrollY a); [|tauto].
      intros (id & Hin & ->). exists id. split; [|reflexivity].
      unfold retainedOf in *. cbn [List.filter]. rewrite Hret. now right.
  - constructor.
    + unfold walked. now rewrite Hret.
    + eapply Forall2_impl; [apply (IH _ Hc)|].
      intros a b. unfold walked.
      destruct (retains o viewportHeight scrollY a); [|tauto].
      intros (id & Hin & ->). exists id. split; [|reflexivity].
      unfold retainedOf in *. cbn [List.filter]. now rewrite Hret.
Qed.

Lemma Forall2_same {A} (R : A -> A -> Prop) (l : list A) :
  (forall a, R a a) -> Forall2 R l l.
Proof. intros H. induction l; constructor; auto. Qed.

(** Whether the walk ends or throws: an element that is not retained is
    the same afterwards, and a retained one is the same or differs by a
    marker not below the start identifier. *)
Lemma markFrom_touched start document :
  Forall2
    (fun el el' =>
       if retains o viewportHeight scrollY el
       then el' = el \/ exists id, start <= id /\ el' = mark id el
       else el' = el)
    document (markFrom o viewportHeight scrollY start document).
Proof.
  revert start. induction document as [|el rest IH]; intros start; [constructor|].
  cbn [markFrom]. destruct (retains o viewportHeight scrollY el) eqn:Hret.
  - constructor.
    + rewrite Hret. right. exists start. split; [lia | reflexivity].
    + destruct (numericLabel el).
      * apply Forall2_same. intros a.
        destruct (retains o viewportHeight scrollY a); [now left | reflexivity].
      * eapply Forall2_impl; [apply (IH (start + 1))|].
        intros a b. cbv beta.
        destruct (retains o viewportHeight scrollY a); [|tauto].
        intros [H | (id & Hid & H)]; [now left|].
        right. exists id. split; [lia | exact H].
  - constructor; [now rewrite Hret | apply IH].
Qed.

Lemma retains_rejected el :
  rejected o viewportHeight scrollY el = true ->
  retains o viewportHeight scrollY el = false.
Proof. intros H. unfold retains. rewrite H. apply andb_false_r. Qed.

Lemma sizeTooSmall_rejected el :
  sizeTooSmall o el = true -> rejected o viewportHeight scrollY el = true.
Proof. intros H. unfold rejected. now rewrite H. Qed.
End Marking.

(** * The legacy walk *)






(** * The cumulative offset *)

Lemma addBoundary_boundaryOffset probe acc :
  addBoundary probe acc =
  (fst acc + fst (boundaryOffset probe), snd acc + snd (boundaryOffset probe)).
Proof.
  destruct acc as [ax ay].
  destruct probe as [| |[| |bx by_]]; cbn; f_equal; lia.
Qed.

Lemma offsetLoop_sum (main : nat) (frame : FrameNode) (acc : Z * Z) :
  offsetLoop main frame acc =
  (fst acc + sumZ (map (fun p => fst (boundaryOffset p)) (ancestorLinks main frame)),
   snd acc + sumZ (map (fun p => snd (boundaryOffset p)) (ancestorLinks main frame))).
Proof.
  revert frame acc. fix IH 1. intros [id probe [up|]] acc;
    cbn [offsetLoop ancestorLinks].
  - destruct (id =? main)%nat.
    + cbn. destruct acc; f_equal; cbn; lia.
    + rewrite (IH up), addBoundary_boundaryOffset.
      cbn [fst snd map sumZ fold_right]. f_equal; unfold sumZ; lia.
  - destruct (id =? main)%nat; cbn; destruct acc; f_equal; cbn; lia.
Qed.

(** For a frame embedded in a parent, the loop adds the origin of the
    frame itself, which the host's box gives relative to the main frame,
    to what it computes for the parent. *)
Lemma offsetLoop_embedAt main id pos parent :
  id <> main ->
  offsetLoop main (embedAt id pos parent) (0, 0)
  = (fst (frameOrigin (embedAt id pos parent)) + fst (offsetLoop main parent (0, 0)),
     snd (frameOrigin (embedAt id pos parent)) + snd (offsetLoop main parent (0, 0))).
Proof.
  intros Hne. unfold embedAt. cbn [offsetLoop].
  apply Nat.eqb_neq in Hne. rewrite Hne.
  rewrite offsetLoop_sum, (offsetLoop_sum main parent (0, 0)).
  cbn [addBoundary frameOrigin frameElement boundaryOffset fst snd]. f_equal; lia.
Qed.
(** * The frame loop as its reading *)

Section Skip.
Variable options : SnapshotOptions.
Variable main : nat.

Lemma frameNumbered_length frame start :
  length (frameNumbered options main frame start)
  = length (frameIssued options main frame start).
Proof.
  unfold frameNumbered, frameIssued.
  destruct (processed options main frame); [|reflexivity].
  now rewrite !length_map.
Qed.

Lemma frameBody_reading ps frame :
  frameBody options main ps frame =
  (frameMarked options main frame (globalIdCounter ps),
   {| globalIdCounter :=
        globalIdCounter ps
        + Z.of_nat (length (frameNumbered options main frame (globalIdCounter ps)));
      allResults := allResults ps ++ frameResults options main frame (globalIdCounter ps);
      warnings := warnings ps ++ frameWarning options main frame |}).
Proof.
  rewrite frameNumbered_length. unfold frameMarked, frameResults.
  destruct (processed options main frame) eqn:Hp.
  - rewrite (frameBody_processed _ _ _ _ Hp), (frameWarning_processed _ _ _ Hp).
    unfold processed in Hp. apply andb_true_iff in Hp as [-> _].
    now rewrite app_nil_r.
  - assert (Hnil : frameIssued options main frame (globalIdCounter ps) = [])
      by (unfold frameIssued; now rewrite Hp).
    rewrite Hnil. cbn [length Z.of_nat]. rewrite Z.add_0_r, app_nil_r.
    destruct (scriptRuns frame) eqn:Hrun.
    + unfold processed in Hp. rewrite Hrun in Hp. cbn [andb] in Hp.
      now rewrite (frameBody_thrown _ _ _ _ Hrun Hp).
    + now rewrite (frameBody_not_run _ _ _ _ Hrun).
Qed.

Lemma frameBody_core ps ps' frame :
  globalIdCounter ps = globalIdCounter ps' ->
  allResults ps = allResults ps' ->
  fst (frameBody options main ps frame) = fst (frameBody options main ps' frame)
  /\ globalIdCounter (snd (frameBody options main ps frame))
     = globalIdCounter (snd (frameBody options main ps' frame))
  /\ allResults (snd (frameBody options main ps frame))
     = allResults (snd (frameBody options main ps' frame)).
Proof.
  intros Hc Hr. rewrite !frameBody_reading. cbn. now rewrite Hc, Hr.
Qed.

Lemma frameLoop_core allFrames ps ps' :
  globalIdCounter ps = globalIdCounter ps' ->
  allResults ps = allResults ps' ->
  fst (frameLoop options main allFrames ps) = fst (frameLoop options main allFrames ps')
  /\ globalIdCounter (snd (frameLoop options main allFrames ps))
     = globalIdCounter (snd (frameLoop options main allFrames ps'))
  /\ allResults (snd (frameLoop options main allFrames ps))
     = allResults (snd (frameLoop options main allFrames ps')).
Proof.
  revert ps ps'. induction allFrames as [|frame rest IH]; intros ps ps' Hc Hr.
  - cbn. auto.
  - cbn [frameLoop].
    destruct (frameBody_core ps ps' frame Hc Hr) as (Hf & Hc1 & Hr1).
    destruct (frameBody options main ps frame) as [f1 p1].
    destruct (frameBody options main ps' frame) as [f2 p2].
    cbn [fst snd] in Hf, Hc1, Hr1.
    destruct (IH p1 p2 Hc1 Hr1) as (Hf' & Hc2 & Hr2).
    destruct (frameLoop options main rest p1) as [r1 q1].
    destruct (frameLoop options main rest p2) as [r2 q2].
    cbn [fst snd] in *. subst. auto.
Qed.

Lemma frameLoop_app l1 l2 ps :
  frameLoop options main (l1 ++ l2) ps =
  (fst (frameLoop options main l1 ps)
     ++ fst (frameLoop options main l2 (snd (frameLoop options main l1 ps))),
   snd (frameLoop options main l2 (snd (frameLoop options main l1 ps)))).
Proof.
  revert ps. induction l1 as [|frame rest IH]; intros ps.
  - cbn. now destruct (frameLoop options main l2 ps).
  - cbn [app frameLoop].
    destruct (frameBody options main ps frame) as [f1 p1].
    rewrite IH. destruct (frameLoop options main rest p1) as [r1 q1].
    cbn [fst snd]. now destruct (frameLoop options main l2 q1).
Qed.

Lemma frameLoop_warnings allFrames ps :
  warnings (snd (frameLoop options main allFrames ps)) =
  warnings ps ++ flat_map (frameWarning options main) allFrames.
Proof.
  revert ps. induction allFrames as [|frame rest IH]; intros ps.
  - cbn. now rewrite app_nil_r.
  - cbn [frameLoop flat_map]. rewrite frameBody_reading.
    match goal with
    | |- context [frameLoop options main rest ?q] => specialize (IH q); set (ps1 := q) in *
    end.
    destruct (frameLoop options main rest ps1) as [r1 q1]. cbn [snd] in *.
    rewrite IH. subst ps1. cbn [warnings]. now rewrite app_assoc.
Qed.

(** A frame that yields no result leaves counter and results as they are. *)
Lemma frameLoop_skip before bad after ps :
  processed options main bad = false ->
  allResults (snd (frameLoop options main (before ++ bad :: after) ps))
  = allResults (snd (frameLoop options main (before ++ after) ps)).
Proof.
  intros Hp. rewrite !frameLoop_app. cbn [snd frameLoop].
  set (ps1 := snd (frameLoop options main before ps)).
  pose proof (frameBody_skipped options main ps1 bad Hp) as Hs.
  destruct (frameBody options main ps1 bad) as [bad' ps1'].
  cbn [snd] in Hs. subst ps1'.
  match goal with
  | |- context [frameLoop options main after ?q] =>
      destruct (frameLoop_core after q ps1 eq_refl eq_refl) as (_ & _ & H);
      destruct (frameLoop options main after q) as [r1 q1]
  end.
  exact H.
Qed.

Lemma frameLoop_none allFrames ps :
  Forall (fun frame => processed options main frame = false) allFrames ->
  allResults (snd (frameLoop options main allFrames ps)) = allResults ps.
Proof.
  intros Hall. revert ps. induction Hall as [|frame rest Hp _ IH]; intros ps.
  - reflexivity.
  - cbn [frameLoop].
    pose proof (frameBody_skipped options main ps frame Hp) as Hs.
    destruct (frameBody options main ps frame) as [frame' ps1].
    cbn [snd] in Hs. specialize (IH ps1).
    destruct (frameLoop options main rest ps1) as [r1 q1].
    cbn [snd] in *. rewrite IH. now subst ps1.
Qed.
End Skip.

Lemma settled_of_results page options :
  settled (captureOptimizedSnapshot page options) =
  let m := mergeResults
             (allResults (snd (frameLoop options (mainFrame page) (frames page)
                {| globalIdCounter := 1; allResults := []; warnings := [] |}))) in
  Fulfilled
    {| distilledHTML := join newline (mergedDistilledHTML m);
       elementMap := mergedElementMap m;
       totalElements := m_totalElements m;
       visibleElements := length (mergedElementMap m) |}.
Proof.
  unfold captureOptimizedSnapshot.
  now destruct (frameLoop options (mainFrame page) (frames page) _).
Qed.

Lemma consoleLog_of_frames page options :
  consoleLog (captureOptimizedSnapshot page options) =
  flat_map (frameWarning options (mainFrame page)) (frames page).
Proof.
  unfold captureOptimizedSnapshot.
  pose proof (frameLoop_warnings options (mainFrame page) (frames page)
                {| globalIdCounter := 1; allResults := []; warnings := [] |}) as H.
  destruct (frameLoop options (mainFrame page) (frames page) _) as [fs ps].
  exact H.
Qed.

Lemma frameLoop_marked options main allFrames ps :
  fst (frameLoop options main allFrames ps)
  = passMarked options main allFrames (globalIdCounter ps).
Proof.
  revert ps. induction allFrames as [|frame rest IH]; intros ps; [reflexivity|].
  cbn [frameLoop passMarked]. rewrite frameBody_reading.
  match goal with
  | |- context [frameLoop options main rest ?q] => specialize (IH q); set (ps1 := q) in *
  end.
  destruct (frameLoop options main rest ps1) as [rest' ps2].
  cbn [fst] in *. rewrite IH. subst ps1. reflexivity.
Qed.

Lemma pageAfter_marked page options :
  pageAfter (captureOptimizedSnapshot page options)
  = {| mainFrame := mainFrame page;
       frames := passMarked options (mainFrame page) (frames page) 1 |}.
Proof.
  unfold captureOptimizedSnapshot.
  pose proof (frameLoop_marked options (mainFrame page) (frames page)
                {| globalIdCounter := 1; allResults := []; warnings := [] |}) as H.
  destruct (frameLoop options (mainFrame page) (frames page) _) as [fs ps].
  cbn [fst globalIdCounter pageAfter] in *. now rewrite H.
Qed.

(** * Looking a marker up *)

Lemma codeUnits_inj a b : codeUnits a = codeUnits b -> a = b.
Proof.
  unfold codeUnits. intros H.
  rewrite <- (string_of_list_ascii_of_string a), <- (string_of_list_ascii_of_string b).
  f_equal. revert H.
  generalize (list_ascii_of_string a) as la, (list_ascii_of_string b) as lb.
  induction la as [|x la IH]; intros [|y lb] H; try discriminate; [reflexivity|].
  cbn [map] in H. injection H as Hxy Hrest. f_equal; [|now apply IH].
  rewrite <- (ascii_N_embedding x), <- (ascii_N_embedding y). now rewrite Hxy.
Qed.

Lemma String_of_number_inj a b :
  String_of_number a = String_of_number b -> a = b.
Proof.
  unfold String_of_number. intros H. apply codeUnits_inj in H.
  assert (Hn : forall z, Z.to_int z <> Decimal.Pos Decimal.Nil
                         /\ Z.to_int z <> Decimal.Neg Decimal.Nil).
  { intros [|p|p]; cbn; split; try discriminate;
      intros Heq; injection Heq; apply DecimalPos.Unsigned.to_uint_nonnil. }
  apply DecimalZ.to_int_inj.
  pose proof (NilZero.isi (Z.to_int a) (proj1 (Hn a)) (proj2 (Hn a))) as Ha.
  pose proof (NilZero.isi (Z.to_int b) (proj1 (Hn b)) (proj2 (Hn b))) as Hb.
  rewrite H in Ha. rewrite Ha in Hb. now injection Hb.
Qed.

Lemma matches_mark id id' el :
  matchesSelector (mcpSelector id) (mark id' el) = (id' =? id).
Proof.
  unfold matchesSelector, mcpSelector, mark. rewrite setAttribute_same.
  destruct (Z.eqb_spec id' id) as [-> | Hne].
  - apply sameString_refl.
  - apply sameString_neq. intros H. apply Hne. now apply String_of_number_inj.
Qed.

Lemma matches_unmarked id el :
  attributes el !! markerAttribute = None ->
  matchesSelector (mcpSelector id) el = false.
Proof. intros H. unfold matchesSelector, mcpSelector. now rewrite H. Qed.





Section Lookup.
Variable options : SnapshotOptions.
Variable main : nat.









End Lookup.

(** * Counting the carriers of a marker *)




Section Count.
Variable options : SnapshotOptions.
Variable main : nat.





End Count.







(** * The claims *)

(** C1: in every pass one counter is shared by all frames: it starts at 1
    and moves by one per retained element whatever the frame, the
    descriptor list being the frames' retained elements in frame order and
    document order within a frame; hence the identifiers of [elementMap]
    are 1, 2, ..., n in that order, pairwise distinct and strictly
    increasing. *)
Theorem identifiers_one_counter (page : Page) (options : SnapshotOptions) :
  exists r,
    settled (captureOptimizedSnapshot page options) = Fulfilled r
    /\ elementMap r = map snd (passIssued options (mainFrame page) (frames page) 1)
    /\ map mcpId (elementMap r) = map Z.of_nat (seq 1 (length (elementMap r)))
    /\ List.NoDup (map mcpId (elementMap r))
    /\ StronglySorted Z.lt (map mcpId (elementMap r)).
Proof.
  destruct (capture_fulfils options page) as (r & Hs & He & _).
  exists r. split; [exact Hs|]. split; [exact He|].
  assert (Hids : map mcpId (elementMap r) = consecutive 1 (length (elementMap r))).
  { rewrite He, map_map, length_map. apply passIssued_ids. }
  rewrite Hids. split; [apply consecutive_from_one|].
  split; [apply sorted_lt_NoDup|]; apply consecutive_sorted.
Qed.

(** C8: in every result the retained count is at most the discovered
    count and equals the number of descriptors, and every descriptor (so
    every identifier) belongs to an element of a processed options main frame that
    passes the filter; a default pass over a page with one
    [display: none] button, of whatever geometry, and one visible button
    reports 2 discovered and 1 retained, the visible one. *)
Theorem retained_at_most_discovered :
  (forall (page : Page) (options : SnapshotOptions),
     exists r,
       settled (captureOptimizedSnapshot page options) = Fulfilled r
       /\ (visibleElements r <= totalElements r)%nat
       /\ visibleElements r = length (elementMap r)
       /\ forall d, In d (elementMap r) ->
            exists frame start el,
              In frame (frames page)
              /\ processed options (mainFrame page) frame = true
              /\ In el (document frame)
              /\ retains (frameOpts options (mainFrame page) frame start)
                   (innerHeight frame) (win_scrollY frame) el = true
              /\ d = descriptorOf (frameOpts options (mainFrame page) frame start)
                       (mcpId d) el)
  /\ (forall hiddenRect : DOMRect.t,
        exists r,
          settled (captureOptimizedSnapshot
                     (Examples.hiddenAndVisible hiddenRect) noOptions) = Fulfilled r
          /\ totalElements r = 2%nat
          /\ visibleElements r = 1%nat
          /\ map text (elementMap r) = ["Visible"]
          /\ map mcpId (elementMap r) = [1]).
Proof.
  split.
  - intros page options.
    destruct (capture_fulfils options page) as (r & Hs & He & Hv & Ht).
    exists r. split; [exact Hs|]. split; [|split; [exact Hv|]].
    + rewrite Hv, Ht, He, length_map. apply passIssued_le_discovered.
    + intros d Hd. rewrite He in Hd. apply in_map_iff in Hd as ([el d'] & <- & Hin).
      apply passIssued_origin in Hin as (frame & s & Hf & Hin).
      apply frameIssued_origin in Hin as (Hp & Hdoc & Hret & Heq).
      exists frame, s, el. repeat split; assumption.
  - intros hiddenRect.
    destruct (capture_fulfils noOptions (Examples.hiddenAndVisible hiddenRect))
      as (r & Hs & He & Hv & Ht).
    exists r. split; [exact Hs|].
    set (hidden := Examples.aButton "Hidden" hiddenRect Examples.displayNone) in *.
    set (visible := Examples.aButton "Visible" (DOMRect.mk 10 10 80 20)
                      Examples.visibleStyle) in *.
    set (frame := Examples.frameOf Examples.mainNode [hidden; visible]).
    assert (H1 : retains (frameOpts noOptions 0 frame 1) 800 0 hidden = false).
    { unfold retains, rejected.
      destruct (sizeTooSmall _ _); [apply andb_false_r|].
      apply andb_false_r. }
    assert (Hret : retainedOf (frameOpts noOptions 0 frame 1) 800 0 [hidden; visible]
                   = [visible]).
    { unfold retainedOf. cbn [List.filter]. rewrite H1. reflexivity. }
    assert (Hp : processed noOptions 0 frame = true).
    { unfold processed, frameCompletes, completes, throwsOn.
      cbn [forallb document frame Examples.frameOf innerHeight win_scrollY].
      rewrite H1. reflexivity. }
    assert (Hi : map snd (passIssued noOptions 0 [frame] 1)
                 = [descriptorOf (frameOpts noOptions 0 frame 1) 1 visible]).
    { cbn [passIssued]. unfold frameIssued at 1. rewrite Hp.
      change (document frame) with [hidden; visible].
      change (innerHeight frame) with 800. change (win_scrollY frame) with 0.
      rewrite Hret. reflexivity. }
    assert (Hd : passDiscovered noOptions 0 [frame] = 2%nat).
    { unfold passDiscovered, frameDiscovered. cbn [map]. rewrite Hp. reflexivity. }
    change (frames (Examples.hiddenAndVisible hiddenRect)) with [frame] in He, Ht.
    change (mainFrame (Examples.hiddenAndVisible hiddenRect)) with 0%nat in He, Ht.
    rewrite Hv, Ht, He, Hi, Hd. repeat split.
Qed.
(** C7: a candidate narrower than the minimum width or lower than the
    minimum height is rejected whatever the other settings, the
    include-hidden flag included: the callback returns at once, leaving
    element and state as they were, so no identifier is spent on it; the
    script ends with it as it ends without it, and the descriptors, the
    fragments and the next identifier of the frame are those of the
    document without it; the element stands unchanged in the document
    after the walk. *)
Theorem undersized_never_identified
    (o : EvalOpts) (viewportHeight scrollY : Z) (el : Element) :
  DOMRect.width (getBoundingClientRect el) < o_minWidth o
  \/ DOMRect.height (getBoundingClientRect el) < o_minHeight o ->
  rejected o viewportHeight scrollY el = true
  /\ (forall st, forEachBody o viewportHeight scrollY st el = (el, Normal st))
  /\ (forall before after,
        let r := snd (script o viewportHeight scrollY (before ++ el :: after)) in
        let r' := snd (script o viewportHeight scrollY (before ++ after)) in
        mapCompletion fr_elementMap r = mapCompletion fr_elementMap r'
        /\ mapCompletion fr_distilledHTML r = mapCompletion fr_distilledHTML r'
        /\ mapCompletion nextId r = mapCompletion nextId r')
  /\ (forall before after,
        exists before' after',
          fst (script o viewportHeight scrollY (before ++ el :: after))
            = before' ++ el :: after'
          /\ length before' = length before).
Proof.
  intros Hsmall.
  assert (Hs : sizeTooSmall o el = true).
  { unfold sizeTooSmall. apply orb_true_iff.
    destruct Hsmall as [H | H]; [left | right]; now apply Z.ltb_lt. }
  pose proof (sizeTooSmall_rejected o viewportHeight scrollY el Hs) as Hrej.
  pose proof (retains_rejected o viewportHeight scrollY el Hrej) as Hret.
  pose proof (retains_not_thrown o viewportHeight scrollY el Hret) as Hthrow.
  split; [exact Hrej|]. split; [|split].
  - intros st. now apply forEachBody_rejected.
  - intros before after. cbn zeta. rewrite !script_spec. cbn [snd].
    assert (Heq : retainedOf o viewportHeight scrollY (before ++ el :: after)
                  = retainedOf o viewportHeight scrollY (before ++ after)).
    { rewrite !retainedOf_app. f_equal. unfold retainedOf. cbn [List.filter].
      now rewrite Hret. }
    assert (Hc : completes o viewportHeight scrollY (before ++ el :: after)
                 = completes o viewportHeight scrollY (before ++ after)).
    { rewrite !completes_app, completes_cons, Hthrow. reflexivity. }
    rewrite Hc. destruct (completes o viewportHeight scrollY (before ++ after));
      [|repeat split].
    unfold resultOf, mapCompletion. cbn [fr_elementMap fr_distilledHTML nextId].
    rewrite Heq. repeat split.
  - intros before after. rewrite script_spec. cbn [fst].
    destruct (completes o viewportHeight scrollY before) eqn:Hb.
    + rewrite (markFrom_app _ _ _ _ _ _ Hb). cbn [markFrom]. rewrite Hret.
      eexists _, _. split; [reflexivity|]. apply markFrom_length.
    + rewrite (markFrom_app_thrown _ _ _ _ _ _ Hb).
      eexists _, _. split; [reflexivity|]. apply markFrom_length.
Qed.

(** Witness of C7 at a 0 x 20 button under the default options with the
    include-hidden flag set. *)
Lemma undersized_never_identified_witness :
  let o := evalOpts {| viewportBuffer := None; maxTextLength := None;
                       includeHidden := Some true; minElementSize := None |} 1 0 0 in
  let el := Examples.aButton "Thin" (DOMRect.mk 0 0 0 20) Examples.visibleStyle in
  rejected o 800 0 el = true
  /\ forall st, forEachBody o 800 0 st el = (el, Normal st).
Proof.
  intros o el.
  destruct (undersized_never_identified o 800 0 el) as (H1 & H2 & _).
  - left. vm_compute. reflexivity.
  - split; [exact H1 | exact H2].
Defined.

(** C10: after the in-page script of a frame, position by position, an
    element that is not retained (a candidate rejected by the size, the
    style or the viewport step, or no candidate at all) is exactly the
    element it was, whether the script ends or throws; when the script
    ends, a retained element is that element with [data-mcp-id] set to
    the identifier of its descriptor, every other attribute and property
    being as before, and descriptors and fragments are those of the
    retained elements only, one each, in order; when it throws, which it
    does exactly when it retains an element whose label source is a
    number, a retained element is as it was or differs by its marker
    only; the variant without frames runs the same script with no
    offset. *)
Theorem rejected_left_untouched
    (o : EvalOpts) (viewportHeight scrollY : Z) (document : list Element) :
  let out := script o viewportHeight scrollY document in
  Forall2
    (fun el el' =>
       if retains o viewportHeight scrollY el
       then match snd out with
            | Normal r =>
                exists d, In d (fr_elementMap r)
                          /\ el' = setAttribute el markerAttribute
                                     (String_of_number (mcpId d))
            | TypeError =>
                el' = el
                \/ exists id, el' = setAttribute el markerAttribute
                                      (String_of_number id)
            end
       else el' = el)
    document (fst out)
  /\ (forall el, matchesInteractive el = true ->
        rejected o viewportHeight scrollY el = true ->
        retains o viewportHeight scrollY el = false
        /\ forall st, forEachBody o viewportHeight scrollY st el = (el, Normal st))
  /\ (snd out = TypeError <->
      exists el, In el document
                 /\ retains o viewportHeight scrollY el = true
                 /\ numericLabel el = true)
  /\ (forall r, snd out = Normal r ->
        fr_elementMap r =
          map (fun p => descriptorOf o (fst p) (snd p))
              (number (startId o) (retainedOf o viewportHeight scrollY document))
        /\ fr_distilledHTML r =
            map (fun p => fragmentOf o (fst p) (snd p))
                (number (startId o) (retainedOf o viewportHeight scrollY document)))
  /\ (forall el v,
        let el' := setAttribute el markerAttribute v in
        tagName el' = tagName el /\ innerText el' = innerText el
        /\ value el' = value el
        /\ getBoundingClientRect el' = getBoundingClientRect el
        /\ getComputedStyle el' = getComputedStyle el
        /\ attributes el' !! markerAttribute = Some v
        /\ forall name, name <> markerAttribute ->
             attributes el' !! name = attributes el !! name)
  /\ (forall options scriptError,
        let single :=
          captureOptimizedSnapshotOfDocument options scriptError
            viewportHeight scrollY document in
        let plain := script (evalOpts options 1 0 0) viewportHeight scrollY document in
        fst single = fst plain
        /\ match snd plain with
           | Normal r =>
               exists result, snd single = Fulfilled result
                              /\ elementMap result = fr_elementMap r
           | TypeError => snd single = Rejected scriptError
           end).
Proof.
  cbn zeta. rewrite script_spec. cbn [fst snd].
  split; [|split; [|split; [|split; [|split]]]].
  - destruct (completes o viewportHeight scrollY document) eqn:Hc.
    + eapply Forall2_impl; [apply (markFrom_walked _ _ _ _ _ Hc)|].
      intros el el'. unfold walked.
      destruct (retains o viewportHeight scrollY el); [|tauto].
      intros (id & Hin & ->).
      exists (descriptorOf o id el). split; [|reflexivity].
      unfold resultOf. cbn [fr_elementMap].
      apply in_map_iff. exists (id, el). split; [reflexivity | exact Hin].
    + eapply Forall2_impl; [apply markFrom_touched|].
      intros el el'. cbv beta.
      destruct (retains o viewportHeight scrollY el); [|tauto].
      intros [H | (id & _ & H)]; [now left | right; now exists id].
  - intros el _ Hrej. split; [now apply retains_rejected|].
    intros st. now apply forEachBody_rejected.
  - destruct (completes o viewportHeight scrollY document) eqn:Hc.
    + split; [discriminate|]. intros (el & Hin & Hret & Hnum). exfalso.
      unfold completes in Hc. rewrite forallb_forall in Hc.
      specialize (Hc el Hin). unfold throwsOn in Hc. rewrite Hret, Hnum in Hc.
      discriminate.
    + split; [intros _ | reflexivity].
      unfold completes in Hc. apply not_true_iff_false in Hc.
      rewrite forallb_forall in Hc.
      assert (Hex : existsb (throwsOn o viewportHeight scrollY) document = true).
      { destruct (existsb (throwsOn o viewportHeight scrollY) document) eqn:He;
          [reflexivity|].
        exfalso. apply Hc. intros el Hin.
        destruct (throwsOn o viewportHeight scrollY el) eqn:Ht; [|reflexivity].
        assert (Hin' : existsb (throwsOn o viewportHeight scrollY) document = true)
          by (apply existsb_exists; now exists el).
        congruence. }
      apply existsb_exists in Hex as (el & Hin & Ht).
      apply throwsOn_retains in Ht as [Hret Hnum]. now exists el.
  - intros r Hr. destruct (completes o viewportHeight scrollY document);
      [|discriminate].
    injection Hr as <-. split; reflexivity.
  - intros el v. cbn zeta. repeat split.
    + apply setAttribute_same.
    + intros name Hne. now apply setAttribute_other.
  - intros options scriptError. unfold captureOptimizedSnapshotOfDocument.
    destruct (script (evalOpts options 1 0 0) viewportHeight scrollY document)
      as [doc' [r|]]; cbn [fst snd]; split; try reflexivity.
    eexists. split; reflexivity.
Qed.

(** C6: with the override flag unset, for an element that passes the
    size and style steps, the viewport step keeps it exactly when its
    range meets [scrollY - buffer, scrollY + innerHeight + buffer], both
    ends included: a bottom edge exactly on the lower boundary or a top
    edge exactly on the upper boundary is kept, one pixel further out is
    rejected (the buffered viewport not being empty); the edges are the
    frame-local top and bottom plus the scroll offset plus the frame's
    cumulative vertical offset. *)
Theorem viewport_test_inclusive
    (o : EvalOpts) (viewportHeight scrollY : Z) (el : Element) :
  o_includeHidden o = false ->
  sizeTooSmall o el = false ->
  cssHidden el = false ->
  let top := DOMRect.top (getBoundingClientRect el) + scrollY + frameOffsetY o in
  let bottom := DOMRect.bottom (getBoundingClientRect el) + scrollY + frameOffsetY o in
  let lower := scrollY - o_viewportBuffer o in
  let upper := scrollY + viewportHeight + o_viewportBuffer o in
  (rejected o viewportHeight scrollY el = false <-> lower <= bottom /\ top <= upper)
  /\ (bottom = lower -> lower <= upper ->
      rejected o viewportHeight scrollY el = false)
  /\ (bottom = lower - 1 -> rejected o viewportHeight scrollY el = true)
  /\ (top = upper -> lower <= upper ->
      rejected o viewportHeight scrollY el = false)
  /\ (top = upper + 1 -> rejected o viewportHeight scrollY el = true).
Proof.
  intros Hflag Hsize Hcss. cbn zeta.
  unfold rejected. rewrite Hsize, Hflag, Hcss. cbn [negb].
  unfold outsideViewport, absoluteBottom, absoluteTop, viewportTop, viewportBottom.
  destruct (Z.ltb_spec (DOMRect.bottom (getBoundingClientRect el) + scrollY + frameOffsetY o)
              (scrollY - o_viewportBuffer o));
    destruct (Z.gtb_spec (DOMRect.top (getBoundingClientRect el) + scrollY + frameOffsetY o)
                (scrollY + viewportHeight + o_viewportBuffer o));
    cbn [orb]; unfold DOMRect.top, DOMRect.bottom in *;
    repeat split; intros; try lia; try reflexivity; try discriminate.
Qed.

(** Witness of C6: a button whose bottom edge lies exactly on the lower
    boundary, in a window scrolled to 2000 with the default buffer. *)
Lemma viewport_test_inclusive_witness :
  let o := evalOpts noOptions 1 0 0 in
  let el := Examples.aButton "Edge" (DOMRect.mk 0 (-1020) 80 20) Examples.visibleStyle in
  rejected o 800 2000 el = false.
Proof.
  intros o el.
  pose proof (viewport_test_inclusive o 800 2000 el eq_refl eq_refl eq_refl)
    as (_ & H & _).
  apply H; vm_compute; [reflexivity | discriminate].
Defined.
(** C5 (the code departs from the claim): the offset a frame adds to
    element-local coordinates is the sum, over the boundary elements
    crossed on the way up to the main frame, of the box the host reports
    for each, a boundary element that cannot be inspected adding nothing.
    The host reports these boxes relative to the main frame, not to the
    parent frame: for a frame embedded in a parent the loop adds the
    frame's own origin in the main frame to the offset it computes for
    the parent, so it is right for a frame embedded in the main frame
    and counts the outer boundary elements again for a deeper one.  With
    B at (50, 100) in A and A at (10, 20) in the main frame, the host
    reports B's boundary element at (60, 120), the loop yields
    (70, 140), and an element at (5, 5) in B is reported at (75, 145),
    not (65, 125). *)
Theorem nested_offset_counts_outer_links_again :
  (forall (main : nat) (frame : FrameNode),
     offsetLoop main frame (0, 0) =
     (sumZ (map (fun p => fst (boundaryOffset p)) (ancestorLinks main frame)),
      sumZ (map (fun p => snd (boundaryOffset p)) (ancestorLinks main frame))))
  /\ (forall probe acc, inaccessible probe ->
        addBoundary probe acc = acc /\ boundaryOffset probe = (0, 0))
  /\ (forall (o : EvalOpts) (id : Z) (el : Element),
        Bounds.x (bounds (descriptorOf o id el))
          = DOMRect.x (getBoundingClientRect el) + frameOffsetX o
        /\ Bounds.y (bounds (descriptorOf o id el))
          = DOMRect.y (getBoundingClientRect el) + frameOffsetY o)
  /\ (forall (main id : nat) (pos : Z * Z) (parent : FrameNode),
        id <> main ->
        frameOrigin (embedAt id pos parent)
          = (fst (frameOrigin parent) + fst pos, snd (frameOrigin parent) + snd pos)
        /\ offsetLoop main (embedAt id pos parent) (0, 0)
           = (fst (frameOrigin (embedAt id pos parent))
                + fst (offsetLoop main parent (0, 0)),
              snd (frameOrigin (embedAt id pos parent))
                + snd (offsetLoop main parent (0, 0))))
  /\ (forall (main id : nat) (pos : Z * Z) (parent : FrameNode),
        id <> main -> frameId parent = main ->
        offsetLoop main (embedAt id pos parent) (0, 0)
        = frameOrigin (embedAt id pos parent))
  /\ (frameOrigin Examples.nodeA = (10, 20)
      /\ frameOrigin Examples.nodeB = (60, 120)
      /\ offsetLoop 0 Examples.nodeA (0, 0) = (10, 20)
      /\ offsetLoop 0 Examples.nodeB (0, 0) = (70, 140))
  /\ (exists r,
        settled (captureOptimizedSnapshot Examples.nestedPage noOptions) = Fulfilled r
        /\ map bounds (elementMap r) = [Bounds.mk 75 145 10 10])
  /\ offsetLoop 0 Examples.nodeB_in_opaque (0, 0) = (60, 120).
Proof.
  split; [|split; [|split; [|split; [|split; [|split; [|split]]]]]].
  - intros main frame. now rewrite offsetLoop_sum.
  - intros probe acc Hin. unfold inaccessible in Hin.
    destruct probe as [| |[| |bx by_]]; try (split; reflexivity).
    now destruct (Hin bx by_).
  - intros o id el. split; reflexivity.
  - intros main id pos parent Hne. split; [reflexivity|].
    now apply offsetLoop_embedAt.
  - intros main id pos parent Hne Hparent.
    rewrite (offsetLoop_embedAt main id pos parent Hne).
    destruct parent as [pid probe up]. cbn [frameId] in Hparent. subst pid.
    cbn [offsetLoop]. rewrite Nat.eqb_refl. cbn [fst snd].
    destruct (frameOrigin _) as [ox oy]. cbn [fst snd]. f_equal; lia.
  - repeat split.
  - eexists. split; [reflexivity|]. vm_compute. reflexivity.
  - reflexivity.
Qed.

(** C4, counterexample: on a page whose only frame rejects [evaluate],
    so that no frame is processed, the pass still fulfils, with the empty
    result and one warning; it does not fail. *)
Lemma no_frame_processed_still_fulfils :
  Forall (fun frame => processed noOptions 0 frame = false)
    (frames Examples.allFailPage)
  /\ settled (captureOptimizedSnapshot Examples.allFailPage noOptions)
     = Fulfilled Examples.emptyResult
  /\ consoleLog (captureOptimizedSnapshot Examples.allFailPage noOptions)
     = ["Error processing frame: Error: Execution context was destroyed"].
Proof.
  split; [|split].
  - repeat constructor.
  - vm_compute. reflexivity.
  - vm_compute. reflexivity.
Qed.

(** C4, amended: a frame that is detached or whose [evaluate] rejects,
    before the script runs or because the script throws, adds nothing to
    the result and takes nothing from it: the pass settles as it does on
    the page without that frame, a rejected [evaluate] leaving one
    warning on the console; the pass never rejects, and when no frame at
    all is processed it fulfils with the empty result. *)
Theorem failing_frame_only_skipped
    (options : SnapshotOptions) (main : nat)
    (before : list Frame) (bad : Frame) (after : list Frame) :
  processed options main bad = false ->
  let page := {| mainFrame := main; frames := before ++ bad :: after |} in
  let without := {| mainFrame := main; frames := before ++ after |} in
  settled (captureOptimizedSnapshot page options)
    = settled (captureOptimizedSnapshot without options)
  /\ (exists r, settled (captureOptimizedSnapshot page options) = Fulfilled r)
  /\ consoleLog (captureOptimizedSnapshot page options)
     = flat_map (frameWarning options main) before ++ frameWarning options main bad
       ++ flat_map (frameWarning options main) after
  /\ (forall error, isDetached bad = false -> evaluateError bad = Some error ->
        In ("Error processing frame: " ++ error)
           (consoleLog (captureOptimizedSnapshot page options)))
  /\ (scriptRuns bad = true ->
      In ("Error processing frame: " ++ scriptError bad)
         (consoleLog (captureOptimizedSnapshot page options)))
  /\ (Forall (fun frame => processed options main frame = false) (before ++ after) ->
        settled (captureOptimizedSnapshot page options)
          = Fulfilled Examples.emptyResult).
Proof.
  intros Hp. cbn zeta.
  assert (Hsame : settled (captureOptimizedSnapshot
                    {| mainFrame := main; frames := before ++ bad :: after |} options)
                  = settled (captureOptimizedSnapshot
                    {| mainFrame := main; frames := before ++ after |} options)).
  { rewrite !settled_of_results. cbn [mainFrame frames].
    now rewrite (frameLoop_skip options main before bad after _ Hp). }
  assert (Hlog : consoleLog (captureOptimizedSnapshot
                   {| mainFrame := main; frames := before ++ bad :: after |} options)
                 = flat_map (frameWarning options main) before ++ frameWarning options main bad
                   ++ flat_map (frameWarning options main) after).
  { rewrite consoleLog_of_frames. cbn [frames]. now rewrite flat_map_app. }
  split; [exact Hsame|]. split; [|split; [exact Hlog|split; [|split]]].
  - rewrite settled_of_results. eexists. reflexivity.
  - intros error Hd He. rewrite Hlog. apply in_or_app. right.
    apply in_or_app. left. unfold frameWarning. rewrite Hd, He. now left.
  - intros Hrun. rewrite Hlog. apply in_or_app. right.
    apply in_or_app. left. unfold processed in Hp. rewrite Hrun in Hp.
    cbn [andb] in Hp. unfold frameWarning, scriptRuns in *.
    destruct (isDetached bad); [discriminate|].
    destruct (evaluateError bad); [discriminate|]. rewrite Hp. now left.
  - intros Hnone. rewrite Hsame, settled_of_results. cbn [mainFrame frames].
    now rewrite (frameLoop_none options main _ _ Hnone).
Qed.

(** Witness of C4 (amended) on the page whose only frame fails. *)
Lemma failing_frame_only_skipped_witness :
  settled (captureOptimizedSnapshot Examples.allFailPage noOptions)
    = Fulfilled Examples.emptyResult
  /\ In "Error processing frame: Error: Execution context was destroyed"
        (consoleLog (captureOptimizedSnapshot Examples.allFailPage noOptions)).
Proof.
  destruct (failing_frame_only_skipped noOptions 0 [] Examples.failingFrame []
              eq_refl) as (_ & _ & _ & Hwarn & Hnone).
  split.
  - apply Hnone. constructor.
  - apply (Hwarn "Error: Execution context was destroyed"); reflexivity.
Defined.

(** C3, counterexample: a click that supplies both an identifier and a
    fallback reference is not rejected; it is addressed by the identifier
    and goes on to click on the page. *)
Lemma click_with_both_goes_through :
  click_handle Examples.obligingRefLocator Examples.obligingGenerate
    Examples.obligingPerform
    {| c_target := {| element := "Submit"; ref := Some "e12"; p_mcpId := Some 1 |};
       doubleClick := None; button := None |}
  = ([SetIncludeSnapshot; GetElementByMcpId 1;
      AddCode ("await page.locator('[data-mcp-id=" ++ dquote ++ "1" ++ dquote
               ++ "]').click();");
      WaitForCompletion (Click (getElementByMcpId 1) None)],
     Fulfilled tt).
Proof. vm_compute. reflexivity. Qed.

Section ToolClaims.
Variable refLocator : JsString -> JsString -> Settled Locator.
Variable refLocators : JsString -> JsString -> JsString -> JsString -> Settled (Locator * Locator).
Variable generateLocator : Locator -> Settled JsString.
Variable formatObject : list JsString -> JsString.
Variable perform : Action -> Settled unit.

(** C3, amended: click, hover and select reject a call that supplies
    neither an identifier nor a non-empty reference, with the error
    'Either ref or mcpId must be provided', having called nothing but
    [setIncludeSnapshot], so before any interaction with the page; a call
    that supplies an identifier is addressed by it whatever reference
    comes with it. Drag rejects, in the same way and with 'Either both
    refs or both mcpIds must be provided', a call that has neither both
    identifiers nor both references, and with both identifiers it ignores
    the references. *)
Theorem addressing_neither_rejected :
  (forall params,
     p_mcpId (c_target params) = None -> given (ref (c_target params)) = None ->
     click_handle refLocator generateLocator perform params
     = ([SetIncludeSnapshot], Rejected "Either ref or mcpId must be provided"))
  /\ (forall params,
        p_mcpId params = None -> given (ref params) = None ->
        hover_handle refLocator generateLocator perform params
        = ([SetIncludeSnapshot], Rejected "Either ref or mcpId must be provided"))
  /\ (forall params,
        p_mcpId (s_target params) = None -> given (ref (s_target params)) = None ->
        selectOption_handle refLocator generateLocator formatObject perform params
        = ([SetIncludeSnapshot], Rejected "Either ref or mcpId must be provided"))
  /\ (forall params,
        startMcpId params = None \/ endMcpId params = None ->
        given (startRef params) = None \/ given (endRef params) = None ->
        drag_handle refLocators generateLocator perform params
        = ([SetIncludeSnapshot],
           Rejected "Either both refs or both mcpIds must be provided"))
  /\ (forall el r id dbl b,
        exists code,
          click_handle refLocator generateLocator perform
            {| c_target := {| element := el; ref := r; p_mcpId := Some id |};
               doubleClick := dbl; button := b |}
          = (let a := if isTrue dbl then DblClick (getElementByMcpId id) b
                      else Click (getElementByMcpId id) b in
             ([SetIncludeSnapshot; GetElementByMcpId id; AddCode code;
               WaitForCompletion a], perform a)))
  /\ (forall el r id,
        exists code,
          hover_handle refLocator generateLocator perform
            {| element := el; ref := r; p_mcpId := Some id |}
          = ([SetIncludeSnapshot; GetElementByMcpId id; AddCode code;
              WaitForCompletion (Hover (getElementByMcpId id))],
             perform (Hover (getElementByMcpId id))))
  /\ (forall el r id vs,
        exists code,
          selectOption_handle refLocator generateLocator formatObject perform
            {| s_target := {| element := el; ref := r; p_mcpId := Some id |};
               values := vs |}
          = ([SetIncludeSnapshot; GetElementByMcpId id; AddCode code;
              WaitForCompletion (SelectOption (getElementByMcpId id) vs)],
             perform (SelectOption (getElementByMcpId id) vs)))
  /\ (forall se sr s ee er e,
        exists code,
          drag_handle refLocators generateLocator perform
            {| startElement := se; startRef := sr; startMcpId := Some s;
               endElement := ee; endRef := er; endMcpId := Some e |}
          = (let a := DragTo (getElementByMcpId s) (getElementByMcpId e) in
             ([SetIncludeSnapshot; GetElementByMcpId s; GetElementByMcpId e;
               AddCode code; WaitForCompletion a], perform a))).
Proof.
  repeat split.
  - intros params Hid Href. unfold click_handle. now rewrite Hid, Href.
  - intros params Hid Href. unfold hover_handle. now rewrite Hid, Href.
  - intros params Hid Href. unfold selectOption_handle. now rewrite Hid, Href.
  - intros params Hid Href. unfold drag_handle.
    destruct Hid as [-> | ->], Href as [-> | ->];
      destruct (startMcpId params), (endMcpId params),
               (given (startRef params)), (given (endRef params)); reflexivity.
  - intros el r id dbl b. eexists. unfold click_handle.
    cbn [c_target p_mcpId doubleClick button].
    cbn. destruct (perform _); reflexivity.
  - intros el r id. eexists. unfold hover_handle. cbn.
    destruct (perform _); reflexivity.
  - intros el r id vs. eexists. unfold selectOption_handle. cbn.
    destruct (perform _); reflexivity.
  - intros se sr s ee er e. eexists. unfold drag_handle. cbn.
    destruct (perform _); reflexivity.
Qed.
End ToolClaims.




(** * The whole pass as its reading *)

Section PassReadingFacts.
Variable options : SnapshotOptions.
Variable main : nat.

Lemma frameNumbered_results frame start :
  flat_map fr_elementMap (frameResults options main frame start)
    = map numberedDescriptor (frameNumbered options main frame start)
  /\ flat_map fr_distilledHTML (frameResults options main frame start)
    = map numberedFragment (frameNumbered options main frame start).
Proof.
  unfold frameNumbered, frameResults. destruct (processed options main frame).
  - cbn [flat_map]. rewrite !app_nil_r. unfold resultOf.
    cbn [fr_elementMap fr_distilledHTML]. rewrite !map_map.
    split; reflexivity.
  - split; reflexivity.
Qed.

Lemma frameLoop_numbered allFrames ps :
  let ps' := snd (frameLoop options main allFrames ps) in
  flat_map fr_elementMap (allResults ps')
  = flat_map fr_elementMap (allResults ps)
    ++ map numberedDescriptor (passNumbered options main allFrames (globalIdCounter ps))
  /\ flat_map fr_distilledHTML (allResults ps')
     = flat_map fr_distilledHTML (allResults ps)
       ++ map numberedFragment (passNumbered options main allFrames (globalIdCounter ps)).
Proof.
  revert ps. induction allFrames as [|frame rest IH]; intros ps; cbn zeta.
  - cbn. now rewrite !app_nil_r.
  - cbn [frameLoop passNumbered]. rewrite frameBody_reading.
    match goal with
    | |- context [frameLoop options main rest ?q] => specialize (IH q); set (ps1 := q) in *
    end.
    destruct (frameLoop options main rest ps1) as [rest' ps2].
    cbn zeta in IH. cbn [snd] in *. destruct IH as [IHm IHh].
    rewrite IHm, IHh. subst ps1. cbn [allResults globalIdCounter].
    destruct (frameNumbered_results frame (globalIdCounter ps)) as [Hm Hh].
    rewrite !flat_map_app, !map_app, <- !app_assoc, Hm, Hh.
    split; reflexivity.
Qed.
End PassReadingFacts.

(** A pass is its reading: the marked frames, the warnings of the frames
    that yield no result, and the result of the numbered elements. *)
Lemma capture_reading page options :
  captureOptimizedSnapshot page options =
  {| pageAfter :=
       {| mainFrame := mainFrame page;
          frames := passMarked options (mainFrame page) (frames page) 1 |};
     consoleLog := flat_map (frameWarning options (mainFrame page)) (frames page);
     settled :=
       Fulfilled
         (resultOfNumbered
            (passNumbered options (mainFrame page) (frames page) 1)
            (passDiscovered options (mainFrame page) (frames page))) |}.
Proof.
  pose proof (consoleLog_of_frames page options) as Hlog.
  pose proof (settled_of_results page options) as Hset.
  pose proof (pageAfter_marked page options) as Hpage.
  set (ps0 := {| globalIdCounter := 1; allResults := []; warnings := [] |}) in *.
  pose proof (frameLoop_numbered options (mainFrame page) (frames page) ps0) as Hn.
  pose proof (frameLoop_gathered options (mainFrame page) (frames page) ps0) as Hg.
  cbn zeta in Hn, Hg, Hset. destruct Hn as [Hd Hh]. destruct Hg as (_ & _ & Ht).
  destruct (mergeResults_spec
              (allResults (snd (frameLoop options (mainFrame page) (frames page) ps0))))
    as (M1 & M2 & M3).
  rewrite M1, M2, M3 in Hset. unfold gathered in Hset.
  rewrite Hd, Hh, Ht in Hset. subst ps0. cbn in Hset.
  rewrite length_map in Hset.
  destruct (captureOptimizedSnapshot page options) as [pa log st].
  cbn [pageAfter consoleLog settled] in *.
  unfold resultOfNumbered. now rewrite Hlog, Hset, Hpage.
Qed.

(** * What the filter depends on *)

Lemma filter_same {A} (P Q : A -> bool) (l : list A) :
  (forall a, P a = Q a) -> List.filter P l = List.filter Q l.
Proof.
  intros H. induction l as [|a rest IH]; [reflexivity|].
  cbn [List.filter]. now rewrite H, IH.
Qed.

Lemma filter_length_le {A} (P Q : A -> bool) (l : list A) :
  (forall a, In a l -> P a = true -> Q a = true) ->
  (length (List.filter P l) <= length (List.filter Q l))%nat.
Proof.
  induction l as [|a rest IH]; intros H; [cbn; lia|].
  cbn [List.filter].
  assert (IH' : (length (List.filter P rest) <= length (List.filter Q rest))%nat)
    by (apply IH; intros b Hb; apply H; now right).
  destruct (P a) eqn:HP.
  - rewrite (H a (or_introl eq_refl) HP). cbn [length]. lia.
  - destruct (Q a); cbn [length]; lia.
Qed.

Lemma filter_all {A} (P Q : A -> bool) (l : list A) :
  (forall a, In a l -> Q a = true -> P a = true) ->
  (forall a, P a = true -> Q a = true) ->
  List.filter P l = List.filter Q l.
Proof.
  intros H1 H2. induction l as [|a rest IH]; [reflexivity|].
  cbn [List.filter]. rewrite IH by (intros b Hb; apply H1; now right).
  destruct (Q a) eqn:HQ.
  - now rewrite (H1 a (or_introl eq_refl) HQ).
  - destruct (P a) eqn:HP; [|reflexivity].
    apply H2 in HP. congruence.
Qed.

(** The filter does not read the start identifier. *)
Lemma rejected_start options s s' x y viewportHeight scrollY el :
  rejected (evalOpts options s x y) viewportHeight scrollY el
  = rejected (evalOpts options s' x y) viewportHeight scrollY el.
Proof. reflexivity. Qed.

(** The scroll position cancels out of the viewport step. *)
Lemma rejected_scroll o viewportHeight scrollY scrollY' el :
  rejected o viewportHeight scrollY el = rejected o viewportHeight scrollY' el.
Proof.
  unfold rejected. destruct (sizeTooSmall o el); [reflexivity|].
  destruct (negb (o_includeHidden o)); [|reflexivity].
  destruct (cssHidden el); [reflexivity|].
  unfold outsideViewport, absoluteBottom, absoluteTop, viewportTop, viewportBottom.
  f_equal.
  - destruct (Z.ltb_spec
                (DOMRect.bottom (getBoundingClientRect el) + scrollY + frameOffsetY o)
                (scrollY - o_viewportBuffer o));
      destruct (Z.ltb_spec
                  (DOMRect.bottom (getBoundingClientRect el) + scrollY' + frameOffsetY o)
                  (scrollY' - o_viewportBuffer o)); reflexivity || lia.
  - destruct (Z.gtb_spec
                (DOMRect.top (getBoundingClientRect el) + scrollY + frameOffsetY o)
                (scrollY + viewportHeight + o_viewportBuffer o));
      destruct (Z.gtb_spec
                  (DOMRect.top (getBoundingClientRect el) + scrollY' + frameOffsetY o)
                  (scrollY' + viewportHeight + o_viewportBuffer o)); reflexivity || lia.
Qed.

Lemma forEachBody_scroll o viewportHeight scrollY scrollY' st el :
  forEachBody o viewportHeight scrollY st el
  = forEachBody o viewportHeight scrollY' st el.
Proof.
  unfold forEachBody.
  now rewrite (rejected_scroll o viewportHeight scrollY scrollY' el).
Qed.

Lemma forEach_scroll o viewportHeight scrollY scrollY' document st :
  forEach o viewportHeight scrollY document st
  = forEach o viewportHeight scrollY' document st.
Proof.
  revert st. induction document as [|el rest IH]; intros st; [reflexivity|].
  cbn [forEach]. rewrite (forEachBody_scroll o viewportHeight scrollY scrollY').
  destruct (matchesInteractive el); [|now rewrite IH].
  destruct (forEachBody o viewportHeight scrollY' st el) as [el' [st1|]];
    [now rewrite IH | reflexivity].
Qed.

Lemma evalOpts_fillDefaults options s x y :
  evalOpts (fillDefaults options) s x y = evalOpts options s x y.
Proof. destruct options as [vb mt ih [[w h]|]]; reflexivity. Qed.

Lemma frameBody_fillDefaults options main ps frame :
  frameBody (fillDefaults options) main ps frame = frameBody options main ps frame.
Proof.
  unfold frameBody. destruct (isDetached frame); [reflexivity|].
  destruct (offsetLoop main (node frame) (0, 0)) as [offX offY].
  destruct (evaluateError frame); [reflexivity|].
  now rewrite evalOpts_fillDefaults.
Qed.

Lemma frameLoop_fillDefaults options main allFrames ps :
  frameLoop (fillDefaults options) main allFrames ps
  = frameLoop options main allFrames ps.
Proof.
  revert ps. induction allFrames as [|frame rest IH]; intros ps; [reflexivity|].
  cbn [frameLoop]. rewrite frameBody_fillDefaults.
  destruct (frameBody options main ps frame) as [f1 p1]. now rewrite IH.
Qed.

(** * Looser settings *)

Lemma rejected_loosens options options' s s' x y viewportHeight scrollY el :
  loosens options options' ->
  rejected (evalOpts options' s' x y) viewportHeight scrollY el = true ->
  rejected (evalOpts options s x y) viewportHeight scrollY el = true.
Proof.
  intros (Hb & Hw & Hh & Hi).
  unfold rejected, sizeTooSmall, outsideViewport, absoluteBottom, absoluteTop,
    viewportTop, viewportBottom.
  cbn [evalOpts o_minWidth o_minHeight o_includeHidden o_viewportBuffer frameOffsetY].
  destruct (Z.ltb_spec (DOMRect.width (getBoundingClientRect el))
              (nullish (fst <$> minElementSize options') 1));
    destruct (Z.ltb_spec (DOMRect.height (getBoundingClientRect el))
                (nullish (snd <$> minElementSize options') 1));
    destruct (Z.ltb_spec (DOMRect.width (getBoundingClientRect el))
                (nullish (fst <$> minElementSize options) 1));
    destruct (Z.ltb_spec (DOMRect.height (getBoundingClientRect el))
                (nullish (snd <$> minElementSize options) 1));
    cbn [orb]; try reflexivity; try lia.
  destruct (nullish (includeHidden options') false) eqn:Hi';
    cbn [negb]; [discriminate|].
  destruct (nullish (includeHidden options) false); [now specialize (Hi eq_refl)|].
  cbn [negb]. destruct (cssHidden el); [reflexivity|].
  intros Hout. apply orb_true_iff in Hout. apply orb_true_iff.
  destruct Hout as [Hout | Hout]; [left | right].
  - apply Z.ltb_lt in Hout. apply Z.ltb_lt. lia.
  - apply Z.gtb_lt in Hout. apply Z.gtb_lt. lia.
Qed.

Section Loosen.
Variables options options' : SnapshotOptions.
Variable main : nat.
Hypothesis Hloose : loosens options options'.

Lemma retains_loosens frame s s' el :
  retains (frameOpts options main frame s)
    (innerHeight frame) (win_scrollY frame) el = true ->
  retains (frameOpts options' main frame s')
    (innerHeight frame) (win_scrollY frame) el = true.
Proof.
  unfold retains, frameOpts. intros H. apply andb_true_iff in H as [Hm Hr].
  rewrite Hm. cbn [andb]. apply negb_true_iff in Hr. apply negb_true_iff.
  destruct (rejected (evalOpts options' s' _ _) _ _ el) eqn:Hr'; [|reflexivity].
  rewrite (rejected_loosens options options' s s' _ _ _ _ el Hloose Hr') in Hr.
  discriminate.
Qed.

Lemma completes_loosens frame s s' :
  completes (frameOpts options' main frame s')
    (innerHeight frame) (win_scrollY frame) (document frame) = true ->
  completes (frameOpts options main frame s)
    (innerHeight frame) (win_scrollY frame) (document frame) = true.
Proof.
  unfold completes. rewrite !forallb_forall. intros H el Hin.
  specialize (H el Hin). unfold throwsOn in *.
  destruct (retains (frameOpts options main frame s) _ _ el) eqn:Hr; [|reflexivity].
  now rewrite (retains_loosens frame s s' el Hr) in H.
Qed.

(** The looser pass processes no frame that the stricter one does not. *)
Lemma processed_loosens frame :
  processed options' main frame = true -> processed options main frame = true.
Proof.
  unfold processed, frameCompletes. intros H.
  apply andb_true_iff in H as [Hrun Hc]. rewrite Hrun. cbn [andb].
  now apply (completes_loosens frame 1 1).
Qed.

Lemma frameNumbered_loosens frame s s' :
  (processed options main frame = true -> processed options' main frame = true) ->
  (length (frameNumbered options main frame s)
   <= length (frameNumbered options' main frame s'))%nat.
Proof.
  intros Hp. unfold frameNumbered.
  destruct (processed options main frame); [|cbn; lia].
  rewrite (Hp eq_refl), !length_map, !number_length. unfold retainedOf.
  apply filter_length_le. intros el _. apply retains_loosens.
Qed.

Lemma passNumbered_loosens allFrames s s' :
  (forall frame, In frame allFrames ->
     processed options main frame = true -> processed options' main frame = true) ->
  (length (passNumbered options main allFrames s)
   <= length (passNumbered options' main allFrames s'))%nat.
Proof.
  revert s s'. induction allFrames as [|frame rest IH]; intros s s' Hp; [cbn; lia|].
  cbn [passNumbered]. rewrite !length_app.
  pose proof (frameNumbered_loosens frame s s' (Hp frame (or_introl eq_refl))).
  specialize (IH (s + Z.of_nat (length (frameNumbered options main frame s)))
                 (s' + Z.of_nat (length (frameNumbered options' main frame s')))
                 (fun f Hf => Hp f (or_intror Hf))).
  lia.
Qed.

Lemma passDiscovered_loosens allFrames :
  (forall frame, In frame allFrames ->
     processed options main frame = true -> processed options' main frame = true) ->
  passDiscovered options main allFrames = passDiscovered options' main allFrames.
Proof.
  unfold passDiscovered. induction allFrames as [|frame rest IH]; intros Hp;
    [reflexivity|].
  cbn [map]. rewrite !list_sum_cons, IH by (intros f Hf; apply Hp; now right).
  f_equal. unfold frameDiscovered.
  pose proof (Hp frame (or_introl eq_refl)) as Hhere.
  pose proof (processed_loosens frame) as Hback.
  destruct (processed options main frame), (processed options' main frame);
    try reflexivity.
  - now specialize (Hhere eq_refl).
  - now specialize (Hback eq_refl).
Qed.
End Loosen.

(** * Hidden elements included *)

Lemma rejected_includeHidden o viewportHeight scrollY el :
  o_includeHidden o = true ->
  rejected o viewportHeight scrollY el = sizeTooSmall o el.
Proof.
  intros H. unfold rejected. rewrite H. now destruct (sizeTooSmall o el).
Qed.

Lemma passNumbered_all options main allFrames start :
  includeHidden options = Some true ->
  (forall frame el, In frame allFrames -> In el (document frame) ->
     matchesInteractive el = true ->
     sizeTooSmall (evalOpts options 0 0 0) el = false) ->
  length (passNumbered options main allFrames start) = passDiscovered options main allFrames.
Proof.
  intros Hflag. revert start. unfold passDiscovered.
  induction allFrames as [|frame rest IH]; intros start Hsize; [reflexivity|].
  cbn [passNumbered map]. rewrite list_sum_cons, length_app.
  rewrite IH by (intros f el Hf; apply Hsize; now right). f_equal.
  unfold frameNumbered, frameDiscovered. destruct (processed options main frame); [|reflexivity].
  rewrite length_map, number_length. unfold retainedOf, querySelectorAll. f_equal.
  apply filter_all.
  - intros el Hin Hm. unfold retains. rewrite Hm. cbn [andb].
    rewrite rejected_includeHidden
      by (unfold frameOpts; cbn [evalOpts o_includeHidden]; now rewrite Hflag).
    apply negb_true_iff. apply (Hsize frame el (or_introl eq_refl) Hin Hm).
  - intros el H. unfold retains in H. now apply andb_true_iff in H as [Hm _].
Qed.
(** * Elements that already carry a marker *)

Section Remark.
Variable o : EvalOpts.
Variables viewportHeight scrollY : Z.

Lemma retains_mark id el :
  retains o viewportHeight scrollY (mark id el) = retains o viewportHeight scrollY el.
Proof. unfold retains. now rewrite matchesInteractive_mark. Qed.

Lemma throwsOn_mark id el :
  throwsOn o viewportHeight scrollY (mark id el)
  = throwsOn o viewportHeight scrollY el.
Proof. unfold throwsOn. now rewrite retains_mark, numericLabel_mark. Qed.

Lemma descriptorOf_mark id id' el :
  descriptorOf o id (mark id' el) = descriptorOf o id el.
Proof. unfold descriptorOf. now rewrite mark_mark. Qed.

Lemma fragmentOf_mark id id' el :
  fragmentOf o id (mark id' el) = fragmentOf o id el.
Proof. unfold fragmentOf. now rewrite mark_mark. Qed.

Lemma markFrom_markFrom start start' document :
  markFrom o viewportHeight scrollY start
    (markFrom o viewportHeight scrollY start' document)
  = markFrom o viewportHeight scrollY start document.
Proof.
  revert start start'. induction document as [|el rest IH]; intros start start';
    [reflexivity|].
  cbn [markFrom]. destruct (retains o viewportHeight scrollY el) eqn:Hr.
  - cbn [markFrom]. rewrite retains_mark, Hr, mark_mark, numericLabel_mark.
    destruct (numericLabel el); [reflexivity | now rewrite IH].
  - cbn [markFrom]. now rewrite Hr, IH.
Qed.

Lemma completes_markFrom start document :
  completes o viewportHeight scrollY (markFrom o viewportHeight scrollY start document)
  = completes o viewportHeight scrollY document.
Proof.
  revert start. induction document as [|el rest IH]; intros start; [reflexivity|].
  cbn [markFrom]. destruct (retains o viewportHeight scrollY el) eqn:Hr.
  - rewrite !completes_cons, throwsOn_mark. unfold throwsOn. rewrite Hr.
    destruct (numericLabel el); [reflexivity | now rewrite IH].
  - rewrite !completes_cons. now rewrite IH.
Qed.

Lemma numbered_markFrom {B} (G : Z -> Element -> B) start start' document :
  (forall id id' el, G id (mark id' el) = G id el) ->
  map (fun p => G (fst p) (snd p))
      (number start
         (retainedOf o viewportHeight scrollY
            (markFrom o viewportHeight scrollY start' document)))
  = map (fun p => G (fst p) (snd p))
        (number start (retainedOf o viewportHeight scrollY document)).
Proof.
  intros HG. revert start start'.
  induction document as [|el rest IH]; intros start start'; [reflexivity|].
  cbn [markFrom]. unfold retainedOf in *.
  destruct (retains o viewportHeight scrollY el) eqn:Hr; cbn [List.filter].
  - rewrite retains_mark, Hr. cbn [number map fst snd]. rewrite HG.
    destruct (numericLabel el); [reflexivity | now rewrite IH].
  - rewrite Hr. apply IH.
Qed.

Lemma querySelectorAll_markFrom start document :
  length (querySelectorAll (markFrom o viewportHeight scrollY start document))
  = length (querySelectorAll document).
Proof.
  revert start. unfold querySelectorAll.
  induction document as [|el rest IH]; intros start; [reflexivity|].
  cbn [markFrom]. destruct (retains o viewportHeight scrollY el); cbn [List.filter].
  - rewrite matchesInteractive_mark.
    destruct (numericLabel el);
      destruct (matchesInteractive el); cbn [length]; now rewrite ?IH.
  - destruct (matchesInteractive el); cbn [length]; now rewrite IH.
Qed.
End Remark.

Section Repass.
Variable options : SnapshotOptions.
Variable main : nat.

Lemma frameMarked_fields frame start :
  node (frameMarked options main frame start) = node frame
  /\ isDetached (frameMarked options main frame start) = isDetached frame
  /\ evaluateError (frameMarked options main frame start) = evaluateError frame
  /\ scriptError (frameMarked options main frame start) = scriptError frame
  /\ innerHeight (frameMarked options main frame start) = innerHeight frame
  /\ win_scrollY (frameMarked options main frame start) = win_scrollY frame.
Proof. unfold frameMarked. destruct (scriptRuns frame); repeat split. Qed.

Lemma scriptRuns_frameMarked frame start :
  scriptRuns (frameMarked options main frame start) = scriptRuns frame.
Proof.
  unfold scriptRuns.
  now destruct (frameMarked_fields frame start) as (_ & -> & -> & _).
Qed.

Lemma frameOpts_frameMarked frame start start' :
  frameOpts options main (frameMarked options main frame start) start'
  = frameOpts options main frame start'.
Proof. unfold frameMarked. now destruct (scriptRuns frame). Qed.

Lemma frameMarked_document frame start :
  scriptRuns frame = true ->
  document (frameMarked options main frame start)
  = markFrom (frameOpts options main frame start)
      (innerHeight frame) (win_scrollY frame) start (document frame).
Proof. intros H. unfold frameMarked. now rewrite H. Qed.

Lemma frameCompletes_frameMarked frame start :
  frameCompletes options main (frameMarked options main frame start)
  = frameCompletes options main frame.
Proof.
  unfold frameCompletes. rewrite frameOpts_frameMarked.
  destruct (frameMarked_fields frame start) as (_ & _ & _ & _ & -> & ->).
  destruct (scriptRuns frame) eqn:Hrun.
  - rewrite (frameMarked_document _ _ Hrun).
    apply (completes_markFrom (frameOpts options main frame 1)).
  - unfold frameMarked. now rewrite Hrun.
Qed.

Lemma processed_frameMarked frame start :
  processed options main (frameMarked options main frame start)
  = processed options main frame.
Proof.
  unfold processed. now rewrite scriptRuns_frameMarked, frameCompletes_frameMarked.
Qed.

Lemma processed_runs frame :
  processed options main frame = true -> scriptRuns frame = true.
Proof. unfold processed. intros H. now apply andb_true_iff in H. Qed.

Lemma frameNumbered_remark {B} (G : EvalOpts -> Z -> Element -> B) frame start :
  (forall o id id' el, G o id (mark id' el) = G o id el) ->
  map (fun t => G (fst (fst t)) (snd (fst t)) (snd t))
      (frameNumbered options main (frameMarked options main frame start) start)
  = map (fun t => G (fst (fst t)) (snd (fst t)) (snd t))
        (frameNumbered options main frame start).
Proof.
  intros HG. unfold frameNumbered. rewrite processed_frameMarked.
  destruct (processed options main frame) eqn:Hp; [|reflexivity].
  rewrite frameOpts_frameMarked, (frameMarked_document _ _ (processed_runs _ Hp)).
  destruct (frameMarked_fields frame start) as (_ & _ & _ & _ & -> & ->).
  rewrite !map_map. cbn [fst snd].
  apply (numbered_markFrom (frameOpts options main frame start)
           (innerHeight frame) (win_scrollY frame)
           (G (frameOpts options main frame start))).
  intros id id' el. apply HG.
Qed.

Lemma frameNumbered_remark_length frame start :
  length (frameNumbered options main (frameMarked options main frame start) start)
  = length (frameNumbered options main frame start).
Proof.
  pose proof (frameNumbered_remark (fun _ _ _ => tt) frame start
                (fun _ _ _ _ => eq_refl)) as H.
  apply (f_equal (@length unit)) in H. now rewrite !length_map in H.
Qed.

Lemma frameMarked_frameMarked frame start :
  frameMarked options main (frameMarked options main frame start) start
  = frameMarked options main frame start.
Proof.
  unfold frameMarked at 1. rewrite scriptRuns_frameMarked.
  destruct (scriptRuns frame) eqn:Hrun; [|unfold frameMarked; now rewrite Hrun].
  rewrite frameOpts_frameMarked, (frameMarked_document _ _ Hrun).
  destruct (frameMarked_fields frame start) as (_ & _ & _ & _ & -> & ->).
  rewrite markFrom_markFrom. unfold frameMarked. rewrite Hrun. reflexivity.
Qed.

Lemma passNumbered_remark {B} (G : EvalOpts -> Z -> Element -> B) allFrames start :
  (forall o id id' el, G o id (mark id' el) = G o id el) ->
  map (fun t => G (fst (fst t)) (snd (fst t)) (snd t))
      (passNumbered options main (passMarked options main allFrames start) start)
  = map (fun t => G (fst (fst t)) (snd (fst t)) (snd t))
        (passNumbered options main allFrames start).
Proof.
  intros HG. revert start.
  induction allFrames as [|frame rest IH]; intros start; [reflexivity|].
  cbn [passMarked passNumbered]. rewrite !map_app.
  rewrite frameNumbered_remark_length, (frameNumbered_remark G frame start HG).
  now rewrite IH.
Qed.

Lemma passMarked_passMarked allFrames start :
  passMarked options main (passMarked options main allFrames start) start
  = passMarked options main allFrames start.
Proof.
  revert start. induction allFrames as [|frame rest IH]; intros start; [reflexivity|].
  cbn [passMarked].
  now rewrite frameNumbered_remark_length, frameMarked_frameMarked, IH.
Qed.

Lemma passDiscovered_passMarked allFrames start :
  passDiscovered options main (passMarked options main allFrames start)
  = passDiscovered options main allFrames.
Proof.
  revert start. unfold passDiscovered.
  induction allFrames as [|frame rest IH]; intros start; [reflexivity|].
  cbn [passMarked map]. rewrite !list_sum_cons, IH. f_equal.
  unfold frameDiscovered. rewrite processed_frameMarked.
  destruct (processed options main frame) eqn:Hp; [|reflexivity].
  rewrite (frameMarked_document _ _ (processed_runs _ Hp)).
  apply querySelectorAll_markFrom.
Qed.

Lemma frameWarning_passMarked allFrames start :
  flat_map (frameWarning options main) (passMarked options main allFrames start)
  = flat_map (frameWarning options main) allFrames.
Proof.
  revert start. induction allFrames as [|frame rest IH]; intros start; [reflexivity|].
  cbn [passMarked flat_map]. rewrite IH. f_equal.
  unfold frameWarning. rewrite frameCompletes_frameMarked.
  destruct (frameMarked_fields frame start) as (_ & -> & -> & -> & _). reflexivity.
Qed.
End Repass.
(** * Fragments and descriptors *)

Lemma fragment_render o id el :
  fragmentOf o id el
  = renderDescriptor (descriptorOf o id el)
      (getAttribute el "type") (getAttribute el "name").
Proof.
  unfold fragmentOf, renderDescriptor, descriptorOf, buildHtml, buildMetadata.
  cbn [md_tagName mcpId role text].
  rewrite !getAttribute_mark by discriminate.
  destruct (truthy (getAttribute el "role")) eqn:Hr; [reflexivity|].
  unfold attrFragment. now rewrite Hr.
Qed.

Lemma join_nonempty sep p rest :
  truthy p = true -> truthy (join sep (p :: rest)) = true.
Proof.
  intros H. cbn [join]. destruct rest; [exact H|].
  destruct p; [discriminate | reflexivity].
Qed.

Lemma renderDescriptor_nonempty d typeHint nameHint :
  truthy (renderDescriptor d typeHint nameHint) = true.
Proof. reflexivity. Qed.

(** Page-level effect of the marking. *)
Lemma markFrom_only_marks o viewportHeight scrollY start document :
  Forall2 (fun el el' =>
             el' = el
             \/ exists id, el' = setAttribute el markerAttribute (String_of_number id))
          document (markFrom o viewportHeight scrollY start document).
Proof.
  eapply Forall2_impl; [apply markFrom_touched|].
  intros el el'. cbv beta.
  destruct (retains o viewportHeight scrollY el); [|now left].
  intros [H | (id & _ & ->)]; [now left | right; now exists id].
Qed.

(** A walk that throws leaves its marker on the element it threw on. *)
Lemma markFrom_thrower o viewportHeight scrollY start document :
  completes o viewportHeight scrollY document = false ->
  exists el id,
    In el document
    /\ numericLabel el = true
    /\ In (setAttribute el markerAttribute (String_of_number id))
          (markFrom o viewportHeight scrollY start document).
Proof.
  revert start. induction document as [|el rest IH]; intros start Hc; [discriminate|].
  rewrite completes_cons in Hc. cbn [markFrom]. unfold throwsOn in Hc.
  destruct (retains o viewportHeight scrollY el); cbn [andb negb] in Hc.
  - destruct (numericLabel el) eqn:Hn; cbn [negb andb] in Hc.
    + exists el, start. split; [now left|]. split; [exact Hn | now left].
    + destruct (IH (start + 1) Hc) as (e & id & Hin & Hnum & Hm).
      exists e, id. split; [now right|]. split; [exact Hnum | now right].
  - destruct (IH start Hc) as (e & id & Hin & Hnum & Hm).
    exists e, id. split; [now right|]. split; [exact Hnum | now right].
Qed.

(** The issued elements are the numbered ones, each with its descriptor. *)
Lemma passIssued_numbered options main allFrames start :
  passIssued options main allFrames start
  = map (fun t : EvalOpts * Z * Element => (snd t, numberedDescriptor t))
        (passNumbered options main allFrames start).
Proof.
  revert start. induction allFrames as [|frame rest IH]; intros start; [reflexivity|].
  cbn [passIssued passNumbered]. rewrite map_app, <- frameNumbered_length, IH.
  f_equal. unfold frameIssued, frameNumbered.
  destruct (processed options main frame); [|reflexivity].
  now rewrite map_map.
Qed.

(** A walk that throws has marked the first element it retains with the
    start identifier. *)
Lemma markFrom_first o viewportHeight scrollY start document :
  completes o viewportHeight scrollY document = false ->
  exists el,
    In el document
    /\ retains o viewportHeight scrollY el = true
    /\ In (mark start el) (markFrom o viewportHeight scrollY start document).
Proof.
  induction document as [|el rest IH]; intros Hc; [discriminate|].
  rewrite completes_cons in Hc. cbn [markFrom]. unfold throwsOn in Hc.
  destruct (retains o viewportHeight scrollY el) eqn:Hret; cbn [andb negb] in Hc.
  - exists el. split; [now left|]. split; [exact Hret | now left].
  - destruct (IH Hc) as (e & Hin & Hr & Hm).
    exists e. split; [now right|]. split; [exact Hr | now right].
Qed.
(** * Normalised text *)

Lemma trimStart_suffix s : exists pre, s = pre ++ trimStart s.
Proof.
  induction s as [|c rest [pre IH]]; [now exists []|].
  cbn [trimStart]. destruct (isWhitespace c).
  - exists (c :: pre). cbn [app]. now rewrite <- IH.
  - now exists [].
Qed.

Lemma trimEnd_prefix s : exists post, s = trimEnd s ++ post.
Proof.
  unfold trimEnd.
  destruct (trimStart_suffix (rev s)) as [pre Hpre].
  exists (rev pre).
  rewrite <- (rev_involutive s) at 1. rewrite Hpre at 1.
  now rewrite rev_app_distr.
Qed.

Lemma space_is_whitespace c : N.eqb c space = true -> isWhitespace c = true.
Proof. intros H. apply N.eqb_eq in H. now subst c. Qed.

Lemma isWhitespace_space : isWhitespace space = true.
Proof. reflexivity. Qed.

Lemma singleSpaced_prefix afterSpace (t post : JsString) :
  singleSpaced afterSpace (t ++ post) = true -> singleSpaced afterSpace t = true.
Proof.
  revert afterSpace. induction t as [|c t IH]; intros afterSpace H; [reflexivity|].
  cbn [app singleSpaced] in *. destruct (N.eqb c space).
  - apply andb_true_iff in H as [H1 H2]. rewrite H1. cbn [andb]. now apply IH.
  - apply andb_true_iff in H as [H1 H2]. rewrite H1. cbn [andb]. now apply IH.
Qed.

Lemma singleSpaced_trimStart afterSpace s :
  singleSpaced afterSpace s = true -> singleSpaced true (trimStart s) = true.
Proof.
  revert afterSpace. induction s as [|c rest IH]; intros afterSpace H; [reflexivity|].
  cbn [trimStart]. cbn [singleSpaced] in H.
  destruct (isWhitespace c) eqn:Hws.
  - destruct (N.eqb c space).
    + apply andb_true_iff in H as [_ H]. now apply (IH true).
    + cbn in H. discriminate.
  - cbn [singleSpaced]. destruct (N.eqb c space) eqn:Hsp.
    + apply space_is_whitespace in Hsp. congruence.
    + now rewrite Hws in *.
Qed.

Lemma singleSpaced_collapse inRun s :
  singleSpaced inRun (collapseFrom inRun s) = true.
Proof.
  revert inRun. induction s as [|c rest IH]; intros inRun; [reflexivity|].
  cbn [collapseFrom]. destruct (isWhitespace c) eqn:Hws.
  - destruct inRun; [apply IH|].
    cbn [singleSpaced]. rewrite N.eqb_refl. cbn [negb andb]. apply IH.
  - cbn [singleSpaced]. destruct (N.eqb c space) eqn:Hsp.
    + apply space_is_whitespace in Hsp. congruence.
    + rewrite Hws. cbn [negb andb]. apply IH.
Qed.

(** A text that is single-spaced and does not begin with a space holds,
    of all whitespace, only spaces, and no two of them in a row. *)
Lemma singleSpaced_whitespace afterSpace s c :
  singleSpaced afterSpace s = true -> In c s -> isWhitespace c = true -> c = space.
Proof.
  revert afterSpace. induction s as [|x rest IH]; intros afterSpace H Hin Hws;
    [destruct Hin|].
  cbn [singleSpaced] in H. destruct (N.eqb_spec x space) as [-> | Hne].
  - apply andb_true_iff in H as [_ H].
    destruct Hin as [<- | Hin]; [reflexivity | now apply (IH true)].
  - apply andb_true_iff in H as [Hx H].
    destruct Hin as [<- | Hin]; [|now apply (IH false)].
    rewrite Hws in Hx. discriminate.
Qed.

Lemma slice0_prefix n s : exists post, s = slice0 n s ++ post.
Proof. unfold slice0. eexists. symmetry. apply firstn_skipn. Qed.

Lemma slice0_length n s :
  0 <= n -> Z.of_nat (length (slice0 n s)) <= n.
Proof.
  intros Hn. unfold slice0.
  destruct (Z.ltb_spec n 0) as [H | _]; [lia|].
  rewrite length_firstn. lia.
Qed.

(** A label within the maximum length is not cut. *)
Lemma slice0_all n s : Z.of_nat (length s) <= n -> slice0 n s = s.
Proof.
  intros H. unfold slice0.
  destruct (Z.ltb_spec n 0) as [Hneg | _]; [lia|].
  apply firstn_all2. lia.
Qed.

Lemma labelOf_tidy o el : singleSpaced true (labelOf o el) = true.
Proof.
  unfold labelOf, extractText. destruct (labelSource el) as [raw|n]; [|reflexivity].
  pose proof (singleSpaced_collapse false raw) as H0.
  apply singleSpaced_trimStart in H0.
  fold (collapseWhitespace raw) in H0.
  unfold trim.
  destruct (trimEnd_prefix (trimStart (collapseWhitespace raw))) as [post1 H1].
  rewrite H1 in H0. apply singleSpaced_prefix in H0.
  destruct (slice0_prefix (o_maxTextLength o)
              (trimEnd (trimStart (collapseWhitespace raw)))) as [post2 H2].
  rewrite H2 in H0. now apply singleSpaced_prefix in H0.
Qed.

Lemma labelOf_length o el :
  0 <= o_maxTextLength o ->
  Z.of_nat (length (labelOf o el)) <= o_maxTextLength o.
Proof.
  intros H. unfold labelOf, extractText.
  destruct (labelSource el); [now apply slice0_length | cbn; lia].
Qed.

Lemma passNumbered_maxTextLength options main allFrames start :
  Forall (fun t : EvalOpts * Z * Element =>
            o_maxTextLength (fst (fst t)) = nullish (maxTextLength options) 100)
         (passNumbered options main allFrames start).
Proof.
  revert start. induction allFrames as [|frame rest IH]; intros start; [constructor|].
  cbn [passNumbered]. apply Forall_app. split; [|apply IH].
  unfold frameNumbered. destruct (processed options main frame); [|constructor].
  apply List.Forall_forall. intros t Hin.
  apply in_map_iff in Hin as (p & <- & _). reflexivity.
Qed.

(** * The legacy walk as a concatenation *)

Lemma collect_unfold fuel graph doc iframeChain depth :
  (depth <= MAX_DEPTH)%nat ->
  collect (S fuel) graph doc iframeChain depth
  = (flat_map (fun iframe => fst (visitIframe fuel graph iframeChain depth iframe))
       (doc_iframes (graph doc)),
     ownElements graph doc iframeChain
     ++ flat_map (fun iframe => snd (visitIframe fuel graph iframeChain depth iframe))
          (doc_iframes (graph doc))).
Proof.
  intros Hd. cbn [collect]. apply Nat.ltb_ge in Hd. rewrite Hd.
  fold (ownElements graph doc iframeChain).
  assert (G : forall iframes acc,
            fold_left
              (fun acc iframe =>
                 match contentDocument iframe with
                 | CrossOrigin =>
                     (fst acc ++
                        ["Cannot access iframe (cross-origin): "
                         ++ orElse (src iframe) "(no src)"],
                      snd acc)
                 | NoDocument => acc
                 | SameOrigin iframeDoc =>
                     let inner :=
                       collect fuel graph iframeDoc (iframeChain ++ [iframe]) (depth + 1) in
                     (fst acc ++ fst inner, snd acc ++ snd inner)
                 end) iframes acc
            = (fst acc
               ++ flat_map (fun iframe =>
                              fst (visitIframe fuel graph iframeChain depth iframe)) iframes,
               snd acc
               ++ flat_map (fun iframe =>
                              snd (visitIframe fuel graph iframeChain depth iframe)) iframes)).
  { induction iframes as [|iframe rest IH]; intros acc.
    - cbn. rewrite !app_nil_r. now destruct acc.
    - cbn [fold_left flat_map]. rewrite IH. unfold visitIframe, crossOriginWarning.
      destruct (contentDocument iframe); cbn [fst snd app];
        rewrite <- ?app_assoc; reflexivity. }
  rewrite G. reflexivity.
Qed.



(** * Frames added at the end *)

Lemma passNumbered_app options main l1 l2 start :
  passNumbered options main (l1 ++ l2) start
  = passNumbered options main l1 start
    ++ passNumbered options main l2
         (start + Z.of_nat (length (passNumbered options main l1 start))).
Proof.
  revert start. induction l1 as [|frame rest IH]; intros start.
  - cbn. now rewrite Z.add_0_r.
  - cbn [app passNumbered]. rewrite IH, length_app, <- app_assoc.
    do 3 f_equal. lia.
Qed.

Lemma passMarked_app options main l1 l2 start :
  passMarked options main (l1 ++ l2) start
  = passMarked options main l1 start
    ++ passMarked options main l2
         (start + Z.of_nat (length (passNumbered options main l1 start))).
Proof.
  revert start. induction l1 as [|frame rest IH]; intros start.
  - cbn. now rewrite Z.add_0_r.
  - cbn [app passMarked passNumbered]. rewrite IH, length_app.
    do 3 f_equal. lia.
Qed.

Lemma passNumbered_ids options main allFrames start :
  map (fun t => mcpId (numberedDescriptor t)) (passNumbered options main allFrames start)
  = consecutive start (length (passNumbered options main allFrames start)).
Proof.
  revert start. induction allFrames as [|frame rest IH]; intros start; [reflexivity|].
  cbn [passNumbered]. rewrite map_app, length_app, consecutive_app, IH. f_equal.
  unfold frameNumbered. destruct (processed options main frame); [|reflexivity].
  rewrite map_map, length_map, number_length. cbn [numberedDescriptor fst snd].
  apply (number_ids (frameOpts options main frame start)).
Qed.
(** * The legacy pass *)

Section LegacyPassFacts.
Variable options : SnapshotOptions.
Variables viewportHeight scrollY : Z.
Variable iframeRect : IFrame -> DOMRect.t.

Lemma legacyBody_rejected st entry :
  legacyRejected options viewportHeight scrollY iframeRect entry = true ->
  legacyBody options viewportHeight scrollY iframeRect st entry
  = (tagged entry, Normal st).
Proof. intros H. unfold legacyBody. now rewrite H. Qed.

Lemma legacyBody_retained st entry :
  legacyRejected options viewportHeight scrollY iframeRect entry = false ->
  numericLabel (fst entry) = false ->
  legacyBody options viewportHeight scrollY iframeRect st entry
  = ((mark (idCounter st) (fst entry), None),
     Normal
       {| idCounter := idCounter st + 1;
          st_distilledHTML :=
            st_distilledHTML st
            ++ [fragmentOf (legacyOpts options) (idCounter st) (fst entry)];
          st_elementMap :=
            st_elementMap st
            ++ [descriptorOf (legacyOpts options) (idCounter st) (fst entry)] |}).
Proof.
  intros H Hn. unfold legacyBody. rewrite H.
  fold (mark (idCounter st) (fst entry)).
  rewrite <- (numericLabel_mark (idCounter st)) in Hn.
  now rewrite (extractText_label _ _ Hn).
Qed.

Lemma legacyBody_throws st entry :
  legacyRejected options viewportHeight scrollY iframeRect entry = false ->
  numericLabel (fst entry) = true ->
  legacyBody options viewportHeight scrollY iframeRect st entry
  = ((mark (idCounter st) (fst entry), None), TypeError).
Proof.
  intros H Hn. unfold legacyBody. rewrite H.
  fold (mark (idCounter st) (fst entry)).
  rewrite <- (numericLabel_mark (idCounter st)) in Hn.
  now rewrite (extractText_numeric _ _ Hn).
Qed.

Lemma legacyForEach_spec entries st :
  legacyForEach options viewportHeight scrollY iframeRect entries st
  = (legacyMarked options viewportHeight scrollY iframeRect (idCounter st) entries,
     if legacyCompletes options viewportHeight scrollY iframeRect entries
     then Normal
       {| idCounter :=
            idCounter st
            + Z.of_nat (length (legacyRetained options viewportHeight scrollY
                                  iframeRect entries));
          st_distilledHTML :=
            st_distilledHTML st
            ++ map (fun p => fragmentOf (legacyOpts options) (fst p) (snd p))
                 (number (idCounter st)
                    (legacyRetained options viewportHeight scrollY iframeRect entries));
          st_elementMap :=
            st_elementMap st
            ++ map (fun p => descriptorOf (legacyOpts options) (fst p) (snd p))
                 (number (idCounter st)
                    (legacyRetained options viewportHeight scrollY iframeRect entries)) |}
     else TypeError).
Proof.
  revert st. induction entries as [|entry rest IH]; intros st.
  - cbn. rewrite Z.add_0_r, !app_nil_r. now destruct st.
  - cbn [legacyForEach legacyMarked].
    unfold legacyCompletes, legacyRetained, legacyThrowsOn in *.
    cbn [forallb List.filter].
    destruct (legacyRejected options viewportHeight scrollY iframeRect entry) eqn:Hr.
    + rewrite (legacyBody_rejected _ _ Hr), IH. cbn [negb andb]. reflexivity.
    + cbn [negb andb]. destruct (numericLabel (fst entry)) eqn:Hn.
      * rewrite (legacyBody_throws _ _ Hr Hn). reflexivity.
      * rewrite (legacyBody_retained _ _ Hr Hn), IH.
        cbn [negb andb map length number fst snd idCounter st_distilledHTML
             st_elementMap].
        destruct (forallb _ rest); [|reflexivity].
        rewrite <- !app_assoc. cbn [app]. do 3 f_equal. lia.
Qed.

Lemma legacyRetained_le entries :
  (length (legacyRetained options viewportHeight scrollY iframeRect entries)
   <= length entries)%nat.
Proof.
  unfold legacyRetained. rewrite length_map.
  induction entries as [|entry rest IH]; cbn [List.filter length]; [lia|].
  destruct (negb _); cbn [length]; lia.
Qed.

(** What the pass leaves of the collected elements, whether it ends or
    throws: a rejected element is as the walk left it, its expando set;
    one that passes the filter is either still so, or carries a marker
    and has lost the expando. *)
Lemma legacyMarked_touched start entries :
  Forall2
    (fun (entry : ElementWithIframeInfo) (after : Collected) =>
       if legacyRejected options viewportHeight scrollY iframeRect entry
       then after = tagged entry
       else after = tagged entry
            \/ exists id, after = (mark id (fst entry), None))
    entries
    (legacyMarked options viewportHeight scrollY iframeRect start entries).
Proof.
  revert start. induction entries as [|entry rest IH]; intros start; [constructor|].
  cbn [legacyMarked].
  destruct (legacyRejected options viewportHeight scrollY iframeRect entry) eqn:Hr.
  - constructor; [now rewrite Hr | apply IH].
  - constructor; [rewrite Hr; right; now exists start|].
    destruct (numericLabel (fst entry)); [|apply IH].
    clear. induction rest as [|e rest IH]; constructor; [|exact IH].
    destruct (legacyRejected options viewportHeight scrollY iframeRect e);
      [reflexivity | now left].
Qed.

(** After a pass that ends, every element that passes the filter
    carries the identifier it was numbered with and has lost the
    expando. *)
Lemma legacyMarked_walked start entries :
  legacyCompletes options viewportHeight scrollY iframeRect entries = true ->
  Forall2
    (fun (entry : ElementWithIframeInfo) (after : Collected) =>
       if legacyRejected options viewportHeight scrollY iframeRect entry
       then after = tagged entry
       else exists id,
              In (id, fst entry)
                 (number start
                    (legacyRetained options viewportHeight scrollY iframeRect entries))
              /\ after = (mark id (fst entry), None))
    entries
    (legacyMarked options viewportHeight scrollY iframeRect start entries).
Proof.
  revert start. induction entries as [|entry rest IH]; intros start Hc; [constructor|].
  unfold legacyCompletes, legacyThrowsOn in Hc. cbn [forallb] in Hc.
  apply andb_true_iff in Hc as [Hel Hc].
  cbn [legacyMarked]. unfold legacyRetained. cbn [List.filter].
  destruct (legacyRejected options viewportHeight scrollY iframeRect entry) eqn:Hr;
    cbn [negb andb map number] in *.
  - constructor; [now rewrite Hr|].
    eapply Forall2_impl; [apply (IH start Hc)|].
    intros e a. cbv beta.
    now destruct (legacyRejected options viewportHeight scrollY iframeRect e).
  - apply negb_true_iff in Hel. rewrite Hel. constructor.
    + rewrite Hr. exists start. split; [now left | reflexivity].
    + eapply Forall2_impl; [apply (IH (start + 1) Hc)|].
      intros e a. cbv beta.
      destruct (legacyRejected options viewportHeight scrollY iframeRect e);
        [tauto|].
      intros (id & Hin & ->). exists id. split; [now right | reflexivity].
Qed.

Lemma legacy_reading scriptError graph root :
  captureOptimizedSnapshotSingleFrame options viewportHeight scrollY iframeRect
    scriptError graph root
  = let collected := collectAllElements graph root in
    let kept := legacyRetained options viewportHeight scrollY iframeRect (snd collected) in
    (fst collected,
     legacyMarked options viewportHeight scrollY iframeRect 1 (snd collected),
     if legacyCompletes options viewportHeight scrollY iframeRect (snd collected)
     then Fulfilled
       {| distilledHTML :=
            join newline
              (map (fun p => fragmentOf (legacyOpts options) (fst p) (snd p))
                   (number 1 kept));
          elementMap :=
            map (fun p => descriptorOf (legacyOpts options) (fst p) (snd p))
                (number 1 kept);
          totalElements := length (snd collected);
          visibleElements := length kept |}
     else Rejected scriptError).
Proof.
  unfold captureOptimizedSnapshotSingleFrame. cbn zeta.
  destruct (collectAllElements graph root) as [warned elements]. cbn [fst snd].
  rewrite legacyForEach_spec. cbn [idCounter st_distilledHTML st_elementMap app].
  destruct (legacyCompletes options viewportHeight scrollY iframeRect elements);
    [|reflexivity].
  cbn [st_distilledHTML st_elementMap]. now rewrite length_map, number_length.
Qed.
End LegacyPassFacts.

(** * Further properties of the code *)

(** X1: an option that is absent behaves exactly as its default written
    out (buffer 1000, text length 100, hidden elements excluded, minimum
    size 1 x 1): the pass is the same, page, console and result; a
    configuration without [snapshotOptions] runs the pass with all
    defaults, and one with [snapshotOptions] hands them on unchanged. *)
Theorem absent_options_are_defaults (page : Page) (options : SnapshotOptions) :
  captureOptimizedSnapshot page (fillDefaults options)
    = captureOptimizedSnapshot page options
  /\ (forall config, snapshotOptions config = None ->
        captureOptimizedSnapshot page (getSnapshotOptionsFromConfig config)
        = captureOptimizedSnapshot page
            {| viewportBuffer := Some 1000; maxTextLength := Some 100;
               includeHidden := Some false; minElementSize := Some (1, 1) |})
  /\ (forall config given_, snapshotOptions config = Some given_ ->
        getSnapshotOptionsFromConfig config = given_).
Proof.
  assert (H : forall opts, captureOptimizedSnapshot page (fillDefaults opts)
                           = captureOptimizedSnapshot page opts).
  { intros opts. unfold captureOptimizedSnapshot.
    now rewrite frameLoop_fillDefaults. }
  split; [apply H|]. split.
  - intros config Hnone. unfold getSnapshotOptionsFromConfig. rewrite Hnone.
    rewrite <- (H noOptions). reflexivity.
  - intros config given_ Hsome. unfold getSnapshotOptionsFromConfig.
    now rewrite Hsome.
Qed.

(** X2: the scroll position of a frame's window cancels out of the
    viewport step, so the in-page script gives the same document and the
    same result at any scroll position: with the override flag unset, an
    element that passes the size and style steps is rejected exactly when
    its box, taken relative to the frame's viewport and moved by the
    frame's vertical offset, ends above [-buffer] or starts below
    [innerHeight + buffer]. *)
Theorem scroll_position_cancels
    (o : EvalOpts) (viewportHeight scrollY scrollY' : Z) (document : list Element) :
  script o viewportHeight scrollY document = script o viewportHeight scrollY' document
  /\ (forall el,
        o_includeHidden o = false -> sizeTooSmall o el = false ->
        cssHidden el = false ->
        (rejected o viewportHeight scrollY el = true <->
         DOMRect.bottom (getBoundingClientRect el) + frameOffsetY o
           < - o_viewportBuffer o
         \/ DOMRect.top (getBoundingClientRect el) + frameOffsetY o
           > viewportHeight + o_viewportBuffer o)).
Proof.
  split.
  - unfold script. now rewrite (forEach_scroll o viewportHeight scrollY scrollY').
  - intros el Hflag Hsize Hcss. unfold rejected. rewrite Hsize, Hflag, Hcss.
    cbn [negb]. unfold outsideViewport, absoluteBottom, absoluteTop,
      viewportTop, viewportBottom.
    rewrite orb_true_iff, Z.ltb_lt, Z.gtb_lt. split; intros [H | H]; lia.
Qed.

(** X3: with the include-hidden flag set, the filter is the size step
    alone; so on a page none of whose candidates is undersized every
    discovered element is retained, hidden or far from the viewport as it
    may be. *)
Theorem include_hidden_keeps_all_sized (page : Page) (options : SnapshotOptions) :
  includeHidden options = Some true ->
  (forall frame el, In frame (frames page) -> In el (document frame) ->
     matchesInteractive el = true ->
     sizeTooSmall (evalOpts options 0 0 0) el = false) ->
  (exists r,
     settled (captureOptimizedSnapshot page options) = Fulfilled r
     /\ visibleElements r = totalElements r)
  /\ (forall start offX offY viewportHeight scrollY el,
        rejected (evalOpts options start offX offY) viewportHeight scrollY el
        = sizeTooSmall (evalOpts options start offX offY) el).
Proof.
  intros Hflag Hsize. split.
  - rewrite capture_reading. eexists. split; [reflexivity|].
    cbn [resultOfNumbered visibleElements totalElements].
    now apply passNumbered_all.
  - intros start offX offY viewportHeight scrollY el.
    apply rejected_includeHidden. cbn [evalOpts o_includeHidden]. now rewrite Hflag.
Qed.

(** Witness of X3: a [display: none] button of size 80 x 20 is retained
    when hidden elements are included. *)
Lemma include_hidden_keeps_all_sized_witness :
  exists r,
    settled (captureOptimizedSnapshot
               (Examples.hiddenAndVisible (DOMRect.mk 0 5000 80 20))
               {| viewportBuffer := None; maxTextLength := None;
                  includeHidden := Some true; minElementSize := None |})
    = Fulfilled r
    /\ visibleElements r = totalElements r.
Proof.
  refine (proj1 (include_hidden_keeps_all_sized
                   (Examples.hiddenAndVisible (DOMRect.mk 0 5000 80 20))
                   {| viewportBuffer := None; maxTextLength := None;
                      includeHidden := Some true; minElementSize := None |}
                   eq_refl _)).
  intros frame el [<- | []] [<- | [<- | []]] _; reflexivity.
Defined.

(** X4: loosening the settings (a larger buffer, smaller minimum sizes,
    hidden elements included) never makes the filter lose an element:
    every element the stricter settings retain in a frame the looser
    ones retain too.  The looser pass processes no frame the stricter
    one does not; when it processes all the frames the stricter one
    does, none of its scripts throwing on an element that only it
    retains, its retained count is not smaller and its discovered count
    is the same. *)
Theorem loosening_never_loses (page : Page) (options options' : SnapshotOptions) :
  loosens options options' ->
  (forall frame, In frame (frames page) ->
     processed options (mainFrame page) frame = true ->
     processed options' (mainFrame page) frame = true) ->
  (exists r r',
     settled (captureOptimizedSnapshot page options) = Fulfilled r
     /\ settled (captureOptimizedSnapshot page options') = Fulfilled r'
     /\ (visibleElements r <= visibleElements r')%nat
     /\ totalElements r = totalElements r')
  /\ (forall frame start start' el,
        retains (frameOpts options (mainFrame page) frame start)
          (innerHeight frame) (win_scrollY frame) el = true ->
        retains (frameOpts options' (mainFrame page) frame start')
          (innerHeight frame) (win_scrollY frame) el = true)
  /\ (forall frame,
        processed options' (mainFrame page) frame = true ->
        processed options (mainFrame page) frame = true).
Proof.
  intros Hloose Hsame. split; [|split].
  - rewrite !capture_reading. eexists _, _.
    split; [reflexivity|]. split; [reflexivity|].
    cbn [resultOfNumbered visibleElements totalElements].
    split; [now apply passNumbered_loosens | now apply passDiscovered_loosens].
  - intros frame start start' el. now apply retains_loosens.
  - intros frame. now apply processed_loosens.
Qed.

(** Witness of X4: the default settings loosened to a buffer of 2000. *)
Lemma loosening_never_loses_witness :
  exists r r',
    settled (captureOptimizedSnapshot Examples.twoButtons noOptions) = Fulfilled r
    /\ settled (captureOptimizedSnapshot Examples.twoButtons
                  {| viewportBuffer := Some 2000; maxTextLength := None;
                     includeHidden := None; minElementSize := None |}) = Fulfilled r'
    /\ (visibleElements r <= visibleElements r')%nat
    /\ totalElements r = totalElements r'.
Proof.
  refine (proj1 (loosening_never_loses Examples.twoButtons noOptions
                   {| viewportBuffer := Some 2000; maxTextLength := None;
                      includeHidden := None; minElementSize := None |} _ _)).
  - unfold loosens. cbn. repeat split; (lia || discriminate || auto).
  - intros frame [<- | []] _. vm_compute. reflexivity.
Defined.

(** X5: distilling again a page that has not changed since the last pass
    gives the same thing in every respect: the same result, the same
    warnings, and the same markers on the same elements; markers already
    on the page have no influence on what a pass finds or issues. *)
Theorem distilling_again_changes_nothing (page : Page) (options : SnapshotOptions) :
  captureOptimizedSnapshot (pageAfter (captureOptimizedSnapshot page options)) options
  = captureOptimizedSnapshot page options.
Proof.
  rewrite (capture_reading page options). cbn [pageAfter].
  rewrite capture_reading. cbn [mainFrame frames].
  rewrite passMarked_passMarked, frameWarning_passMarked, passDiscovered_passMarked.
  assert (Hf : map numberedFragment
                 (passNumbered options (mainFrame page)
                    (passMarked options (mainFrame page) (frames page) 1) 1)
               = map numberedFragment
                   (passNumbered options (mainFrame page) (frames page) 1)).
  { apply (passNumbered_remark options (mainFrame page)
             (fun o id el => fragmentOf o id el)).
    intros o id id' el. apply fragmentOf_mark. }
  assert (Hd : map numberedDescriptor
                 (passNumbered options (mainFrame page)
                    (passMarked options (mainFrame page) (frames page) 1) 1)
               = map numberedDescriptor
                   (passNumbered options (mainFrame page) (frames page) 1)).
  { apply (passNumbered_remark options (mainFrame page)
             (fun o id el => descriptorOf o id el)).
    intros o id id' el. apply descriptorOf_mark. }
  assert (Hl : length (passNumbered options (mainFrame page)
                         (passMarked options (mainFrame page) (frames page) 1) 1)
               = length (passNumbered options (mainFrame page) (frames page) 1)).
  { apply (f_equal (@length ElementMetadata)) in Hd.
    now rewrite !length_map in Hd. }
  unfold resultOfNumbered. now rewrite Hf, Hd, Hl.
Qed.

(** X6: on a page whose only frame is its live main frame, the
    multi-frame pass leaves the document that the pass without frames
    leaves.  When the script runs to its end the two settle alike and
    nothing is warned; when the script throws they part: the pass
    without frames rejects, the multi-frame pass fulfils with the empty
    result and logs the error. *)
Theorem single_main_frame_is_frameless
    (options : SnapshotOptions) (main : nat) (frame : Frame) :
  scriptRuns frame = true ->
  frameId (node frame) = main ->
  let out := captureOptimizedSnapshot {| mainFrame := main; frames := [frame] |} options in
  let single := captureOptimizedSnapshotOfDocument options (scriptError frame)
                  (innerHeight frame) (win_scrollY frame) (document frame) in
  map document (frames (pageAfter out)) = [fst single]
  /\ (processed options main frame = true ->
      settled out = snd single
      /\ (exists r, snd single = Fulfilled r)
      /\ consoleLog out = [])
  /\ (processed options main frame = false ->
      settled out = Fulfilled Examples.emptyResult
      /\ snd single = Rejected (scriptError frame)
      /\ consoleLog out = ["Error processing frame: " ++ scriptError frame]).
Proof.
  intros Hrun Hid. cbn zeta. rewrite capture_reading.
  cbn [settled pageAfter consoleLog frames mainFrame passNumbered passMarked
       flat_map map].
  assert (Ho : forall s, frameOpts options main frame s = evalOpts options s 0 0).
  { intros s. unfold frameOpts. destruct (node frame) as [id probe parent].
    cbn [frameId] in Hid. cbn [offsetLoop]. subst id.
    now rewrite Nat.eqb_refl. }
  assert (Hc : completes (evalOpts options 1 0 0) (innerHeight frame)
                 (win_scrollY frame) (document frame)
               = processed options main frame).
  { unfold processed, frameCompletes. now rewrite Hrun, Ho. }
  unfold captureOptimizedSnapshotOfDocument. rewrite script_spec, Hc.
  unfold frameNumbered, frameMarked, frameWarning, passDiscovered, frameDiscovered.
  rewrite Hrun, Ho.
  assert (Hw : frameCompletes options main frame = processed options main frame).
  { unfold processed. now rewrite Hrun. }
  rewrite Hw. unfold scriptRuns in Hrun.
  destruct (isDetached frame); [discriminate|].
  destruct (evaluateError frame); [discriminate|].
  cbn [map list_sum fold_right].
  destruct (processed options main frame);
    cbn [fst snd map withDocument document startId evalOpts];
    (split; [reflexivity|]); split; try discriminate; intros _.
  - unfold resultOfNumbered, resultOf.
    cbn [fr_distilledHTML fr_elementMap fr_totalElements startId evalOpts app].
    rewrite !app_nil_r, Nat.add_0_r, !map_map, !length_map. cbn [fst snd].
    split; [reflexivity|]. split; [eexists; reflexivity | reflexivity].
  - repeat split.
Qed.

(** Witness of X6: the page of two buttons. *)
Lemma single_main_frame_is_frameless_witness :
  settled (captureOptimizedSnapshot Examples.twoButtons noOptions)
  = snd (captureOptimizedSnapshotOfDocument noOptions Examples.replaceError 800 0
           (document (Examples.frameOf Examples.mainNode
              [Examples.aButton "First" (DOMRect.mk 10 10 80 20) Examples.visibleStyle;
               Examples.aButton "Second" (DOMRect.mk 10 40 80 20)
                 Examples.visibleStyle]))).
Proof.
  exact (proj1 (proj1 (proj2 (single_main_frame_is_frameless noOptions 0
                  (Examples.frameOf Examples.mainNode
                     [Examples.aButton "First" (DOMRect.mk 10 10 80 20)
                        Examples.visibleStyle;
                      Examples.aButton "Second" (DOMRect.mk 10 40 80 20)
                        Examples.visibleStyle])
                  eq_refl eq_refl)) eq_refl)).
Defined.

(** X7: a pass changes nothing of the page but marker attributes: the
    frames stay the same frames in the same order; a frame whose script
    is not started (detached, or [evaluate] rejecting beforehand) is left
    exactly as it was; in a frame whose script is started, whether it
    ends or throws, every element is either untouched or the same
    element with [data-mcp-id] set; and a frame whose script throws,
    though it yields no result, keeps the marker written on the element
    with the numeric label source on which it threw. *)
Theorem pass_changes_markers_only (page : Page) (options : SnapshotOptions) :
  let page' := pageAfter (captureOptimizedSnapshot page options) in
  mainFrame page' = mainFrame page
  /\ Forall2
       (fun frame frame' =>
          node frame' = node frame
          /\ isDetached frame' = isDetached frame
          /\ evaluateError frame' = evaluateError frame
          /\ scriptError frame' = scriptError frame
          /\ innerHeight frame' = innerHeight frame
          /\ win_scrollY frame' = win_scrollY frame
          /\ (scriptRuns frame = false -> frame' = frame)
          /\ Forall2
               (fun el el' =>
                  el' = el
                  \/ exists id,
                       el' = setAttribute el markerAttribute (String_of_number id))
               (document frame) (document frame')
          /\ (scriptRuns frame = true ->
              frameCompletes options (mainFrame page) frame = false ->
              exists el id,
                In el (document frame)
                /\ numericLabel el = true
                /\ In (setAttribute el markerAttribute (String_of_number id))
                      (document frame')))
       (frames page) (frames page').
Proof.
  cbn zeta. rewrite capture_reading. cbn [pageAfter mainFrame frames].
  split; [reflexivity|].
  generalize 1 as start. generalize (mainFrame page) as main.
  induction (frames page) as [|frame rest IH]; intros main start; [constructor|].
  cbn [passMarked]. constructor; [|apply IH].
  destruct (frameMarked_fields options main frame start)
    as (H1 & H2 & H3 & H4 & H5 & H6).
  repeat (split; [assumption|]).
  unfold frameMarked. destruct (scriptRuns frame); split; [|split| |split].
  - discriminate.
  - cbn [withDocument document]. apply markFrom_only_marks.
  - intros _ Hc. cbn [withDocument document].
    destruct (markFrom_thrower (frameOpts options main frame start)
                (innerHeight frame) (win_scrollY frame) start (document frame) Hc)
      as (el & id & Hin & Hnum & Hmarked).
    now exists el, id.
  - reflexivity.
  - apply Forall2_same. intros el. now left.
  - discriminate.
Qed.

(** X8: the textual rendering is derived from the descriptors and their
    elements: it is the fragments joined by newlines, one per descriptor
    and in the same order, each showing the tag, identifier, role and
    text of its descriptor and the [type] and [name] attributes of the
    element that produced it; and it is empty exactly when nothing was
    retained. *)
Theorem rendering_follows_descriptors (page : Page) (options : SnapshotOptions) :
  let issued := passIssued options (mainFrame page) (frames page) 1 in
  exists r,
    settled (captureOptimizedSnapshot page options) = Fulfilled r
    /\ elementMap r = map snd issued
    /\ distilledHTML r
       = join newline
           (map (fun p : Element * ElementMetadata =>
                   renderDescriptor (snd p)
                     (getAttribute (fst p) "type") (getAttribute (fst p) "name"))
                issued)
    /\ (distilledHTML r = [] <-> visibleElements r = 0%nat).
Proof.
  cbn zeta. rewrite capture_reading.
  rewrite (passIssued_numbered options (mainFrame page) (frames page) 1).
  set (numbered := passNumbered options (mainFrame page) (frames page) 1).
  exists (resultOfNumbered numbered (passDiscovered options (mainFrame page) (frames page))).
  split; [reflexivity|].
  cbn [resultOfNumbered elementMap distilledHTML visibleElements].
  rewrite !map_map. cbn [fst snd].
  assert (Hmap : map numberedFragment numbered
                 = map (fun t : EvalOpts * Z * Element =>
                          renderDescriptor (numberedDescriptor t)
                            (getAttribute (snd t) "type")
                            (getAttribute (snd t) "name"))
                       numbered).
  { apply map_ext. intros t. unfold numberedFragment, numberedDescriptor.
    apply fragment_render. }
  split; [reflexivity|]. split; [now rewrite Hmap|].
  destruct numbered as [|t rest]; [cbn; tauto|].
  split; [|discriminate].
  intros Hempty. exfalso.
  assert (Ht : truthy (join newline (map numberedFragment (t :: rest))) = true).
  { cbn [map]. apply join_nonempty. unfold numberedFragment.
    rewrite fragment_render. apply renderDescriptor_nonempty. }
  rewrite Hempty in Ht. discriminate.
Qed.

(** X9: the marker is a faithful key: an element marked with an
    identifier answers to the marker selector of that identifier and of no
    other, also when the marker overwrote an earlier one, and an element
    without the attribute answers to none; this rests on distinct
    identifiers being written as distinct strings. *)
Theorem marker_round_trip :
  (forall id id' el,
     matchesSelector (mcpSelector id')
       (setAttribute el markerAttribute (String_of_number id)) = true
     <-> id = id')
  /\ (forall id earlier id' el,
        matchesSelector (mcpSelector id')
          (setAttribute (setAttribute el markerAttribute (String_of_number earlier))
             markerAttribute (String_of_number id)) = true
        <-> id = id')
  /\ (forall id el,
        attributes el !! markerAttribute = None ->
        matchesSelector (mcpSelector id) el = false)
  /\ (forall id id', String_of_number id = String_of_number id' -> id = id').
Proof.
  split; [|split; [|split]].
  - intros id id' el. change (setAttribute el markerAttribute (String_of_number id))
      with (mark id el). rewrite matches_mark. apply Z.eqb_eq.
  - intros id earlier id' el.
    change (setAttribute (setAttribute el markerAttribute (String_of_number earlier))
              markerAttribute (String_of_number id))
      with (mark id (mark earlier el)).
    rewrite matches_mark. apply Z.eqb_eq.
  - intros id el. apply matches_unmarked.
  - apply String_of_number_inj.
Qed.
(** X10: the label of every descriptor is normalised: of all the
    whitespace code units of JS (no-break space, line and paragraph
    separators and the like among them) it holds only single spaces,
    and it does not begin with a space; when the configured maximum
    length is not negative it is at most that many code units long, so
    that a maximum of zero leaves every label empty and every fragment
    self-closing. *)
Theorem labels_are_normalised (page : Page) (options : SnapshotOptions) :
  exists r,
    settled (captureOptimizedSnapshot page options) = Fulfilled r
    /\ Forall (fun d =>
                 singleSpaced true (text d) = true
                 /\ (forall c, In c (text d) -> isWhitespace c = true -> c = space)
                 /\ (0 <= nullish (maxTextLength options) 100 ->
                     Z.of_nat (length (text d))
                     <= nullish (maxTextLength options) 100)
                 /\ (nullish (maxTextLength options) 100 = 0 ->
                     text d = []
                     /\ forall typeHint nameHint,
                          exists opening,
                            renderDescriptor d typeHint nameHint = opening ++ " />"))
              (elementMap r).
Proof.
  rewrite capture_reading. eexists. split; [reflexivity|].
  cbn [resultOfNumbered elementMap].
  pose proof (passNumbered_maxTextLength options (mainFrame page) (frames page) 1) as Hmax.
  induction Hmax as [|t rest Ht _ IH]; [constructor|].
  cbn [map]. constructor; [|exact IH].
  destruct t as [[o id] el]. cbn [fst snd] in Ht.
  unfold numberedDescriptor, descriptorOf. cbn [fst snd text buildMetadata].
  rewrite <- Ht.
  assert (Hlen : 0 <= o_maxTextLength o ->
                 Z.of_nat (length (labelOf o (mark id el))) <= o_maxTextLength o)
    by apply labelOf_length.
  pose proof (labelOf_tidy o (mark id el)) as Htidy.
  split; [exact Htidy|]. split; [|split; [exact Hlen|]].
  - intros c. now apply (singleSpaced_whitespace true).
  - intros Hzero.
    assert (Hempty : labelOf o (mark id el) = []).
    { destruct (labelOf o (mark id el)); [reflexivity|].
      cbn [length] in Hlen. lia. }
    split; [exact Hempty|].
    intros typeHint nameHint. unfold renderDescriptor. cbn [text md_tagName mcpId role].
    rewrite Hempty. cbn [truthy].
    eexists. rewrite !app_assoc. reflexivity.
Qed.

Section ToolExtras.
Variable refLocator : JsString -> JsString -> Settled Locator.
Variable refLocators : JsString -> JsString -> JsString -> JsString -> Settled (Locator * Locator).
Variable generateLocator : Locator -> Settled JsString.
Variable formatObject : list JsString -> JsString.
Variable perform : Action -> Settled unit.

(** X11: on the reference path a failure stops the handler where it
    happens: when [refLocator] (for drag, [refLocators]) rejects, the
    handler rejects with the same reason having generated no locator
    text, recorded no code and acted on nothing; when [generateLocator]
    rejects, it rejects with that reason before any code is recorded or
    any action taken; for drag this holds for the locator text of the
    source and for that of the target, asked for in this order. *)
Theorem reference_failures_stop_the_handler :
  (forall params r reason,
     p_mcpId (c_target params) = None -> given (ref (c_target params)) = Some r ->
     (refLocator (element (c_target params)) r = Rejected reason ->
      click_handle refLocator generateLocator perform params
      = ([SetIncludeSnapshot; CallRefLocator (element (c_target params)) r],
         Rejected reason))
     /\ (forall l, refLocator (element (c_target params)) r = Fulfilled l ->
           generateLocator l = Rejected reason ->
           click_handle refLocator generateLocator perform params
           = ([SetIncludeSnapshot; CallRefLocator (element (c_target params)) r;
               GenerateLocator l], Rejected reason)))
  /\ (forall params r reason,
        p_mcpId params = None -> given (ref params) = Some r ->
        (refLocator (element params) r = Rejected reason ->
         hover_handle refLocator generateLocator perform params
         = ([SetIncludeSnapshot; CallRefLocator (element params) r], Rejected reason))
        /\ (forall l, refLocator (element params) r = Fulfilled l ->
              generateLocator l = Rejected reason ->
              hover_handle refLocator generateLocator perform params
              = ([SetIncludeSnapshot; CallRefLocator (element params) r;
                  GenerateLocator l], Rejected reason)))
  /\ (forall params r reason,
        p_mcpId (s_target params) = None -> given (ref (s_target params)) = Some r ->
        (refLocator (element (s_target params)) r = Rejected reason ->
         selectOption_handle refLocator generateLocator formatObject perform params
         = ([SetIncludeSnapshot; CallRefLocator (element (s_target params)) r],
            Rejected reason))
        /\ (forall l, refLocator (element (s_target params)) r = Fulfilled l ->
              generateLocator l = Rejected reason ->
              selectOption_handle refLocator generateLocator formatObject perform params
              = ([SetIncludeSnapshot; CallRefLocator (element (s_target params)) r;
                  GenerateLocator l], Rejected reason)))
  /\ (forall params sr er reason,
        startMcpId params = None \/ endMcpId params = None ->
        given (startRef params) = Some sr -> given (endRef params) = Some er ->
        (refLocators (startElement params) sr (endElement params) er = Rejected reason ->
         drag_handle refLocators generateLocator perform params
         = ([SetIncludeSnapshot;
             CallRefLocators (startElement params) sr (endElement params) er],
            Rejected reason))
        /\ (forall ls le,
              refLocators (startElement params) sr (endElement params) er
                = Fulfilled (ls, le) ->
              generateLocator ls = Rejected reason ->
              drag_handle refLocators generateLocator perform params
              = ([SetIncludeSnapshot;
                  CallRefLocators (startElement params) sr (endElement params) er;
                  GenerateLocator ls], Rejected reason))
        /\ (forall ls le gs,
              refLocators (startElement params) sr (endElement params) er
                = Fulfilled (ls, le) ->
              generateLocator ls = Fulfilled gs ->
              generateLocator le = Rejected reason ->
              drag_handle refLocators generateLocator perform params
              = ([SetIncludeSnapshot;
                  CallRefLocators (startElement params) sr (endElement params) er;
                  GenerateLocator ls; GenerateLocator le], Rejected reason))).
Proof.
  split; [|split; [|split]].
  - intros params r reason Hid Href. split.
    + intros Hr. unfold click_handle, tab_refLocator, call.
      rewrite Hid, Href, Hr. reflexivity.
    + intros l Hr Hg. unfold click_handle, tab_refLocator, tab_generateLocator, call.
      rewrite Hid, Href, Hr. cbn. rewrite Hg. reflexivity.
  - intros params r reason Hid Href. split.
    + intros Hr. unfold hover_handle, tab_refLocator, call.
      rewrite Hid, Href, Hr. reflexivity.
    + intros l Hr Hg. unfold hover_handle, tab_refLocator, tab_generateLocator, call.
      rewrite Hid, Href, Hr. cbn. rewrite Hg. reflexivity.
  - intros params r reason Hid Href. split.
    + intros Hr. unfold selectOption_handle, tab_refLocator, call.
      rewrite Hid, Href, Hr. reflexivity.
    + intros l Hr Hg.
      unfold selectOption_handle, tab_refLocator, tab_generateLocator, call.
      rewrite Hid, Href, Hr. cbn. rewrite Hg. reflexivity.
  - intros params sr er reason Hid Hs He. split; [|split].
    + intros Hr. unfold drag_handle, tab_refLocators, call.
      rewrite Hs, He, Hr.
      destruct Hid as [-> | ->]; destruct (startMcpId params), (endMcpId params);
        reflexivity.
    + intros ls le Hr Hg.
      unfold drag_handle, tab_refLocators, tab_generateLocator, call.
      rewrite Hs, He, Hr.
      destruct Hid as [-> | ->]; destruct (startMcpId params), (endMcpId params);
        cbn; rewrite Hg; reflexivity.
    + intros ls le gs Hr Hg Hg'.
      unfold drag_handle, tab_refLocators, tab_generateLocator, call.
      rewrite Hs, He, Hr.
      destruct Hid as [-> | ->]; destruct (startMcpId params), (endMcpId params);
        cbn; rewrite Hg; cbn; rewrite Hg'; reflexivity.
Qed.

(** X12: every run of click, drag, hover and select, whatever the
    parameters and whatever the collaborators answer, opens with
    [setIncludeSnapshot], acts on the page at most once and only as its
    last call, records the code line of the action right before acting,
    and settles exactly as the action does; a run that takes no action is
    rejected. *)
Theorem handler_runs_are_orderly :
  (forall params,
     orderly perform (click_handle refLocator generateLocator perform params))
  /\ (forall params,
        orderly perform (drag_handle refLocators generateLocator perform params))
  /\ (forall params,
        orderly perform (hover_handle refLocator generateLocator perform params))
  /\ (forall params,
        orderly perform
          (selectOption_handle refLocator generateLocator formatObject perform params)).
Proof.
  split; [|split; [|split]].
  - intros [[el r id] dbl b]. unfold click_handle, orderly.
    cbn [c_target p_mcpId ref element doubleClick button].
    destruct id as [id|].
    + cbn. destruct (perform _); cbn; repeat split; eauto.
    + destruct (given r) as [r'|]; [|cbn; repeat split; eauto].
      unfold tab_refLocator, tab_generateLocator, call.
      destruct (refLocator el r') as [l|reason]; [|cbn; repeat split; eauto].
      cbn. destruct (generateLocator l) as [g|reason]; [|cbn; repeat split; eauto].
      cbn. destruct (perform _); cbn; repeat split; eauto.
  - intros [se sr s ee er e]. unfold drag_handle, orderly.
    cbn [startElement startRef startMcpId endElement endRef endMcpId].
    assert (Href :
      orderly perform
        (exec setIncludeSnapshot ;
         run locators <-
           match given sr, given er with
           | Some sr', Some er' =>
               run both <- tab_refLocators refLocators se sr' ee er' ;
               run gs <- tab_generateLocator generateLocator (fst both) ;
               run ge <- tab_generateLocator generateLocator (snd both) ;
               exec addCode ("await page." ++ gs ++ ".dragTo(page." ++ ge ++ ");") ;
               ret both
           | _, _ => throw "Either both refs or both mcpIds must be provided"
           end ;
         waitForCompletion perform (DragTo (fst locators) (snd locators)))).
    { unfold orderly.
      destruct (given sr) as [sr'|]; [|cbn; repeat split; eauto].
      destruct (given er) as [er'|]; [|cbn; repeat split; eauto].
      unfold tab_refLocators, tab_generateLocator, call.
      destruct (refLocators se sr' ee er') as [[ls le]|reason];
        [|cbn; repeat split; eauto].
      cbn. destruct (generateLocator ls) as [gs|reason]; [|cbn; repeat split; eauto].
      cbn. destruct (generateLocator le) as [ge|reason]; [|cbn; repeat split; eauto].
      cbn. destruct (perform _); cbn; repeat split; eauto. }
    destruct s as [s|]; [destruct e as [e|]|]; try exact Href.
    cbn. destruct (perform _); cbn; repeat split; eauto.
  - intros [el r id]. unfold hover_handle, orderly.
    cbn [p_mcpId ref element].
    destruct id as [id|].
    + cbn. destruct (perform _); cbn; repeat split; eauto.
    + destruct (given r) as [r'|]; [|cbn; repeat split; eauto].
      unfold tab_refLocator, tab_generateLocator, call.
      destruct (refLocator el r') as [l|reason]; [|cbn; repeat split; eauto].
      cbn. destruct (generateLocator l) as [g|reason]; [|cbn; repeat split; eauto].
      cbn. destruct (perform _); cbn; repeat split; eauto.
  - intros [[el r id] vs]. unfold selectOption_handle, orderly.
    cbn [s_target p_mcpId ref element values].
    destruct id as [id|].
    + cbn. destruct (perform _); cbn; repeat split; eauto.
    + destruct (given r) as [r'|]; [|cbn; repeat split; eauto].
      unfold tab_refLocator, tab_generateLocator, call.
      destruct (refLocator el r') as [l|reason]; [|cbn; repeat split; eauto].
      cbn. destruct (generateLocator l) as [g|reason]; [|cbn; repeat split; eauto].
      cbn. destruct (perform _); cbn; repeat split; eauto.
Qed.
End ToolExtras.

(** X14: the pass without frames, when its script runs to its end,
    hands the identifiers 1, 2, ..., n to the retained candidates in
    document order; it reports as discovered all candidates of the
    document and as retained the number of its descriptors, never more
    than discovered.  When its script throws, which it does on a retained
    element whose label source is a number, the pass rejects with the
    error of the host.  Either way it leaves a document of the same
    length. *)
Theorem frameless_pass_numbers_in_order
    (options : SnapshotOptions) (scriptError : JsString)
    (viewportHeight scrollY : Z) (document : list Element) :
  let out := captureOptimizedSnapshotOfDocument options scriptError
               viewportHeight scrollY document in
  let o := evalOpts options 1 0 0 in
  length (fst out) = length document
  /\ (completes o viewportHeight scrollY document = true ->
      exists r,
        snd out = Fulfilled r
        /\ elementMap r
           = map (fun p => descriptorOf o (fst p) (snd p))
               (number 1 (retainedOf o viewportHeight scrollY document))
        /\ map mcpId (elementMap r) = map Z.of_nat (seq 1 (visibleElements r))
        /\ visibleElements r = length (elementMap r)
        /\ totalElements r = length (querySelectorAll document)
        /\ (visibleElements r <= totalElements r)%nat)
  /\ (completes o viewportHeight scrollY document = false ->
      snd out = Rejected scriptError).
Proof.
  cbn zeta. unfold captureOptimizedSnapshotOfDocument. rewrite script_spec.
  destruct (completes (evalOpts options 1 0 0) viewportHeight scrollY document);
    cbn [fst snd]; (split; [apply markFrom_length|]);
    (split; [|intros H; (discriminate || reflexivity)]); [|discriminate].
  intros _. eexists. split; [reflexivity|].
  unfold resultOf.
  cbn [elementMap visibleElements totalElements fr_elementMap
       fr_totalElements fr_distilledHTML startId evalOpts].
  split; [reflexivity|]. split; [|split; [reflexivity|split; [reflexivity|]]].
  - rewrite map_map, length_map, number_length. cbn [fst snd].
    rewrite (number_ids (evalOpts options 1 0 0)). apply consecutive_from_one.
  - rewrite length_map, number_length. apply retainedOf_le_candidates.
Qed.

(** X15: what a pass makes of the first frames of a page does not depend
    on the frames that follow: with more frames at the end, the
    descriptors of the shorter page come first and unchanged, the further
    ones continue the numbering where it stopped, and the first frames
    are left as the shorter pass leaves them. *)
Theorem later_frames_leave_earlier_ones
    (options : SnapshotOptions) (main : nat) (first more : list Frame) :
  let short := captureOptimizedSnapshot {| mainFrame := main; frames := first |} options in
  let long := captureOptimizedSnapshot
                {| mainFrame := main; frames := first ++ more |} options in
  exists further,
    descriptorsOf long = descriptorsOf short ++ further
    /\ map mcpId further
       = consecutive (1 + Z.of_nat (length (descriptorsOf short))) (length further)
    /\ firstn (length first) (frames (pageAfter long)) = frames (pageAfter short).
Proof.
  cbn zeta. rewrite !capture_reading. unfold descriptorsOf.
  cbn [settled pageAfter frames mainFrame resultOfNumbered elementMap].
  rewrite passNumbered_app, passMarked_app, map_app.
  eexists. split; [reflexivity|]. split.
  - rewrite map_map, !length_map. apply passNumbered_ids.
  - assert (Hlen : forall fs s, length (passMarked options main fs s) = length fs).
    { induction fs as [|f rest IH]; intros s; [reflexivity|].
      cbn [passMarked length]. now rewrite IH. }
    rewrite <- (Hlen first 1) at 1.
    now rewrite firstn_app, Nat.sub_diag, firstn_all, firstn_O, app_nil_r.
Qed.
Section LegacyPassExtras.
Variable options : SnapshotOptions.
Variables viewportHeight scrollY : Z.
Variable iframeRect : IFrame -> DOMRect.t.
Variable scriptError : JsString.

(** X16: the legacy single-frame pass logs the warnings of the walk.
    When its callback throws on no collected element, it hands the
    identifiers 1, 2, ..., n to the retained elements in the order the
    walk collected them, reports as discovered everything the walk
    collected and as retained the number of its descriptors, never more,
    and every descriptor belongs to a collected element that passes the
    filter and records that element's own box, with no iframe offset
    added; otherwise it rejects with the error of the host.  Of the
    collected elements, one that the filter rejects keeps its attributes
    and the [__iframeChain] expando the walk set on it; one that passes
    the filter has the expando deleted and [data-mcp-id] set, to the
    identifier it was numbered with when the pass ends, or is still as
    the walk left it when the pass threw before reaching it. *)
Theorem legacy_pass_numbers_collected (graph : DocumentGraph) (root : nat) :
  let out := captureOptimizedSnapshotSingleFrame options viewportHeight scrollY
               iframeRect scriptError graph root in
  let collected := collectAllElements graph root in
  let kept := legacyRetained options viewportHeight scrollY iframeRect
                (snd collected) in
  fst (fst out) = fst collected
  /\ (legacyCompletes options viewportHeight scrollY iframeRect (snd collected)
      = true ->
      (exists r,
         snd out = Fulfilled r
         /\ map mcpId (elementMap r) = map Z.of_nat (seq 1 (visibleElements r))
         /\ visibleElements r = length (elementMap r)
         /\ totalElements r = length (snd collected)
         /\ (visibleElements r <= totalElements r)%nat
         /\ Forall
              (fun d =>
                 exists el iframeChain,
                   In (el, iframeChain) (snd collected)
                   /\ legacyRejected options viewportHeight scrollY iframeRect
                        (el, iframeChain) = false
                   /\ bounds d
                      = Bounds.mk (DOMRect.x (getBoundingClientRect el))
                                  (DOMRect.y (getBoundingClientRect el))
                                  (DOMRect.width (getBoundingClientRect el))
                                  (DOMRect.height (getBoundingClientRect el)))
              (elementMap r))
      /\ Forall2
           (fun (entry : ElementWithIframeInfo) (after : Collected) =>
              if legacyRejected options viewportHeight scrollY iframeRect entry
              then after = (fst entry, Some (snd entry))
              else exists id,
                     In (id, fst entry) (number 1 kept)
                     /\ after = (setAttribute (fst entry) markerAttribute
                                   (String_of_number id), None))
           (snd collected) (snd (fst out)))
  /\ (legacyCompletes options viewportHeight scrollY iframeRect (snd collected)
      = false ->
      snd out = Rejected scriptError)
  /\ Forall2
       (fun (entry : ElementWithIframeInfo) (after : Collected) =>
          if legacyRejected options viewportHeight scrollY iframeRect entry
          then after = (fst entry, Some (snd entry))
          else after = (fst entry, Some (snd entry))
               \/ exists id, after = (setAttribute (fst entry) markerAttribute
                                        (String_of_number id), None))
       (snd collected) (snd (fst out)).
Proof.
  cbn zeta. rewrite legacy_reading. cbn zeta. cbn [fst snd].
  set (entries := snd (collectAllElements graph root)).
  set (kept := legacyRetained options viewportHeight scrollY iframeRect entries).
  split; [reflexivity|]. split; [|split].
  - intros Hc. rewrite Hc. split; [|now apply legacyMarked_walked].
    eexists. split; [reflexivity|].
    cbn [elementMap visibleElements totalElements].
    split; [|split; [|split; [reflexivity|split]]].
    + rewrite map_map. cbn [fst snd].
      rewrite (number_ids (legacyOpts options)). apply consecutive_from_one.
    + now rewrite length_map, number_length.
    + apply legacyRetained_le.
    + apply List.Forall_forall. intros d Hd.
      apply in_map_iff in Hd as ([id el] & <- & Hin). apply number_In in Hin.
      subst kept. unfold legacyRetained in Hin.
      apply in_map_iff in Hin as ([el0 iframeChain] & Heq & Hin).
      cbn [fst] in Heq. subst el0.
      apply filter_In in Hin as [Hin Hkeep]. apply negb_true_iff in Hkeep.
      exists el, iframeChain. split; [exact Hin|]. split; [exact Hkeep|].
      unfold descriptorOf, buildMetadata, legacyOpts. cbn [bounds fst snd].
      cbn [evalOpts frameOffsetX frameOffsetY].
      rewrite !Z.add_0_r. reflexivity.
  - intros Hc. now rewrite Hc.
  - apply legacyMarked_touched.
Qed.

(** X17: on a page that is a single document without iframes the legacy
    pass settles as the pass without frames does, with the same result
    or the same rejection, and warns of nothing. *)
Theorem legacy_pass_on_plain_document (graph : DocumentGraph) (root : nat) :
  doc_iframes (graph root) = [] ->
  let out := captureOptimizedSnapshotSingleFrame options viewportHeight scrollY
               iframeRect scriptError graph root in
  snd out
  = snd (captureOptimizedSnapshotOfDocument options scriptError
           viewportHeight scrollY (doc_elements (graph root)))
  /\ fst (fst out) = [].
Proof.
  intros Hplain. cbn zeta. rewrite legacy_reading. cbn zeta.
  assert (Hc : collectAllElements graph root = ([], ownElements graph root [])).
  { unfold collectAllElements.
    rewrite (collect_unfold MAX_DEPTH graph root [] 0) by (unfold MAX_DEPTH; lia).
    rewrite Hplain. cbn. now rewrite app_nil_r. }
  rewrite Hc. cbn [fst snd]. split; [|reflexivity].
  assert (Hrej : forall el,
            legacyRejected options viewportHeight scrollY iframeRect (el, [])
            = rejected (evalOpts options 1 0 0) viewportHeight scrollY el)
    by reflexivity.
  assert (Hkept : legacyRetained options viewportHeight scrollY iframeRect
                    (ownElements graph root [])
                  = retainedOf (evalOpts options 1 0 0) viewportHeight scrollY
                      (doc_elements (graph root))).
  { unfold legacyRetained, ownElements, retainedOf, querySelectorAll.
    induction (doc_elements (graph root)) as [|el rest IH]; [reflexivity|].
    cbn [List.filter]. unfold retains at 1.
    destruct (matchesInteractive el); [|exact IH].
    cbn [map List.filter andb]. rewrite Hrej.
    destruct (rejected (evalOpts options 1 0 0) viewportHeight scrollY el);
      cbn [negb map fst]; now rewrite IH. }
  assert (Hends : legacyCompletes options viewportHeight scrollY iframeRect
                    (ownElements graph root [])
                  = completes (evalOpts options 1 0 0) viewportHeight scrollY
                      (doc_elements (graph root))).
  { clear Hkept. unfold legacyCompletes, ownElements, completes, querySelectorAll.
    induction (doc_elements (graph root)) as [|el rest IH]; [reflexivity|].
    cbn [List.filter forallb]. unfold throwsOn at 1, retains at 1.
    destruct (matchesInteractive el); [|exact IH].
    cbn [map forallb andb]. unfold legacyThrowsOn at 1. rewrite Hrej.
    cbn [fst]. now rewrite IH. }
  rewrite Hkept, Hends. unfold captureOptimizedSnapshotOfDocument.
  rewrite script_spec.
  destruct (completes (evalOpts options 1 0 0) viewportHeight scrollY
              (doc_elements (graph root))); [|reflexivity].
  unfold resultOf. cbn [snd fr_distilledHTML fr_elementMap fr_totalElements
    startId evalOpts].
  unfold ownElements. rewrite !length_map, number_length. reflexivity.
Qed.
End LegacyPassExtras.

(** Witness of X17: a document of two buttons. *)
Lemma legacy_pass_on_plain_document_witness :
  snd (captureOptimizedSnapshotSingleFrame noOptions 800 0
         (fun _ => DOMRect.mk 0 0 0 0) Examples.replaceError
         (plainDocument
            [Examples.aButton "First" (DOMRect.mk 10 10 80 20) Examples.visibleStyle;
             Examples.aButton "Second" (DOMRect.mk 10 40 80 20) Examples.visibleStyle])
         0)
  = snd (captureOptimizedSnapshotOfDocument noOptions Examples.replaceError 800 0
           [Examples.aButton "First" (DOMRect.mk 10 10 80 20) Examples.visibleStyle;
            Examples.aButton "Second" (DOMRect.mk 10 40 80 20) Examples.visibleStyle]).
Proof.
  exact (proj1 (legacy_pass_on_plain_document noOptions 800 0
                  (fun _ => DOMRect.mk 0 0 0 0) Examples.replaceError
                  (plainDocument
                     [Examples.aButton "First" (DOMRect.mk 10 10 80 20)
                        Examples.visibleStyle;
                      Examples.aButton "Second" (DOMRect.mk 10 40 80 20)
                        Examples.visibleStyle])
                  0 eq_refl)).
Defined.
(** X18: a frame whose script throws spends identifiers without issuing
    them: the loop body leaves the counter and the results as they were
    and logs one warning, yet an element the frame retains now carries
    the counter's value as its marker, the value the next frame will
    start from; and the pass as a whole settles as it does on the page
    without that frame. *)
Theorem thrown_script_spends_identifiers
    (options : SnapshotOptions) (main : nat) (ps : PassState) (frame : Frame) :
  scriptRuns frame = true ->
  frameCompletes options main frame = false ->
  let after := frameBody options main ps frame in
  globalIdCounter (snd after) = globalIdCounter ps
  /\ allResults (snd after) = allResults ps
  /\ warnings (snd after)
     = warnings ps ++ ["Error processing frame: " ++ scriptError frame]
  /\ (exists el,
        In el (document frame)
        /\ retains (frameOpts options main frame (globalIdCounter ps))
             (innerHeight frame) (win_scrollY frame) el = true
        /\ In (setAttribute el markerAttribute
                 (String_of_number (globalIdCounter ps)))
              (document (fst after)))
  /\ (forall before rest,
        settled (captureOptimizedSnapshot
                   {| mainFrame := main; frames := before ++ frame :: rest |} options)
        = settled (captureOptimizedSnapshot
                     {| mainFrame := main; frames := before ++ rest |} options)).
Proof.
  intros Hrun Hc. cbn zeta. rewrite (frameBody_thrown _ _ _ _ Hrun Hc).
  cbn [fst snd globalIdCounter allResults warnings withDocument document].
  split; [reflexivity|]. split; [reflexivity|]. split; [|split].
  - f_equal. unfold frameWarning, scriptRuns in *.
    destruct (isDetached frame); [discriminate|].
    destruct (evaluateError frame); [discriminate|]. now rewrite Hc.
  - apply markFrom_first. now rewrite frameCompletes_start.
  - intros before rest. rewrite !settled_of_results. cbn [mainFrame frames].
    rewrite (frameLoop_skip options main before frame rest); [reflexivity|].
    unfold processed. rewrite Hrun, Hc. reflexivity.
Qed.

(** Witness of X18: the main frame of the page with an option of
    numeric value. *)
Lemma thrown_script_spends_identifiers_witness :
  let frame := Examples.frameOf Examples.mainNode
                 [Examples.anOption (DOMRect.mk 10 10 80 20)] in
  let ps := {| globalIdCounter := 1; allResults := []; warnings := [] |} in
  globalIdCounter (snd (frameBody noOptions 0 ps frame)) = 1
  /\ allResults (snd (frameBody noOptions 0 ps frame)) = [].
Proof.
  intros frame ps.
  destruct (thrown_script_spends_identifiers noOptions 0 ps frame eq_refl eq_refl)
    as (H1 & H2 & _).
  split; [exact H1 | exact H2].
Defined.

(** X19: a larger buffer can cost a whole frame: on a page with a button
    near the top and, 3000 pixels down, an option whose label source is
    its numeric value, the default pass retains the button and rejects
    the option before reading its label, while the pass with a buffer of
    5000 retains the option, throws on it and loses the frame, fulfilling
    with the empty result and one warning, the button and the option
    both left marked. *)
Theorem larger_buffer_can_lose_a_frame :
  loosens noOptions Examples.wideBuffer
  /\ (exists r,
        settled (captureOptimizedSnapshot Examples.farOption noOptions) = Fulfilled r
        /\ totalElements r = 2%nat
        /\ map (fun d => (mcpId d, text d)) (elementMap r) = [(1, "Near")])
  /\ consoleLog (captureOptimizedSnapshot Examples.farOption noOptions) = []
  /\ settled (captureOptimizedSnapshot Examples.farOption Examples.wideBuffer)
     = Fulfilled Examples.emptyResult
  /\ consoleLog (captureOptimizedSnapshot Examples.farOption Examples.wideBuffer)
     = ["Error processing frame: " ++ Examples.replaceError]
  /\ map (fun el => (tagName el, getAttribute el markerAttribute))
       (mainDocument
          (pageAfter (captureOptimizedSnapshot Examples.farOption Examples.wideBuffer)))
     = [("BUTTON", "1"); ("LI", "2")].
Proof.
  split; [|split; [|split; [|split; [|split]]]].
  - unfold loosens. cbn. repeat split; (lia || discriminate).
  - eexists. split; [reflexivity|]. vm_compute. split; reflexivity.
  - vm_compute. reflexivity.
  - vm_compute. reflexivity.
  - vm_compute. reflexivity.
  - vm_compute. reflexivity.
Qed.
